(** * FCP pool manager and attach/detach orchestration (zvmsdk/volumeop.py)

    A shallow embedding of [FCP], [FCPManager] and [FCPVolumeManager] of
    [zvmsdk/volumeop.py], with the properties of the FCP address expansion,
    the pool synchronisation, the usage accounting and the attach/detach
    state machines stated and proved over it. *)

From Stdlib Require Import Ascii String NArith ZArith List Bool Lia.
From stdpp Require Import base option list gmap strings fin_maps fin_sets.

Local Open Scope string_scope.
Local Open Scope N_scope.

#[local] Set Warnings "-clear-no-such-hyp".

(** ** Python strings

    A [str] is modelled as a [string] of characters 0..255.  Only the
    methods the module calls are embedded; [lower] and [upper] change the
    letters of the ASCII range, which is what device numbers, WWPNs and
    user ids are written in, and leave every other character as it is. *)

Module PyStr.

Definition code (c : ascii) : N := N_of_ascii c.

(** [str.isspace] on one character (the Unicode white space below 256). *)
Definition is_space (c : ascii) : bool :=
  let n := code c in
  ((9 <=? n) && (n <=? 13)) || ((28 <=? n) && (n <=? 32))
  || (n =? 133) || (n =? 160).

Definition lower_char (c : ascii) : ascii :=
  let n := code c in
  if (65 <=? n) && (n <=? 90) then ascii_of_N (n + 32) else c.

Definition upper_char (c : ascii) : ascii :=
  let n := code c in
  if (97 <=? n) && (n <=? 122) then ascii_of_N (n - 32) else c.

Fixpoint map_chars (f : ascii -> ascii) (s : string) : string :=
  match s with
  | EmptyString => EmptyString
  | String c t => String (f c) (map_chars f t)
  end.

(** [s.lower()] and [s.upper()]. *)
Definition lower : string -> string := map_chars lower_char.
Definition upper : string -> string := map_chars upper_char.

Fixpoint lstrip (s : string) : string :=
  match s with
  | String c t => if is_space c then lstrip t else s
  | EmptyString => EmptyString
  end.

Fixpoint rstrip (s : string) : string :=
  match s with
  | EmptyString => EmptyString
  | String c t =>
      match rstrip t with
      | EmptyString => if is_space c then EmptyString else String c EmptyString
      | t' => String c t'
      end
  end.

(** [s.strip()]. *)
Definition strip (s : string) : string := rstrip (lstrip s).

(** [s.replace(c, '')] for a one-character [c]. *)
Fixpoint remove_char (c : ascii) (s : string) : string :=
  match s with
  | EmptyString => EmptyString
  | String d t =>
      if Ascii.eqb c d then remove_char c t else String d (remove_char c t)
  end.

(** [c in s] for a one-character [c]. *)
Fixpoint contains (c : ascii) (s : string) : bool :=
  match s with
  | EmptyString => false
  | String d t => Ascii.eqb c d || contains c t
  end.

(** [s.split(c)] for a one-character separator: never the empty list. *)
Fixpoint split (c : ascii) (s : string) : list string :=
  match s with
  | EmptyString => [EmptyString]
  | String d t =>
      if Ascii.eqb c d then EmptyString :: split c t
      else match split c t with
           | h :: r => String d h :: r
           | [] => [String d EmptyString]
           end
  end.

(** The last field of a split, [s.split(c)[-1]]. *)
Definition last_field (c : ascii) (s : string) : string :=
  List.last (split c s) EmptyString.

(** Truth value of a string: the empty string is false. *)
Definition truthy (s : string) : bool :=
  match s with EmptyString => false | _ => true end.

End PyStr.

(** ** Hexadecimal device numbers: [int(s, 16)] and ["%04x" % n] *)

Module Hex.

Definition digit_value (c : ascii) : option N :=
  let n := PyStr.code c in
  if (48 <=? n) && (n <=? 57) then Some (n - 48)
  else if (97 <=? n) && (n <=? 102) then Some (n - 87)
  else if (65 <=? n) && (n <=? 70) then Some (n - 55)
  else None.

Definition is_hex (c : ascii) : bool :=
  match digit_value c with Some _ => true | None => false end.

Fixpoint int16_acc (acc : N) (s : string) : option N :=
  match s with
  | EmptyString => Some acc
  | String c t =>
      match digit_value c with
      | Some d => int16_acc (16 * acc + d) t
      | None => None
      end
  end.

(** [int(s, 16)] on a string of hexadecimal digits; [None] stands for the
    [ValueError] of an empty or ill-formed literal.  (Signs, prefixes and
    underscores, which [int] also reads, contain characters that the
    grammar check of [_expand_fcp_list] excludes.) *)
Definition int16 (s : string) : option N :=
  match s with
  | EmptyString => None
  | _ => int16_acc 0 s
  end.

Definition digit_char (d : N) : ascii :=
  if d <? 10 then ascii_of_N (48 + d) else ascii_of_N (87 + d).

(** Lowercase hexadecimal digits of [n], most significant first. *)
Fixpoint digits (fuel : nat) (n : N) (acc : string) : string :=
  let acc' := String (digit_char (n mod 16)) acc in
  match fuel with
  | O => acc'
  | S fuel' => if n / 16 =? 0 then acc' else digits fuel' (n / 16) acc'
  end.

Definition to_hex (n : N) : string := digits (N.to_nat (N.size n)) n EmptyString.

Fixpoint zeros (k : nat) : string :=
  match k with O => EmptyString | S k' => String "0" (zeros k') end.

(** ["%04x" % n]: at least four digits, padded with zeros on the left. *)
Definition format_04x (n : N) : string :=
  let h := to_hex n in
  zeros (4 - String.length h) ++ h.

End Hex.

(** ** Regular expressions, as far as [re.match] is used

    The patterns of [_expand_fcp_list] use character classes, bounded
    repetition, grouping, [?], [*] and the anchors only.  On such patterns
    the backtracking matcher finds a match exactly when the string is in
    the language of the pattern, so that matching is embedded as language
    membership, decided with derivatives. *)

Module Regex.

Inductive regex : Type :=
| Void
| Eps
| Class (p : ascii -> bool)
| Cat (r1 r2 : regex)
| Alt (r1 r2 : regex)
| Star (r : regex).

Fixpoint nullable (r : regex) : bool :=
  match r with
  | Void => false
  | Eps => true
  | Class _ => false
  | Cat r1 r2 => nullable r1 && nullable r2
  | Alt r1 r2 => nullable r1 || nullable r2
  | Star _ => true
  end.

Definition cat (r1 r2 : regex) : regex :=
  match r1, r2 with
  | Void, _ => Void
  | _, Void => Void
  | Eps, _ => r2
  | _, _ => Cat r1 r2
  end.

Definition alt (r1 r2 : regex) : regex :=
  match r1, r2 with
  | Void, _ => r2
  | _, Void => r1
  | _, _ => Alt r1 r2
  end.

Fixpoint deriv (c : ascii) (r : regex) : regex :=
  match r with
  | Void => Void
  | Eps => Void
  | Class p => if p c then Eps else Void
  | Cat r1 r2 =>
      if nullable r1 then alt (cat (deriv c r1) r2) (deriv c r2)
      else cat (deriv c r1) r2
  | Alt r1 r2 => alt (deriv c r1) (deriv c r2)
  | Star r1 => cat (deriv c r1) (Star r1)
  end.

(** The whole of [s] is in the language of [r]. *)
Fixpoint fullmatch (r : regex) (s : string) : bool :=
  match s with
  | EmptyString => nullable r
  | String c t => fullmatch (deriv c r) t
  end.

Definition chr (c : ascii) : regex := Class (Ascii.eqb c).
Definition opt (r : regex) : regex := Alt r Eps.

(** [r{1,4}] *)
Definition rep_1_4 (r : regex) : regex :=
  Cat r (opt (Cat r (opt (Cat r (opt r))))).

Fixpoint drop_final_newline (s : string) : option string :=
  match s with
  | EmptyString => None
  | String c EmptyString => if Ascii.eqb c "010" then Some EmptyString else None
  | String c t => String c <$> drop_final_newline t
  end.

(** [re.match("^" + r + "$", s)] as a truth value: [$] matches at the end
    of the string and also just before a newline that ends it. *)
Definition re_match_anchored (r : regex) (s : string) : bool :=
  fullmatch r s
  || match drop_final_newline s with
     | Some s' => fullmatch r s'
     | None => false
     end.

End Regex.

(** ** Exceptions

    [zvmsdk/exception.py] is not part of the sources at hand; what the
    module relies on is kept: the class of an exception, its [results]
    (read by [_detach]) and its message. *)

Inductive exn_class : Type :=
| SDKBaseException
| SDKInternalError
| SDKObjectNotExistError
| SDKSMTRequestFailed
| SDKVolumeOperationError
| PyException (name : string).

Record exn : Type := mk_exn_of {
  exn_cls : exn_class;
  (** [results]: [results['rc']] and [results['rs']], or [None] for an
      exception that carries no results *)
  exn_results : option (Z * Z);
  (** the text of [format_message()] *)
  exn_message : string
}.

(** An exception with the results [rc] and [rs]. *)
Definition mk_exn (c : exn_class) (rc rs : Z) (msg : string) : exn :=
  mk_exn_of c (Some (rc, rs)) msg.

(** Modelled from the spec: the class hierarchy of [zvmsdk/exception.py] is
    missing; the error kinds of the SDK all derive from
    [SDKBaseException], other Python exceptions do not. *)
Definition is_SDKBaseException (e : exn) : bool :=
  match exn_cls e with
  | PyException _ => false
  | _ => true
  end.

(** An exception built from a message only, as [SDKBaseException(msg=...)]
    is: its [results] are [None]. *)
Definition new_exn (c : exn_class) (msg : string) : exn := mk_exn_of c None msg.

Inductive outcome (A : Type) : Type :=
| Ret (a : A)
| Raise (e : exn).
Arguments Ret {A} a.
Arguments Raise {A} e.

#[global] Instance outcome_ret : MRet outcome := fun A a => Ret a.
#[global] Instance outcome_bind : MBind outcome :=
  fun A B f m => match m with Ret a => f a | Raise e => Raise e end.
#[global] Instance outcome_fmap : FMap outcome :=
  fun A B f m => match m with Ret a => Ret (f a) | Raise e => Raise e end.

(** ** Python dictionaries that are iterated

    A [dict] keeps its keys in insertion order; where the module iterates
    over one ([_fcp_path_mapping.items()]) it is an association list with
    one entry per key. *)

Module PyDict.
Section Dict.
Context {V : Type}.

Definition dict : Type := list (nat * V).

Fixpoint get (d : dict) (k : nat) : option V :=
  match d with
  | [] => None
  | (k', v) :: t => if Nat.eqb k k' then Some v else get t k
  end.

(** [d[k] = v]: in place for a key of [d], at the end for a new key. *)
Fixpoint set (d : dict) (k : nat) (v : V) : dict :=
  match d with
  | [] => [(k, v)]
  | (k', v') :: t =>
      if Nat.eqb k k' then (k, v) :: t else (k', v') :: set t k v
  end.

Definition items (d : dict) : list (nat * V) := d.
Definition keys (d : dict) : list nat := d.*1.
End Dict.
Arguments dict V : clear implicits.
End PyDict.

(** ** Expansion of the FCP list of the configuration *)

Module Expand.
Import PyStr Hex Regex.

Definition hex_1_4 : regex := rep_1_4 (Class is_hex).

(** [range_pattern = '[0-9a-fA-F]{1,4}(-[0-9a-fA-F]{1,4})?'] *)
Definition range_pattern : regex :=
  Cat hex_1_4 (opt (Cat (chr "-") hex_1_4)).

(** [range_pattern] followed by [?]: the question mark lands on the
    optional group, which becomes lazy; the language is unchanged. *)
Definition range_pattern_lazy : regex :=
  Cat hex_1_4 (opt (Cat (chr "-") hex_1_4)).

(** [(R)(;R;?)*] between the anchors, for [R] the pattern of one path. *)
Definition paths_pattern (R : regex) : regex :=
  Cat R (Star (Cat (chr ";") (Cat R (opt (chr ";"))))).

Definition match_pattern : regex := paths_pattern range_pattern.

(** [item_pattern = "(%(range)s)(,%(range)s?)*"] *)
Definition item_pattern : regex :=
  Cat range_pattern (Star (Cat (chr ",") range_pattern_lazy)).

Definition multi_match_pattern : regex := paths_pattern item_pattern.

(** The value [_expand_fcp_list] returns: the empty [set()] of the first
    guard, or the dictionary from path number to device numbers. *)
Inductive expanded : Type :=
| EmptySet
| PathMapping (fcp_devices : PyDict.dict (gset string)).

(** [range(_min, _max + 1)] *)
Definition py_range (lo hi : N) : list N :=
  (fun i => lo + N.of_nat i) <$> seq 0 (N.to_nat (hi - lo)).

Definition ValueError : exn := new_exn (PyException "ValueError") "".

Definition int16_or_raise (s : string) : outcome N :=
  match int16 s with
  | Some n => Ret n
  | None => Raise ValueError
  end.

(** The set [devices] built for one [item] (lines 501-513). *)
Definition expand_item (item : string) : outcome (gset string) :=
  if negb (contains "-" item) then
    fcp_addr ← int16_or_raise item;
    mret ({[ format_04x fcp_addr ]} : gset string)
  else
    match split "-" item with
    | [_min; _max] =>
        _min ← int16_or_raise _min;
        _max ← int16_or_raise _max;
        mret (list_to_set (format_04x <$> py_range _min (_max + 1)) : gset string)
    | _ => Raise ValueError
    end.

(** Truth value of a set: the empty set is false. *)
Definition set_truthy (s : gset string) : bool :=
  negb (bool_decide (s = ∅)).

(** One turn of the inner loop (lines 499-517). *)
Definition expand_step (path_no : nat) (fcp_devices : PyDict.dict (gset string))
    (item : string) : outcome (PyDict.dict (gset string)) :=
  if String.eqb item "" then mret fcp_devices
  else
    devices ← expand_item item;
    match PyDict.get fcp_devices path_no with
    | Some old =>
        if set_truthy old
        then mret (PyDict.set fcp_devices path_no (old ∪ devices))
        else mret (PyDict.set fcp_devices path_no devices)
    | None => mret (PyDict.set fcp_devices path_no devices)
    end.

Fixpoint expand_items (path_no : nat) (fcp_devices : PyDict.dict (gset string))
    (items : list string) : outcome (PyDict.dict (gset string)) :=
  match items with
  | [] => mret fcp_devices
  | item :: rest =>
      fcp_devices ← expand_step path_no fcp_devices item;
      expand_items path_no fcp_devices rest
  end.

(** The outer loop (lines 498-518). *)
Fixpoint expand_ranges (path_no : nat) (fcp_devices : PyDict.dict (gset string))
    (ranges : list string) : outcome (PyDict.dict (gset string)) :=
  match ranges with
  | [] => mret fcp_devices
  | _range :: rest =>
      fcp_devices ← expand_items path_no fcp_devices (split "," _range);
      expand_ranges (path_no + 1) fcp_devices rest
  end.

(** [fcp_list.strip().replace(' ', '')] *)
Definition normalize (fcp_list : string) : string :=
  remove_char " " (strip fcp_list).

(** The grammar check of lines 491-492. *)
Definition grammar_ok (fcp_list : string) : bool :=
  re_match_anchored match_pattern fcp_list
  || re_match_anchored multi_match_pattern fcp_list.

Definition invalid_address (fcp_list : string) : exn :=
  new_exn SDKInternalError ("Invalid FCP address " ++ fcp_list).

(** [FCPManager._expand_fcp_list] *)
Definition _expand_fcp_list (fcp_list : string) : outcome expanded :=
  if negb (truthy fcp_list) then mret EmptySet
  else
    let fcp_list := normalize fcp_list in
    if negb (grammar_ok fcp_list) then Raise (invalid_address fcp_list)
    else PathMapping <$> expand_ranges 0 [] (split ";" fcp_list).

End Expand.


(** ** The FCP device descriptor (class [FCP]) *)

Record FCP : Type := mk_FCP {
  _dev_no : option string;
  _dev_status : option string;
  _npiv_port : option string;
  _chpid : option string;
  _physical_port : option string
}.

Module FCPParse.
Import PyStr.

(** [value if value else None] *)
Definition or_none (s : string) : option string :=
  if truthy s then Some s else None.

Definition _get_wwpn_from_line (info_line : string) : option string :=
  let wwpn := lower (strip (last_field ":" info_line)) in
  if truthy wwpn && negb (String.eqb (upper wwpn) "NONE") then Some wwpn
  else None.

Definition _get_dev_number_from_line (info_line : string) : option string :=
  or_none (lower (strip (last_field ":" info_line))).

Definition _get_dev_status_from_line (info_line : string) : option string :=
  or_none (lower (strip (last_field ":" info_line))).

Definition _get_chpid_from_line (info_line : string) : option string :=
  or_none (upper (strip (last_field ":" info_line))).

(** [FCP.__init__] followed by [FCP._parse]: a list of another length
    than five leaves every field at [None]. *)
Definition parse (init_info : list string) : FCP :=
  match init_info with
  | [l0; l1; l2; l3; l4] =>
      mk_FCP (_get_dev_number_from_line l0) (_get_dev_status_from_line l1)
             (_get_wwpn_from_line l2) (_get_chpid_from_line l3)
             (_get_wwpn_from_line l4)
  | _ => mk_FCP None None None None None
  end.

(** [fcp_info[(5 * n):(5 * (n + 1))]] *)
Definition slice5 (fcp_info : list string) (n : nat) : list string :=
  take 5 (drop (5 * n) fcp_info).

End FCPParse.

(** ** The persisted FCP records (class [FCPDbOperator])

    [zvmsdk/database.py] is not among the sources at hand; its table and
    the operations that [volumeop.py] calls are modelled from the
    specification.

    Modelled from the spec: [zvmsdk/database.py] is missing.  The table
    of FCP records is keyed by the device number; a record holds the
    assigner (nullable), the reserved flag, the connection count and the
    path index (sections 3 and 6 of the specification).  An operation on
    the record of an unknown device raises the not-found error (section 7),
    except [get_from_fcp], which the module expects to return an empty
    list, and [new].  [decrease_usage] raises the same error for a device
    whose count is zero already, as the handler of [_detach] assumes. *)

(** Modelled from the spec: the persisted FCP record of the missing
    [zvmsdk/database.py]; per device address the owning assigner
    (nullable), the connection count (a non-negative integer), the
    reserved flag and the path index. *)
Record fcp_rec : Type := mk_rec {
  assigner_id : option string;
  connections : nat;
  reserved : bool;
  path : nat
}.

Module Db.

Abbreviation table := (gmap string fcp_rec).

(** Modelled from the spec: the not-found error of section 7, which the
    missing store raises for an unknown device record; [_detach] expects
    it as [SDKObjectNotExistError]. *)
Definition not_exist (fcp : string) : exn :=
  new_exn SDKObjectNotExistError ("FCP with id: " ++ fcp).

Definition with_rec {A} (db : table) (fcp : string)
    (k : fcp_rec -> outcome A) : outcome A :=
  match db !! fcp with
  | Some r => k r
  | None => Raise (not_exist fcp)
  end.

Definition set_connections (n : nat) (r : fcp_rec) : fcp_rec :=
  mk_rec (assigner_id r) n (reserved r) (path r).
Definition set_reserved (b : bool) (r : fcp_rec) : fcp_rec :=
  mk_rec (assigner_id r) (connections r) b (path r).
Definition set_path (p : nat) (r : fcp_rec) : fcp_rec :=
  mk_rec (assigner_id r) (connections r) (reserved r) p.
Definition set_assigner (a : option string) (r : fcp_rec) : fcp_rec :=
  mk_rec a (connections r) (reserved r) (path r).

(** Modelled from the spec: [get_all] of the missing store, "list-all";
    the rows come in the order of the table. *)
Definition get_all (db : table) : list (string * fcp_rec) := map_to_list db.

(** Modelled from the spec: [get_from_fcp] of the missing store; for an
    unknown device the empty list, as [_sync_db_fcp_list] notes. *)
Definition get_from_fcp (db : table) (fcp : string) : list (string * fcp_rec) :=
  match db !! fcp with Some r => [(fcp, r)] | None => [] end.

(** Modelled from the spec: [is_reserved] of the missing store,
    "get-reservation-flag". *)
Definition is_reserved (db : table) (fcp : string) : outcome bool :=
  with_rec db fcp (fun r => Ret (reserved r)).

(** Modelled from the spec: [get_connections_from_fcp] of the missing
    store, "get-connection-count". *)
Definition get_connections_from_fcp (db : table) (fcp : string) : outcome nat :=
  with_rec db fcp (fun r => Ret (connections r)).

(** Modelled from the spec: [get_usage_of_fcp] of the missing store, the
    "full usage tuple (assigner, reserved, connections)". *)
Definition get_usage_of_fcp (db : table) (fcp : string)
    : outcome (option string * bool * nat) :=
  with_rec db fcp (fun r => Ret (assigner_id r, reserved r, connections r)).

Definition owned_by (assigner : string) (r : fcp_rec) : bool :=
  bool_decide (assigner_id r = Some assigner).

(** Modelled from the spec: [get_allocated_fcps_from_assigner] of the
    missing store; the devices marked as assigned to the assigner. *)
Definition get_allocated_fcps_from_assigner (db : table) (assigner : string)
    : list (string * fcp_rec) :=
  List.filter (fun kr => owned_by assigner kr.2) (get_all db).

(** Modelled from the spec: [get_reserved_fcps_from_assigner] of the
    missing store; the devices of the assigner that are reserved. *)
Definition get_reserved_fcps_from_assigner (db : table) (assigner : string)
    : list (string * fcp_rec) :=
  List.filter (fun kr => owned_by assigner kr.2 && reserved kr.2) (get_all db).

(** Modelled from the spec: [get_path_count] of the missing store, "count
    distinct paths". *)
Definition get_path_count (db : table) : nat :=
  size (list_to_set (C := gset nat) (path <$> (get_all db).*2)).

(** An update of one record: the new table, or the error with the table
    as it was. *)
Definition update (db : table) (fcp : string) (f : fcp_rec -> fcp_rec)
    : outcome table :=
  with_rec db fcp (fun r => Ret (<[fcp := f r]> db)).

(** Modelled from the spec: [delete] of the missing store, "delete a
    record". *)
Definition delete (db : table) (fcp : string) : outcome table :=
  with_rec db fcp (fun _ => Ret (base.delete fcp db)).

(** Modelled from the spec: [new] of the missing store, "create a new
    record at a path index": a free record, without assigner, connection
    or reservation; a second record for a device is refused. *)
Definition new (db : table) (fcp : string) (path : nat) : outcome table :=
  match db !! fcp with
  | Some _ => Raise (new_exn (PyException "IntegrityError") fcp)
  | None => Ret (<[fcp := mk_rec None 0 false path]> db)
  end.

(** Modelled from the spec: [update_path_of_fcp] of the missing store,
    "update a record's path index". *)
Definition update_path_of_fcp (db : table) (fcp : string) (path : nat) :=
  update db fcp (set_path path).

(** Modelled from the spec: [reserve] of the missing store; sets the
    reserved flag only. *)
Definition reserve (db : table) (fcp : string) := update db fcp (set_reserved true).

(** Modelled from the spec: [unreserve] of the missing store; "clears the
    reserved flag only (does not touch connections)". *)
Definition unreserve (db : table) (fcp : string) := update db fcp (set_reserved false).

(** Modelled from the spec: [assign(fcp, assigner_id, update_connections)]
    of the missing store, "assign-to-assigner (with or without
    incrementing connections)". *)
Definition assign (db : table) (fcp assigner : string) (update_connections : bool) :=
  update db fcp (fun r =>
    let r := set_assigner (Some assigner) r in
    if update_connections then set_connections (S (connections r)) r else r).

(** Modelled from the spec: [increase_usage] of the missing store, the
    increment by device. *)
Definition increase_usage (db : table) (fcp : string) :=
  update db fcp (fun r => set_connections (S (connections r)) r).

(** Modelled from the spec: [increase_usage_by_assigner] of the missing
    store, the increment by device and assigner; a device that is not
    the assigner's has no such record. *)
Definition increase_usage_by_assigner (db : table) (fcp assigner : string) :=
  with_rec db fcp (fun r =>
    if owned_by assigner r
    then Ret (<[fcp := set_connections (S (connections r)) r]> db)
    else Raise (not_exist fcp)).

(** Modelled from the spec: [decrease_usage] of the missing store;
    "decrements and returns the resulting count", and raises the
    not-found error for a device whose count is zero already, which
    [_detach] takes for "already detached". *)
Definition decrease_usage (db : table) (fcp : string) : outcome (nat * table) :=
  with_rec db fcp (fun r =>
    match connections r with
    | O => Raise (not_exist fcp)
    | S n => Ret (n, <[fcp := set_connections n r]> db)
    end).

End Db.

(** ** Collaborators, observable events and the state of the managers *)

(** The volume parameters an attach or detach request carries along. *)
Record volume : Type := mk_volume {
  target_wwpns : list string;
  target_lun : string;
  multipath : bool;
  os_version : string;
  mount_point : string
}.

(** Calls that act on the guest or the host: [smtclient.dedicate_device],
    [smtclient.undedicate_device], [VolumeConfiguratorAPI.config_attach]
    and [config_detach]. *)
Inductive smt_call : Type :=
| dedicate_device (assigner fcp : string)
| undedicate_device (assigner fcp : string)
| config_attach (fcp_list : list string) (assigner : string) (v : volume)
| config_detach (fcp_list : list string) (assigner : string) (v : volume)
    (connections : nat).

(** Calls of the updating methods of the record store. *)
Inductive db_call : Type :=
| db_delete (fcp : string)
| db_new (fcp : string) (path : nat)
| db_update_path_of_fcp (fcp : string) (path : nat)
| db_reserve (fcp : string)
| db_unreserve (fcp : string)
| db_assign (fcp assigner : string) (update_connections : bool)
| db_increase_usage (fcp : string)
| db_increase_usage_by_assigner (fcp assigner : string)
| db_decrease_usage (fcp : string).

Inductive query : Type :=
| get_fcp_info_by_status (userid status : string)
| check_userid_exist (userid : string)
| get_lpar_name.

Inductive event : Type :=
| Smt (c : smt_call)
| DbWrite (c : db_call)
| Asked (q : query)
| LogError (msg : string).

(** The configuration and the behaviour of the collaborators.  An answer
    may depend on everything that happened before (the events so far, the
    most recent first).  The two pairing queries of the store, whose
    selection is store-defined, are taken as they come. *)
Record world : Type := mk_world {
  CONF_volume_fcp_list : string;
  CONF_volume_get_fcp_pair_with_same_index : bool;
  (** [None]: the call succeeds; [Some e]: it raises [e] *)
  smt_result : list event -> smt_call -> option exn;
  fcp_info_by_status : list event -> string -> string -> outcome (list string);
  userid_exist : list event -> string -> bool;
  lpar_name : list event -> string;
  get_fcp_pair_with_same_index : gmap string fcp_rec -> list string;
  get_fcp_pair : gmap string fcp_rec -> list string
}.

Record state : Type := mk_state {
  db : gmap string fcp_rec;
  _fcp_pool : gmap string FCP;
  _fcp_path_mapping : PyDict.dict (gset string);
  trace : list event
}.

Definition set_db (t : gmap string fcp_rec) (s : state) : state :=
  mk_state t (_fcp_pool s) (_fcp_path_mapping s) (trace s).
Definition set_pool (p : gmap string FCP) (s : state) : state :=
  mk_state (db s) p (_fcp_path_mapping s) (trace s).
Definition set_mapping (m : PyDict.dict (gset string)) (s : state) : state :=
  mk_state (db s) (_fcp_pool s) m (trace s).
Definition log (e : event) (s : state) : state :=
  mk_state (db s) (_fcp_pool s) (_fcp_path_mapping s) (e :: trace s).

(** ** A state and exception monad

    A computation runs from a state to an outcome and a state; the state
    reached when an exception is raised is kept, since the handlers of
    [_attach] and [_detach] go on from it. *)

Definition M (A : Type) : Type := state -> outcome A * state.

#[global] Instance M_ret : MRet M := fun A a s => (Ret a, s).
#[global] Instance M_bind : MBind M := fun A B f m s =>
  match m s with
  | (Ret a, s') => f a s'
  | (Raise e, s') => (Raise e, s')
  end.

Definition raise {A} (e : exn) : M A := fun s => (Raise e, s).
Definition gets {A} (f : state -> A) : M A := fun s => (Ret (f s), s).
Definition modify (f : state -> state) : M unit := fun s => (Ret tt, f s).
Definition lift {A} (o : outcome A) : M A := fun s => (o, s).

(** [try: body except <classes in catches> as err: handler err] *)
Definition try_except {A} (body : M A) (catches : exn -> bool)
    (handler : exn -> M A) : M A := fun s =>
  match body s with
  | (Ret a, s') => (Ret a, s')
  | (Raise e, s') => if catches e then handler e s' else (Raise e, s')
  end.

(** Modelled from the spec: [zvmutils.ignore_errors] of the missing
    [zvmsdk/utils.py], the context manager under which a failure of the
    body is suppressed ("best-effort"); it also stands for
    [try: body except Exception: ...] with a handler that only logs. *)
Definition ignore_errors (body : M unit) : M unit :=
  try_except body (fun _ => true) (fun _ => mret tt).

(** [for x in l: body x] *)
Fixpoint for_ {A} (l : list A) (body : A -> M unit) : M unit :=
  match l with
  | [] => mret tt
  | x :: rest => body x ;; for_ rest body
  end.

(** A loop that carries local variables [b] along. *)
Fixpoint for_fold {A B} (l : list A) (b : B) (body : B -> A -> M B) : M B :=
  match l with
  | [] => mret b
  | x :: rest => b' ← body b x; for_fold rest b' body
  end.

Definition emit (e : event) : M unit := modify (log e).
Definition LOG_error (msg : string) : M unit := emit (LogError msg).

Definition db_query {A} (q : gmap string fcp_rec -> outcome A) : M A :=
  fun s => (q (db s), s).

(** An updating call of the store: journalled, then applied. *)
Definition db_exec (c : db_call) (f : gmap string fcp_rec -> outcome (gmap string fcp_rec))
    : M unit := fun s =>
  let s := log (DbWrite c) s in
  match f (db s) with
  | Ret t => (Ret tt, set_db t s)
  | Raise e => (Raise e, s)
  end.

Module DbM.
Definition delete (fcp : string) : M unit :=
  db_exec (db_delete fcp) (fun t => Db.delete t fcp).
Definition new (fcp : string) (path : nat) : M unit :=
  db_exec (db_new fcp path) (fun t => Db.new t fcp path).
Definition update_path_of_fcp (fcp : string) (path : nat) : M unit :=
  db_exec (db_update_path_of_fcp fcp path) (fun t => Db.update_path_of_fcp t fcp path).
Definition reserve (fcp : string) : M unit :=
  db_exec (db_reserve fcp) (fun t => Db.reserve t fcp).
Definition unreserve (fcp : string) : M unit :=
  db_exec (db_unreserve fcp) (fun t => Db.unreserve t fcp).
Definition assign (fcp assigner : string) (update_connections : bool) : M unit :=
  db_exec (db_assign fcp assigner update_connections)
          (fun t => Db.assign t fcp assigner update_connections).
Definition increase_usage (fcp : string) : M unit :=
  db_exec (db_increase_usage fcp) (fun t => Db.increase_usage t fcp).
Definition increase_usage_by_assigner (fcp assigner : string) : M unit :=
  db_exec (db_increase_usage_by_assigner fcp assigner)
          (fun t => Db.increase_usage_by_assigner t fcp assigner).
Definition decrease_usage (fcp : string) : M nat := fun s =>
  let s := log (DbWrite (db_decrease_usage fcp)) s in
  match Db.decrease_usage (db s) fcp with
  | Ret (n, t) => (Ret n, set_db t s)
  | Raise e => (Raise e, s)
  end.
Definition is_reserved (fcp : string) : M bool :=
  db_query (fun t => Db.is_reserved t fcp).
Definition get_connections_from_fcp (fcp : string) : M nat :=
  db_query (fun t => Db.get_connections_from_fcp t fcp).
Definition get_usage_of_fcp (fcp : string) : M (option string * bool * nat) :=
  db_query (fun t => Db.get_usage_of_fcp t fcp).
Definition get_from_fcp (fcp : string) : M (list (string * fcp_rec)) :=
  gets (fun s => Db.get_from_fcp (db s) fcp).
Definition get_all : M (list (string * fcp_rec)) :=
  gets (fun s => Db.get_all (db s)).
End DbM.

(** ** FCPManager *)

Import Expand.

Section Managers.
Variable W : world.

Definition ask_fcp_info (userid status : string) : M (list string) := fun s =>
  (fcp_info_by_status W (trace s) userid status,
   log (Asked (get_fcp_info_by_status userid status)) s).

Definition ask_userid_exist (userid : string) : M bool := fun s =>
  (Ret (userid_exist W (trace s) userid), log (Asked (check_userid_exist userid)) s).

Definition ask_lpar_name : M string := fun s =>
  (Ret (lpar_name W (trace s)), log (Asked get_lpar_name) s).

(** A call of the guest or host collaborator: recorded, then answered. *)
Definition smt (c : smt_call) : M unit := fun s =>
  match smt_result W (trace s) c with
  | None => (Ret tt, log (Smt c) s)
  | Some e => (Raise e, log (Smt c) s)
  end.

Definition _list_fcp_details (userid status : string) : M (list string) :=
  ask_fcp_info userid status.

Definition _get_all_fcp_info (assigner_id : string) : M (list string) :=
  free_fcp_info ← _list_fcp_details assigner_id "free";
  active_fcp_info ← _list_fcp_details assigner_id "active";
  mret (free_fcp_info ++ active_fcp_info)%list.

Definition AttributeError : exn := new_exn (PyException "AttributeError") "".
Definition KeyError (k : string) : exn := new_exn (PyException "KeyError") k.

(** One turn of the loop of [_init_fcp_pool] (lines 432-453). *)
Definition _init_fcp_pool_step (complete_fcp_set : gset string)
    (fcp_info : list string) (n : nat) : M unit :=
  let fcp := FCPParse.parse (FCPParse.slice5 fcp_info n) in
  match _dev_no fcp with
  | Some dev_no =>
      if bool_decide (dev_no ∈ complete_fcp_set)
      then modify (fun s => set_pool (<[dev_no := fcp]> (_fcp_pool s)) s)
      else mret tt
  | None => mret tt
  end.

(** The set returned for the empty list has no [items()]; [init_fcp]
    keeps the empty list away from here. *)
Definition _init_fcp_pool (fcp_list assigner_id : string) : M unit :=
  e ← lift (_expand_fcp_list fcp_list);
  match e with
  | EmptySet => raise AttributeError
  | PathMapping m =>
      modify (set_mapping m);;
      let complete_fcp_set : gset string := ⋃ (PyDict.items m).*2 in
      fcp_info ← _get_all_fcp_info assigner_id;
      let num_fcps := (length fcp_info / 5)%nat in
      for_ (seq 0 num_fcps) (_init_fcp_pool_step complete_fcp_set fcp_info)
  end.

Definition in_pool (s : state) (fcp : string) : bool :=
  bool_decide (PyStr.lower fcp ∈ dom (_fcp_pool s)).

Definition _report_orphan_fcp (fcp : string) : M unit :=
  r ← DbM.is_reserved fcp;
  if negb r then DbM.delete fcp else mret tt.

Definition pool_get (fcp : string) : M FCP := fun s =>
  match _fcp_pool s !! fcp with
  | Some d => (Ret d, s)
  | None => (Raise (KeyError fcp), s)
  end.

Definition _add_fcp (fcp : string) (path : nat) : M unit :=
  ignore_errors (
    d ← pool_get fcp;
    if bool_decide (_dev_status d = Some "free") then DbM.new fcp path
    else mret tt).

(** The body of the second loop of [_sync_db_fcp_list] (lines 556-564). *)
Definition _sync_one (path_no : nat) (fcp : string) : M unit :=
  known ← gets (fun s => in_pool s fcp);
  if known : bool then
    res ← DbM.get_from_fcp fcp;
    match res with
    | [] => _add_fcp fcp path_no
    | (_, r) :: _ =>
        let old_path := path r in
        if negb (Nat.eqb old_path path_no) then DbM.update_path_of_fcp fcp path_no
        else mret tt
    end
  else mret tt.

Definition _sync_db_fcp_list : M unit :=
  fcp_db_list ← DbM.get_all;
  for_ fcp_db_list (fun fcp_rec =>
    known ← gets (fun s => in_pool s fcp_rec.1);
    if negb known then _report_orphan_fcp fcp_rec.1 else mret tt);;
  mapping ← gets _fcp_path_mapping;
  for_ (PyDict.items mapping) (fun '(path_no, fcp_list) =>
    for_ (elements fcp_list) (_sync_one path_no)).

Definition init_fcp (assigner_id : string) : M unit :=
  let fcp_list := CONF_volume_fcp_list W in
  if String.eqb fcp_list "" then mret tt
  else _init_fcp_pool fcp_list assigner_id;; _sync_db_fcp_list.

Definition increase_fcp_usage (fcp assigner_id : string) : M bool :=
  connections ← DbM.get_connections_from_fcp fcp;
  if (connections =? 0)%nat then
    DbM.assign fcp assigner_id true;; mret true
  else
    DbM.increase_usage fcp;; mret false.

Definition add_fcp_for_assigner (fcp assigner_id : string) : M bool :=
  connections ← DbM.get_connections_from_fcp fcp;
  if (connections =? 0)%nat then
    DbM.assign fcp assigner_id true;; mret true
  else
    DbM.increase_usage_by_assigner fcp assigner_id;; mret false.

Definition decrease_fcp_usage (fcp assigner_id : string) : M nat :=
  DbM.decrease_usage fcp.

Definition unreserve_fcp (fcp assigner_id : string) : M unit :=
  DbM.unreserve fcp.

(** [FCPManager.is_reserved]: the answer of the store is dropped and the
    method returns [None]. *)
Definition is_reserved (fcp : string) : M (option bool) :=
  DbM.is_reserved fcp;; mret None.

Definition get_available_fcp (assigner_id : string) (reserve : bool)
    : M (list string) :=
  if negb reserve then
    fcp_list ← gets (fun s => Db.get_reserved_fcps_from_assigner (db s) assigner_id);
    mret (fcp_list.*1)
  else
    fcp_list ← gets (fun s => Db.get_allocated_fcps_from_assigner (db s) assigner_id);
    match fcp_list with
    | [] =>
        free_unreserved ← gets (fun s =>
          if CONF_volume_get_fcp_pair_with_same_index W
          then get_fcp_pair_with_same_index W (db s)
          else get_fcp_pair W (db s));
        for_fold free_unreserved [] (fun available_list item =>
          DbM.assign item assigner_id false;; mret (available_list ++ [item])%list)
    | _ =>
        (* the path count is read for a warning only *)
        path_count ← gets (fun s => Db.get_path_count (db s));
        mret (fcp_list.*1)
    end.

Definition opt_truthy (o : option string) : bool :=
  match o with Some s => PyStr.truthy s | None => false end.

(** The body that [get_wwpn] and [get_wwpn_for_fcp_not_in_conf] share,
    from the result of the [get] on the pool. *)
Definition wwpn_of (fcp : option FCP) : option string :=
  match fcp with
  | None => None
  | Some fcp =>
      let npiv := _npiv_port fcp in
      let physical := _physical_port fcp in
      if opt_truthy npiv then npiv
      else if opt_truthy physical then physical
      else None
  end.

Definition get_wwpn (fcp_no : string) : M (option string) :=
  gets (fun s => wwpn_of (_fcp_pool s !! fcp_no)).

Definition get_wwpn_for_fcp_not_in_conf (all_fcp_pool : gmap (option string) FCP)
    (fcp_no : string) : option string :=
  wwpn_of (all_fcp_pool !! Some fcp_no).

Definition get_all_fcp_pool (assigner_id : string) : M (gmap (option string) FCP) :=
  all_fcp_info ← _get_all_fcp_info assigner_id;
  let num_fcps := (length all_fcp_info / 5)%nat in
  mret (foldl (fun all_fcp_pool n =>
                 let fcp := FCPParse.parse (FCPParse.slice5 all_fcp_info n) in
                 <[_dev_no fcp := fcp]> all_fcp_pool)
              ∅ (seq 0 num_fcps)).

Definition get_physical_wwpn (fcp_no : string) : M (option string) :=
  gets (fun s => match _fcp_pool s !! fcp_no with
                 | None => None
                 | Some fcp => _physical_port fcp
                 end).

End Managers.

(** ** FCPVolumeManager *)

Record connector : Type := mk_connector {
  zvm_fcp : list string;
  wwpns : list string;
  phy_to_virt_initiators : gmap (option string) (option string);
  host : string
}.

Definition empty_connector : connector := mk_connector [] [] ∅ "".

(** The [connection_info] of [attach] and [detach]. *)
Record connection_info : Type := mk_connection_info {
  ci_zvm_fcp : list string;
  ci_target_wwpn : list string;
  ci_target_lun : string;
  ci_assigner_id : string;
  ci_multipath : string;
  ci_os_version : string;
  ci_mount_point : string;
  ci_is_root_volume : bool;
  ci_update_connections_only : bool
}.

Section VolumeManager.
Variable W : world.

Definition _dedicate_fcp (fcp assigner_id : string) : M unit :=
  smt W (dedicate_device assigner_id fcp).

Definition _undedicate_fcp (fcp assigner_id : string) : M unit :=
  smt W (undedicate_device assigner_id fcp).

Definition _add_disks (fcp_list : list string) (assigner_id : string)
    (v : volume) : M unit :=
  smt W (config_attach fcp_list assigner_id v).

Definition _remove_disks (fcp_list : list string) (assigner_id : string)
    (v : volume) (connections : nat) : M unit :=
  smt W (config_detach fcp_list assigner_id v connections).

Definition get_fcp_usage (fcp : string) : M (option string * bool * nat) :=
  DbM.get_usage_of_fcp fcp.

(** [all_fcp_list] is a list or [None]. *)
Definition _rollback_dedicated_fcp (fcp_list : list string) (assigner_id : string)
    (all_fcp_list : option (list string)) : M unit :=
  for_ fcp_list (fun fcp =>
    ignore_errors (
      connections ← decrease_fcp_usage fcp assigner_id;
      if (connections =? 0)%nat then _undedicate_fcp fcp assigner_id
      else mret tt));;
  match all_fcp_list with
  | None | Some [] => mret tt
  | Some all_fcp_list =>
      for_ all_fcp_list (fun fcp =>
        connections ← DbM.get_connections_from_fcp fcp;
        if (connections =? 0)%nat then DbM.unreserve fcp else mret tt)
  end.

(** Lines 815-822 of [_attach]: the pool is initialised and the usage of
    every device is registered; [fcp_status] is the result. *)
Definition attach_register (fcp_list : list string) (assigner_id : string)
    : M (gmap string bool) :=
  init_fcp W assigner_id;;
  for_fold fcp_list (∅ : gmap string bool) (fun fcp_status fcp =>
    new ← add_fcp_for_assigner fcp assigner_id;
    mret (<[fcp := new]> fcp_status)).

(** The body of the [try] of [_attach] (lines 834-848). *)
Definition attach_dedicate_and_configure (fcp_status : gmap string bool)
    (fcp_list : list string) (assigner_id : string) (v : volume) : M unit :=
  for_ fcp_list (fun fcp =>
    match fcp_status !! fcp with
    | Some true => _dedicate_fcp fcp assigner_id
    | Some false => mret tt
    | None => raise (KeyError fcp)
    end);;
  _add_disks fcp_list assigner_id v.

Definition attach_errmsg (err : exn) : string :=
  "Dedicate FCP devices failed with error:" ++ exn_message err.

(** The handler of the [try] of [_attach] (lines 849-855). *)
Definition attach_handler (fcp_list : list string) (assigner_id : string)
    (err : exn) : M unit :=
  let errmsg := attach_errmsg err in
  LOG_error errmsg;;
  _rollback_dedicated_fcp fcp_list assigner_id (Some fcp_list);;
  raise (new_exn SDKBaseException errmsg).

(** [_attach] returns the empty list for a root volume and nothing
    ([None]) otherwise. *)
Definition _attach (fcp_list : list string) (assigner_id : string) (v : volume)
    (path_count : nat) (is_root_volume : bool) : M (option (list string)) :=
  fcp_status ← attach_register fcp_list assigner_id;
  if is_root_volume then mret (Some [])
  else
    try_except
      (attach_dedicate_and_configure fcp_status fcp_list assigner_id v)
      is_SDKBaseException
      (attach_handler fcp_list assigner_id);;
    mret None.

Definition multipath_flag (s : string) : bool :=
  String.eqb (PyStr.lower s) "true".

Definition volume_of (ci : connection_info) : volume :=
  mk_volume (PyStr.lower <$> ci_target_wwpn ci) (ci_target_lun ci)
            (multipath_flag (ci_multipath ci)) (ci_os_version ci)
            (ci_mount_point ci).

Definition attach_checked (ci : connection_info) (assigner_id : string) : M unit :=
  let path_count := length (ci_zvm_fcp ci) in
  let fcp_list := PyStr.lower <$> ci_zvm_fcp ci in
  _attach fcp_list assigner_id (volume_of ci) path_count (ci_is_root_volume ci);;
  mret tt.

Definition attach (ci : connection_info) : M unit :=
  let assigner_id := PyStr.upper (ci_assigner_id ci) in
  if ci_is_root_volume ci then attach_checked ci assigner_id
  else
    exist ← ask_userid_exist W assigner_id;
    if negb exist then
      LOG_error ("User directory '" ++ assigner_id ++ "' does not exist.");;
      raise (new_exn SDKObjectNotExistError ("Guest '" ++ assigner_id ++ "'"))
    else attach_checked ci assigner_id.

(** The local variables of the first loop of [_detach]; [connections]
    is unbound before the first turn. *)
Record detach_vars : Type := mk_detach_vars {
  fcp_connections : gmap string nat;
  need_rollback : gmap string bool;
  last_connections : option nat
}.

Definition is_not_exist (e : exn) : bool :=
  match exn_cls e with SDKObjectNotExistError => true | _ => false end.

(** One turn of the first loop of [_detach] (lines 938-951). *)
Definition detach_decrease_one (assigner_id : string) (vars : detach_vars)
    (fcp : string) : M detach_vars :=
  let need_rollback := <[fcp := true]> (need_rollback vars) in
  r ← try_except
        (connections ← decrease_fcp_usage fcp assigner_id;
         mret (connections, need_rollback))
        is_not_exist
        (fun _ => mret (O, <[fcp := false]> need_rollback));
  mret (mk_detach_vars (<[fcp := r.1]> (fcp_connections vars)) r.2 (Some r.1)).

Definition detach_decrease (fcp_list : list string) (assigner_id : string)
    : M detach_vars :=
  for_fold fcp_list (mk_detach_vars ∅ ∅ None) (detach_decrease_one assigner_id).

Definition UnboundLocalError : exn :=
  new_exn (PyException "UnboundLocalError") "connections".

(** The body of the [try] of [_detach] (lines 975-986). *)
Definition detach_remove_and_undedicate (vars : detach_vars)
    (fcp_list : list string) (assigner_id : string) (v : volume) : M unit :=
  match last_connections vars with
  | None => raise UnboundLocalError
  | Some connections => _remove_disks fcp_list assigner_id v connections
  end;;
  for_ fcp_list (fun fcp =>
    if (default O (fcp_connections vars !! fcp) =? 0)%nat
    then _undedicate_fcp fcp assigner_id
    else mret tt).

(** The test of line 991: [rc == 404 or rc == 204 and rs == 8]. *)
Definition already_undedicated (rc rs : Z) : bool :=
  (rc =? 404)%Z || ((rc =? 204)%Z && (rs =? 8)%Z).

Definition detach_errmsg (err : exn) : string :=
  "detach failed with error:" ++ exn_message err.

(** The rollback of the usage counts (lines 997-1007). *)
Definition detach_rollback_usage (vars : detach_vars) (fcp_list : list string)
    (assigner_id : string) : M unit :=
  for_ fcp_list (fun fcp =>
    if default true (need_rollback vars !! fcp) then
      increase_fcp_usage fcp assigner_id;;
      get_fcp_usage fcp;;
      mret tt
    else mret tt).

(** [err.results['rc']] for an [err] whose [results] are [None]. *)
Definition NoneType_not_subscriptable : exn :=
  new_exn (PyException "TypeError") "'NoneType' object is not subscriptable".

(** The handler of the [try] of [_detach] (lines 987-1012): the results
    of the error are indexed first (lines 989-990), which fails for an
    error without results. *)
Definition detach_handler (vars : detach_vars) (fcp_list : list string)
    (assigner_id : string) (v : volume) (err : exn) : M unit :=
  match exn_results err with
  | None => raise NoneType_not_subscriptable
  | Some (rc, rs) =>
      if already_undedicated rc rs then mret tt
      else
        let errmsg := detach_errmsg err in
        LOG_error errmsg;;
        detach_rollback_usage vars fcp_list assigner_id;;
        ignore_errors (_add_disks fcp_list assigner_id v);;
        raise (new_exn SDKBaseException errmsg)
  end.

Definition is_SDKSMTRequestFailed (e : exn) : bool :=
  match exn_cls e with SDKSMTRequestFailed => true | _ => false end.

Definition _detach (fcp_list : list string) (assigner_id : string) (v : volume)
    (is_root_volume update_connections_only : bool) : M unit :=
  vars ← detach_decrease fcp_list assigner_id;
  if is_root_volume || update_connections_only then mret tt
  else
    exist ← ask_userid_exist W assigner_id;
    if negb exist then mret tt
    else
      try_except
        (detach_remove_and_undedicate vars fcp_list assigner_id v)
        (fun e => is_SDKBaseException e || is_SDKSMTRequestFailed e)
        (detach_handler vars fcp_list assigner_id v).

Definition detach (ci : connection_info) : M unit :=
  let assigner_id := PyStr.upper (ci_assigner_id ci) in
  let fcp_list := PyStr.lower <$> ci_zvm_fcp ci in
  _detach fcp_list assigner_id (volume_of ci)
          (ci_is_root_volume ci) (ci_update_connections_only ci).

(** The local variables of the loop of [get_volume_connector] that
    collects the WWPNs (lines 1077-1101). *)
Record wwpn_vars : Type := mk_wwpn_vars {
  vars_wwpns : list string;
  phy_virt_wwpn_map : gmap (option string) (option string);
  all_fcp_pool : gmap (option string) FCP
}.

Definition no_wwpn_msg (fcp_no : string) : string :=
  "FCP device " ++ fcp_no ++ " has no available WWPN.".

(** One turn of that loop (lines 1083-1101). *)
Definition collect_wwpn (assigner_id : string) (vars : wwpn_vars)
    (fcp_no : string) : M wwpn_vars :=
  in_conf ← gets (fun s => _fcp_pool s !! fcp_no);
  r ← match in_conf with
      | Some _ =>
          wwpn ← get_wwpn fcp_no;
          mret (wwpn, all_fcp_pool vars)
      | None =>
          pool ← (if bool_decide (all_fcp_pool vars = ∅)
                  then get_all_fcp_pool W assigner_id
                  else mret (all_fcp_pool vars));
          mret (get_wwpn_for_fcp_not_in_conf pool fcp_no, pool)
      end;
  let wwpn : option string := r.1 in
  wwpns ← match wwpn with
          | Some w =>
              if PyStr.truthy w then mret (vars_wwpns vars ++ [w])%list
              else LOG_error (no_wwpn_msg fcp_no);; mret (vars_wwpns vars)
          | None => LOG_error (no_wwpn_msg fcp_no);; mret (vars_wwpns vars)
          end;
  physical ← get_physical_wwpn fcp_no;
  mret (mk_wwpn_vars wwpns (<[wwpn := physical]> (phy_virt_wwpn_map vars)) r.2).

(** One turn of the last loop of [get_volume_connector] (lines 1109-1128). *)
Definition reserve_or_unreserve (reserve : bool) (fcp_no : string) : M unit :=
  if reserve then
    DbM.reserve fcp_no;;
    get_fcp_usage fcp_no;;
    mret tt
  else
    connections ← DbM.get_connections_from_fcp fcp_no;
    if (connections =? 0)%nat then
      DbM.unreserve fcp_no;;
      get_fcp_usage fcp_no;;
      mret tt
    else mret tt.

Definition get_volume_connector (assigner_id : string) (reserve : bool)
    : M connector :=
  zvm_host ← ask_lpar_name W;
  if String.eqb zvm_host "" then
    let errmsg := "failed to get zvm host." in
    LOG_error errmsg;;
    raise (mk_exn SDKVolumeOperationError 0 11 errmsg)
  else
    init_fcp W assigner_id;;
    fcp_list ← get_available_fcp W assigner_id reserve;
    match fcp_list with
    | [] => LOG_error "No available FCP device found.";; mret empty_connector
    | _ =>
        vars ← for_fold fcp_list (mk_wwpn_vars [] ∅ ∅) (collect_wwpn assigner_id);
        match vars_wwpns vars with
        | [] => LOG_error "No available WWPN found.";; mret empty_connector
        | wwpns =>
            for_ fcp_list (reserve_or_unreserve reserve);;
            mret (mk_connector fcp_list wwpns (phy_virt_wwpn_map vars) zvm_host)
        end
    end.

End VolumeManager.

(** ** Auxiliary notions for the statements *)

Module PathSets.
Import PyStr.

(** The device numbers one item of the list stands for: nothing for an
    empty or ill-formed item. *)
Definition item_set (item : string) : gset string :=
  match expand_item item with
  | Ret devices => devices
  | Raise _ => ∅
  end.

(** The device numbers one [;]-separated segment stands for. *)
Definition segment_set (_range : string) : gset string :=
  ⋃ (item_set <$> split "," _range).

Definition all_empty (items : list string) : bool :=
  forallb (fun item => String.eqb item "") items.

End PathSets.

(** ** The language of a pattern *)

Module Lang.
Import PyStr Hex Regex.

Inductive lang : regex -> string -> Prop :=
| lang_Eps : lang Eps ""
| lang_Class p c : p c = true -> lang (Class p) (String c "")
| lang_Cat r1 r2 s1 s2 : lang r1 s1 -> lang r2 s2 -> lang (Cat r1 r2) (s1 ++ s2)
| lang_Alt_l r1 r2 s : lang r1 s -> lang (Alt r1 r2) s
| lang_Alt_r r1 r2 s : lang r2 s -> lang (Alt r1 r2) s
| lang_Star_nil r : lang (Star r) ""
| lang_Star_cons r s1 s2 :
    lang r s1 -> lang (Star r) s2 -> lang (Star r) (s1 ++ s2).

(** A word of one to four hexadecimal digits. *)
Definition hex_word (s : string) : Prop :=
  s <> "" /\ forall c, contains c s = true -> is_hex c = true.

(** An item of the list: a hexadecimal word, or two of them around a
    dash. *)
Definition range_item (s : string) : Prop :=
  hex_word s \/ exists a b, s = a ++ String "-" b /\ hex_word a /\ hex_word b.

(** An item that the inner loop of the expansion takes: the empty one,
    which it skips, or a range item. *)
Definition item_ok (item : string) : Prop := item = "" \/ range_item item.

(** A segment whose items the inner loop takes. *)
Definition segment_ok (_range : string) : Prop := Forall item_ok (split "," _range).

Fixpoint last_char (s : string) : option ascii :=
  match s with
  | EmptyString => None
  | String c EmptyString => Some c
  | String _ t => last_char t
  end.

End Lang.

(** The claim C6 as it is written: every string outside the anchored
    grammar raises. *)
Definition rejects_every_unmatched_string : Prop :=
  forall s : string, grammar_ok s = false -> exists e, _expand_fcp_list s = Raise e.

(** The claim C4 as it is written: the sets of distinct paths are disjoint
    for every accepted string. *)
Definition paths_always_disjoint : Prop :=
  forall (fcp_list : string) (m : PyDict.dict (gset string)),
    _expand_fcp_list fcp_list = Ret (PathMapping m) ->
    forall (p q : nat) (S T : gset string),
      p <> q -> PyDict.get m p = Some S -> PyDict.get m q = Some T -> S ## T.

(** The events a computation adds to the trace all satisfy [P], from
    whatever state it is run. *)
Definition emits_only {A} (P : event -> Prop) (m : M A) : Prop :=
  forall s, exists new, trace (m s).2 = (new ++ trace s)%list /\ Forall P new.

(** Not a call that acts on the guest or the host (dedicate, undedicate,
    configure, deconfigure). *)
Definition no_guest_action (e : event) : Prop :=
  match e with Smt _ => False | _ => True end.

(** A decrement of the usage of one of the devices of [fcp_list]. *)
Definition usage_decrement_of (fcp_list : list string) (e : event) : Prop :=
  exists fcp, e = DbWrite (db_decrease_usage fcp) /\ fcp ∈ fcp_list.

(** The number of times a device occurs in a request. *)
Fixpoint occ (fcp : string) (l : list string) : nat :=
  match l with
  | [] => O
  | x :: l' => ((if String.eqb x fcp then 1 else 0) + occ fcp l')%nat
  end.

(** The connection count the store holds for a device: zero without a
    record. *)
Definition conn (t : gmap string fcp_rec) (fcp : string) : nat :=
  default O (connections <$> t !! fcp).

(** A record with its connection count lowered by [k], not below zero. *)
Definition lowered (k : nat) (r : fcp_rec) : fcp_rec :=
  Db.set_connections (connections r - k) r.

(** A record with its connection count raised by [k]. *)
Definition raised (k : nat) (r : fcp_rec) : fcp_rec :=
  Db.set_connections (connections r + k) r.

(** ** A small installation, for the statements evaluated on it

    One path with the device [1a00], which has both WWPNs, and the device
    [1a01], which has none; a second path with the device [1b00], which
    has a physical WWPN only.  The guest configuration fails, everything
    else succeeds. *)

Module Example.

Definition fcp_lines (dev status npiv phys : string) : list string :=
  [ "opnstk1: FCP device number: " ++ dev;
    "opnstk1:   Status: " ++ status;
    "opnstk1:   NPIV world wide port number: " ++ npiv;
    "opnstk1:   Channel path ID: 59";
    "opnstk1:   Physical world wide port number: " ++ phys ].

Definition inventory (status : string) : list string :=
  if String.eqb status "free" then
    (fcp_lines "1A00" "Free" "C05076DE33000111" "20076D8500005181"
     ++ fcp_lines "1A01" "Free" "NONE" "NONE"
     ++ fcp_lines "1B00" "Free" "NONE" "20076D8500005182")%list
  else [].

Definition configure_fails : exn :=
  mk_exn SDKVolumeOperationError 300 8 "attach script execution failed".

Definition installation : world :=
  mk_world "1a00-1a01;1b00" true
    (fun _ c => match c with
                | config_attach _ _ _ => Some configure_fails
                | _ => None
                end)
    (fun _ _ status => Ret (inventory status))
    (fun _ _ => true)
    (fun _ => "LPAR1")
    (fun _ => ["1a00"; "1b00"])
    (fun _ => ["1a00"; "1b00"]).

Definition some_volume : volume :=
  mk_volume ["5005076802100c1b"] "0000000000000000" false "rhel7" "/dev/sdz".

(** The store holds the device [1a00], reserved for a guest and not yet
    connected. *)
Definition reserved_idle : state :=
  mk_state {[ "1a00" := mk_rec (Some "VM1") 0 true 0 ]} ∅ [] [].

(** The state of the example after the pool was initialised. *)
Definition pooled : state := (init_fcp installation "VM1" reserved_idle).2.

(** A configuration that names the device [1a00] on two paths, and the
    state of the managers once the pool is initialised from it. *)
Definition two_paths_one_device : world :=
  mk_world "1a00;1a00" true (fun _ _ => None)
    (fun _ _ status => Ret (inventory status))
    (fun _ _ => true) (fun _ => "LPAR1") (fun _ => []) (fun _ => []).

Definition overlapping : state :=
  (_init_fcp_pool two_paths_one_device "1a00;1a00" "VM1" (mk_state ∅ ∅ [] [])).2.



(** The store holds the device [1a00] with one connection. *)
Definition connected : state :=
  mk_state {[ "1a00" := mk_rec (Some "VM1") 1 true 0 ]} ∅ [] [].

(** The state of the example once the pool is initialised and before the
    store is synchronised. *)
Definition unsynced : state :=
  (_init_fcp_pool installation "1a00-1a01;1b00" "VM1" reserved_idle).2.

End Example.

(** The computation leaves the store and the pool as they are. *)
Definition keeps_store {A} (m : M A) : Prop :=
  forall s, db (m s).2 = db s
            /\ _fcp_pool (m s).2 = _fcp_pool s
            /\ _fcp_path_mapping (m s).2 = _fcp_path_mapping s.



(** The computation leaves the store as it is. *)
Definition keeps_db {A} (m : M A) : Prop := forall s, db (m s).2 = db s.

(** A record that [_report_orphan_fcp] deletes: the device is not in the
    pool and its record is not reserved. *)
Definition unreserved_orphan (s : state) (fcp : string) : bool :=
  negb (in_pool s fcp)
  && match db s !! fcp with
     | Some r => negb (reserved r)
     | None => false
     end.

(** The device [fcp] of path [path_no] needs nothing from the second loop
    of [_sync_db_fcp_list]: it is not in the pool, or its record has this
    path already, or it has no record and is not free in the pool. *)
Definition settled (s : state) (path_no : nat) (fcp : string) : Prop :=
  in_pool s fcp = true ->
  match db s !! fcp with
  | Some r => path r = path_no
  | None =>
      match _fcp_pool s !! fcp with
      | Some d => _dev_status d <> Some "free"
      | None => True
      end
  end.

(** The turns of the second loop of [_sync_db_fcp_list], in their order. *)
Definition sync_turns (mapping : PyDict.dict (gset string)) : list (nat * string) :=
  mapping ≫= (fun '(path_no, fcp_list) => (fun fcp => (path_no, fcp)) <$> elements fcp_list).

(** No device is on two paths of the mapping. *)
Definition paths_disjoint (mapping : PyDict.dict (gset string)) : Prop :=
  forall (i j : nat) (p q : nat) (S T : gset string),
    i <> j -> mapping !! i = Some (p, S) -> mapping !! j = Some (q, T) -> S ## T.

(** The claim C3 as it is written: a second run of the synchronisation
    right after a first one calls no updating method of the store. *)
Definition second_sync_never_writes : Prop :=
  forall (s s1 s2 : state) (o1 o2 : outcome unit),
    _sync_db_fcp_list s = (o1, s1) ->
    _sync_db_fcp_list s1 = (o2, s2) ->
    trace s2 = trace s1.

(** The claim C1 as it is written: after an attach that failed at the
    dedicate or the configure step the error of that step is raised, and
    every device of the request has the count and the flag it had before
    the attach. *)
Definition rollback_restores_all : Prop :=
  forall (W : world) (fcp_list : list string) (assigner : string) (v : volume)
    (path_count : nat) (s0 s1 s2 s3 : state) (status : gmap string bool)
    (err e : exn),
    attach_register W fcp_list assigner s0 = (Ret status, s1) ->
    attach_dedicate_and_configure W status fcp_list assigner v s1 = (Raise err, s2) ->
    is_SDKBaseException err = true ->
    _attach W fcp_list assigner v path_count false s0 = (Raise e, s3) ->
    e = err
    /\ forall f r0 r3, f ∈ fcp_list ->
         db s0 !! f = Some r0 -> db s3 !! f = Some r3 ->
         connections r3 = connections r0 /\ reserved r3 = reserved r0.

(** ** What a list of devices is written to stand for

    The reading of the docstring of [_expand_fcp_list]: a list "is
    composed of fcp device addresses, range indicator '-', and split
    indicator ';'".  It is read off the string, without the loops of the
    expansion. *)

Module Denote.

(** The item stands for the address [n]: it is the hexadecimal literal
    of [n], or two literals around a dash with [n] from the first up to
    and including the second. *)
Definition item_holds (item : string) (n : N) : Prop :=
  Hex.int16 item = Some n
  \/ exists (a b : string) (x y : N),
       item = a ++ "-" ++ b
       /\ Hex.int16 a = Some x /\ Hex.int16 b = Some y /\ x <= n <= y.

(** The segment, a list of items between commas, stands for the address
    [n]. *)
Definition segment_holds (_range : string) (n : N) : Prop :=
  exists item, item ∈ PyStr.split "," _range /\ item_holds item n.

End Denote.

(** ** Device numbers in canonical form *)

Module Canon.

(** A character of the lowercase hexadecimal alphabet. *)
Definition is_lower_hex (c : ascii) : bool :=
  let n := PyStr.code c in
  ((48 <=? n) && (n <=? 57)) || ((97 <=? n) && (n <=? 102)).

(** A device number in canonical form: four lowercase hexadecimal
    digits. *)
Definition canonical (d : string) : Prop :=
  String.length d = 4%nat
  /\ forall c, PyStr.contains c d = true -> is_lower_hex c = true.

(** A word of at most four characters. *)
Definition short (s : string) : Prop := (String.length s <= 4)%nat.

(** An item whose words around the dash are short. *)
Definition short_item (item : string) : Prop :=
  Forall short (PyStr.split "-" item).

(** A segment whose items are made of short words. *)
Definition short_segment (_range : string) : Prop :=
  Forall short_item (PyStr.split "," _range).

(** The first character of a string, if it has one, is not white space. *)
Definition starts_clean (s : string) : Prop :=
  match s with String c _ => PyStr.is_space c = false | EmptyString => True end.

End Canon.

(** ** Further notions for the statements on [attach] and [detach] *)

(** Not a question about the existence of a guest. *)
Definition no_existence_check (e : event) : Prop :=
  match e with Asked (check_userid_exist _) => False | _ => True end.

(** The request with its identifiers in the case [attach] and [detach]
    work with: the devices, the WWPNs and the multipath flag in lower
    case, the assigner in upper case. *)
Definition case_folded (ci : connection_info) : connection_info :=
  mk_connection_info (PyStr.lower <$> ci_zvm_fcp ci)
    (PyStr.lower <$> ci_target_wwpn ci) (ci_target_lun ci)
    (PyStr.upper (ci_assigner_id ci)) (PyStr.lower (ci_multipath ci))
    (ci_os_version ci) (ci_mount_point ci) (ci_is_root_volume ci)
    (ci_update_connections_only ci).

(** ** The queries of [FCPVolumeManager] on the records *)

(** [FCPVolumeManager.check_fcp_exist_in_db] *)
Definition check_fcp_exist_in_db (fcp : string) (raise_exec : bool) : M bool :=
  all_fcps_raw ← DbM.get_all;
  let all_fcps :=
    (fun item : string * fcp_rec => PyStr.lower item.1) <$> all_fcps_raw in
  if negb (bool_decide (fcp ∈ all_fcps)) then
    if raise_exec then
      LOG_error ("fcp " ++ fcp ++ " not exist in db!");;
      raise (new_exn SDKObjectNotExistError ("FCP '" ++ fcp ++ "'"))
    else mret false
  else mret true.

(** A row of the table of FCP records as the store returns it, the
    device number first:
    [(fcp_id, userid, reserved, connections, path)]. *)
Definition row : Type := string * fcp_rec.

Section UsageQueries.
(** [db.get_all_fcps_of_assigner] is a query of the store, which is not
    among the sources at hand: its answer, a list of rows or an
    exception, is left open. *)
Variable get_all_fcps_of_assigner :
  gmap string fcp_rec -> option string -> outcome (list row).

(** [FCPVolumeManager.get_all_fcp_usage] *)
Definition get_all_fcp_usage (assigner_id : option string) : M (gmap string row) :=
  ret ← db_query (fun t => get_all_fcps_of_assigner t assigner_id);
  mret (foldl (fun fcp_id_mapping (item : row) =>
                 let fcp_id := item.1 in
                 <[fcp_id := item]> fcp_id_mapping)
              ∅ ret).

(** [FCPVolumeManager.get_all_fcp_usage_grouped_by_path] *)
Definition get_all_fcp_usage_grouped_by_path (assigner_id : option string)
    : M (gmap nat (list row)) :=
  ret ← db_query (fun t => get_all_fcps_of_assigner t assigner_id);
  mret (foldl (fun path_fcp_mapping (item : row) =>
                 let path_id := path item.2 in
                 let path_fcp_mapping :=
                   match path_fcp_mapping !! path_id with
                   | Some (_ :: _) => path_fcp_mapping
                   | _ => <[path_id := []]> path_fcp_mapping
                   end in
                 <[path_id := (default [] (path_fcp_mapping !! path_id) ++ [item])%list]>
                   path_fcp_mapping)
              ∅ ret).
End UsageQueries.

(** ** VolumeConfiguratorAPI

    The configuration of a volume on the guest: the script of the Linux
    distribution is written to a file and punched to the guest, and when
    the guest answers over IUCV the script is run by restarting
    [zvmguestconfigure].  The distribution manager, the SMT client and the
    file system are collaborators: their calls are recorded in the order
    they are made, and their answers are left open. *)

Module Configurator.

(** [s.startswith(p)] *)
Fixpoint starts_with (p s : string) : bool :=
  match p, s with
  | EmptyString, _ => true
  | String a p', String b s' => Ascii.eqb a b && starts_with p' s'
  | String _ _, EmptyString => false
  end.

(** [p in s] for strings. *)
Fixpoint has_substring (p s : string) : bool :=
  starts_with p s
  || match s with
     | EmptyString => false
     | String _ t => has_substring p t
     end.

(** [sep.join(l)] *)
Fixpoint join (sep : string) (l : list string) : string :=
  match l with
  | [] => ""
  | [x] => x
  | x :: rest => x ++ sep ++ join sep rest
  end.

Definition starts_with_slash (s : string) : bool :=
  match s with String c _ => Ascii.eqb c "/" | EmptyString => false end.

Fixpoint ends_with_slash (s : string) : bool :=
  match s with
  | EmptyString => false
  | String c EmptyString => Ascii.eqb c "/"
  | String _ t => ends_with_slash t
  end.

(** [os.path.join(a, b)] *)
Definition path_join (a b : string) : string :=
  if starts_with_slash b then b
  else if negb (PyStr.truthy a) || ends_with_slash a then a ++ b
  else a ++ "/" ++ b.

Definition is_digit (c : ascii) : bool :=
  let n := PyStr.code c in (48 <=? n) && (n <=? 57).

(** The longest prefix of decimal digits. *)
Fixpoint take_digits (s : string) : string :=
  match s with
  | String c t => if is_digit c then String c (take_digits t) else EmptyString
  | EmptyString => EmptyString
  end.

Fixpoint drop_chars (n : nat) (s : string) : string :=
  match n, s with
  | S n', String _ t => drop_chars n' t
  | _, _ => s
  end.

(** A match of ['(?<=status=)([0-9]+)'] right behind a ["status="] that
    starts the string: its group. *)
Definition status_here (s : string) : option string :=
  if starts_with "status=" s then
    match take_digits (drop_chars 7 s) with
    | EmptyString => None
    | group => Some group
    end
  else None.

(** [re.search('(?<=status=)([0-9]+)', line)]: the group of the leftmost
    match, [None] without a match. *)
Fixpoint search_status (line : string) : option string :=
  match status_here line with
  | Some group => Some group
  | None =>
      match line with
      | EmptyString => None
      | String _ t => search_status t
      end
  end.

Fixpoint int10_acc (acc : N) (s : string) : N :=
  match s with
  | EmptyString => acc
  | String c t => int10_acc (10 * acc + (PyStr.code c - 48)) t
  end.

(** [int(s)] on a string of decimal digits. *)
Definition int10 (s : string) : N := int10_acc 0 s.

(** The texts of the errors, each with the values that are formatted
    into it. *)
Inductive message : Type :=
| iucv_unauthorized (vm err : string)
| attach_volume_did_not_show_up (target_wwpns : list string)
    (target_lun assigner_id : string)
| attach_unknown_reason (assigner_id : string) (target_wwpns : list string)
    (target_lun : string) (exit_code : N)
| detach_device_in_use (fcp_list : list string) (assigner_id : string)
| detach_unknown_reason (fcp_list : list string) (assigner_id : string)
    (exit_code : N)
| text (msg : string).

(** What is raised in the configurator: the failure of a request to SMT
    with its [format_message()] and its [results['response']], the error
    of a volume operation with its arguments, or another exception. *)
Inductive error : Type :=
| SMTRequestFailed (format_message : string) (response : list string)
| VolumeOperationError (rs : Z) (userid : string) (msg : message)
| Other (e : exn).

Inductive result (A : Type) : Type :=
| Ok (a : A)
| Err (e : error).
Arguments Ok {A} a.
Arguments Err {A} e.

(** The calls of the collaborators, and the errors logged. *)
Inductive call : Type :=
| get_linux_dist (os_version : string)
| get_volume_attach_configuration_cmds
    (fcp_list_str target_wwpns_str target_lun : string)
    (multipath : bool) (mount_point : string)
| get_volume_detach_configuration_cmds
    (fcp_list_str target_wwpns_str target_lun : string)
    (multipath : bool) (mount_point : string) (connections : nat)
| create_active_net_interf_cmd
| get_guest_temp_path (assigner_id : string)
| write_file (file_path data : string)
| punch_file (assigner_id config_file fileClass : string)
| rmtree (path : string)
| execute_cmd (assigner_id cmd : string)
| execute_cmd_direct (assigner_id cmd : string)
| logged_error (msg : message).

(** The answers of the collaborators; an answer may depend on the calls
    made before (the most recent first). *)
Record guest : Type := mk_guest {
  linux_dist : list call -> string -> result unit;
  attach_cmds :
    list call -> string -> string -> string -> bool -> string -> result string;
  detach_cmds :
    list call -> string -> string -> string -> bool -> string -> nat
    -> result string;
  active_cmd : list call -> result string;
  guest_temp_path : list call -> string -> result string;
  written : list call -> string -> string -> result unit;
  punched : list call -> string -> string -> string -> result unit;
  removed : list call -> string -> result unit;
  (** [execute_cmd]: its output is not read *)
  executed : list call -> string -> string -> result unit;
  (** [execute_cmd_direct]: [ret['rc']] and [ret['response']] *)
  executed_direct : list call -> string -> string -> result (Z * list string)
}.

(** Computations of the configurator: from the calls made so far to a
    result and the calls made then. *)
Definition C (A : Type) : Type := list call -> result A * list call.

#[export] Instance C_ret : MRet C := fun A a t => (Ok a, t).
#[export] Instance C_bind : MBind C := fun A B f m t =>
  match m t with
  | (Ok a, t') => f a t'
  | (Err e, t') => (Err e, t')
  end.

Definition fail {A} (e : error) : C A := fun t => (Err e, t).

(** A call of a collaborator: recorded, then answered. *)
Definition ask {A} (c : call) (answer : list call -> result A) : C A :=
  fun t => (answer t, c :: t).

Definition lift_result {A} (r : result A) : C A := fun t => (r, t).

Definition log_error (msg : message) : C unit :=
  fun t => (Ok tt, logged_error msg :: t).

(** [try: body finally: cleanup] *)
Definition try_finally {A} (body : C A) (cleanup : C unit) : C A := fun t =>
  match body t with
  | (r, t1) =>
      match cleanup t1 with
      | (Ok _, t2) => (r, t2)
      | (Err e, t2) => (Err e, t2)
      end
  end.

Definition IndexError : error := Other (new_exn (PyException "IndexError") "").

(** [ret.group(1)] for a [ret] that is [None]. *)
Definition NoneType_has_no_group : error :=
  Other (new_exn (PyException "AttributeError") "group").

(** The loop of [_get_status_code_from_systemctl] over the lines of the
    response (lines 165-173). *)
Fixpoint exit_code_of (response : list string) : result N :=
  match response with
  | [] => Ok 0
  | line :: rest =>
      if has_substring "Main PID" line then
        match search_status line with
        | Some group => Ok (int10 group)
        | None => Err NoneType_has_no_group
        end
      else exit_code_of rest
  end.

Section Api.
Variable G : guest.

(** [VolumeConfiguratorAPI.check_IUCV_is_ready] *)
Definition check_IUCV_is_ready (assigner_id : string) : C bool := fun t =>
  match ask (execute_cmd assigner_id "pwd")
            (fun t => executed G t assigner_id "pwd") t with
  | (Ok _, t1) => (Ok true, t1)
  | (Err (SMTRequestFailed format_message response), t1) =>
      if has_substring "UNAUTHORIZED_ERROR" format_message then
        match response with
        | errmsg :: _ =>
            (log_error (iucv_unauthorized assigner_id errmsg);;
             fail (VolumeOperationError 6 assigner_id (text errmsg))) t1
        | [] => (Err IndexError, t1)
        end
      else
        match response with
        | _ :: _ => (Ok false, t1)
        | [] => (Err IndexError, t1)
        end
  | (Err e, t1) => (Err e, t1)
  end.

(** [VolumeConfiguratorAPI._get_status_code_from_systemctl] *)
Definition _get_status_code_from_systemctl (assigner_id command : string) : C N :=
  output ← ask (execute_cmd_direct assigner_id command)
               (fun t => executed_direct G t assigner_id command);
  lift_result (exit_code_of output.2).

(** [VolumeConfiguratorAPI._create_file] *)
Definition _create_file (assigner_id file_name data : string)
    : C (string * string) :=
  temp_folder ← ask (get_guest_temp_path assigner_id)
                    (fun t => guest_temp_path G t assigner_id);
  let file_path := path_join temp_folder file_name in
  ask (write_file file_path data) (fun t => written G t file_path data);;
  mret (file_path, temp_folder).

(** The end that [configure_volume_attach] and [configure_volume_detach]
    share: the commands are written to a file, the file is punched, and
    the folder of the file is removed. *)
Definition punch_script (assigner_id file_name config_cmds : string) : C unit :=
  created ← _create_file assigner_id file_name config_cmds;
  let config_file := created.1 in
  let config_file_path := created.2 in
  let fileClass := "X" in
  try_finally
    (ask (punch_file assigner_id config_file fileClass)
         (fun t => punched G t assigner_id config_file fileClass))
    (ask (rmtree config_file_path) (fun t => removed G t config_file_path)).

(** [VolumeConfiguratorAPI.configure_volume_attach] *)
Definition configure_volume_attach (fcp_list : list string) (assigner_id : string)
    (target_wwpns : list string) (target_lun : string) (multipath : bool)
    (os_version mount_point : string) : C unit :=
  let fcp_list_str := join " " fcp_list in
  let target_wwpns_str := join " " target_wwpns in
  config_cmds ← ask (get_volume_attach_configuration_cmds fcp_list_str
                       target_wwpns_str target_lun multipath mount_point)
                    (fun t => attach_cmds G t fcp_list_str target_wwpns_str
                                target_lun multipath mount_point);
  punch_script assigner_id "atvol.sh" config_cmds.

(** [VolumeConfiguratorAPI.configure_volume_detach] *)
Definition configure_volume_detach (fcp_list : list string) (assigner_id : string)
    (target_wwpns : list string) (target_lun : string) (multipath : bool)
    (os_version mount_point : string) (connections : nat) : C unit :=
  let fcp_list_str := join " " fcp_list in
  let target_wwpns_str := join " " target_wwpns in
  config_cmds ← ask (get_volume_detach_configuration_cmds fcp_list_str
                       target_wwpns_str target_lun multipath mount_point
                       connections)
                    (fun t => detach_cmds G t fcp_list_str target_wwpns_str
                                target_lun multipath mount_point connections);
  punch_script assigner_id "devol.sh" config_cmds.

(** What [config_attach] and [config_detach] do once the script is
    punched: when the guest answers, the script is run, and a failure of
    the run is raised with the reason [rs] and the text that [errmsg]
    gives for the exit code. *)
Definition activate (assigner_id : string) (rs : Z) (errmsg : N -> message)
    : C unit :=
  iucv_is_ready ← check_IUCV_is_ready assigner_id;
  if iucv_is_ready : bool then
    active_cmds ← ask create_active_net_interf_cmd (active_cmd G);
    ret ← ask (execute_cmd_direct assigner_id active_cmds)
              (fun t => executed_direct G t assigner_id active_cmds);
    if negb (ret.1 =? 0)%Z then
      let get_status_cmd := "systemctl status zvmguestconfigure.service" in
      exit_code ← _get_status_code_from_systemctl assigner_id get_status_cmd;
      log_error (errmsg exit_code);;
      fail (VolumeOperationError rs assigner_id (errmsg exit_code))
    else mret tt
  else mret tt.

(** [VolumeConfiguratorAPI.config_attach] *)
Definition config_attach (fcp_list : list string) (assigner_id : string)
    (target_wwpns : list string) (target_lun : string) (multipath : bool)
    (os_version mount_point : string) : C unit :=
  ask (get_linux_dist os_version) (fun t => linux_dist G t os_version);;
  configure_volume_attach fcp_list assigner_id target_wwpns target_lun multipath
    os_version mount_point;;
  activate assigner_id 8
    (fun exit_code =>
       if exit_code =? 1
       then attach_volume_did_not_show_up target_wwpns target_lun assigner_id
       else attach_unknown_reason assigner_id target_wwpns target_lun exit_code).

(** [VolumeConfiguratorAPI.config_detach] *)
Definition config_detach (fcp_list : list string) (assigner_id : string)
    (target_wwpns : list string) (target_lun : string) (multipath : bool)
    (os_version mount_point : string) (connections : nat) : C unit :=
  ask (get_linux_dist os_version) (fun t => linux_dist G t os_version);;
  configure_volume_detach fcp_list assigner_id target_wwpns target_lun multipath
    os_version mount_point connections;;
  activate assigner_id 9
    (fun exit_code =>
       if exit_code =? 1
       then detach_device_in_use fcp_list assigner_id
       else detach_unknown_reason fcp_list assigner_id exit_code).

End Api.
End Configurator.

(** ** Further installations and guests, for the statements evaluated on
    them *)

Module Cases.

(** The list of devices of the configuration ends in a dash. *)
Definition misconfigured : world :=
  mk_world "1a00-" true (fun _ _ => None)
    (fun _ _ status => Ret (Example.inventory status))
    (fun _ _ => true) (fun _ => "LPAR1") (fun _ => []) (fun _ => []).

(** The installation of the example without any guest. *)
Definition no_guest : world :=
  mk_world "1a00-1a01;1b00" true (fun _ _ => None)
    (fun _ _ status => Ret (Example.inventory status))
    (fun _ _ => false) (fun _ => "LPAR1")
    (fun _ => ["1a00"; "1b00"]) (fun _ => ["1a00"; "1b00"]).

(** The installation of the example with every call succeeding. *)
Definition all_well : world :=
  mk_world "1a00-1a01;1b00" true (fun _ _ => None)
    (fun _ _ status => Ret (Example.inventory status))
    (fun _ _ => true) (fun _ => "LPAR1")
    (fun _ => ["1a00"; "1b00"]) (fun _ => ["1a00"; "1b00"]).

(** An error that is not one of the SDK. *)
Definition os_error : exn :=
  new_exn (PyException "OSError") "No space left on device".

(** The configuration and the deconfiguration of the guest fail with
    that error. *)
Definition disk_full : world :=
  mk_world "1a00-1a01;1b00" true
    (fun _ c => match c with
                | config_attach _ _ _ => Some os_error
                | config_detach _ _ _ _ => Some os_error
                | _ => None
                end)
    (fun _ _ status => Ret (Example.inventory status))
    (fun _ _ => true) (fun _ => "LPAR1")
    (fun _ => ["1a00"; "1b00"]) (fun _ => ["1a00"; "1b00"]).

(** A request for a data volume on the device [1a00], written in mixed
    case. *)
Definition request : connection_info :=
  mk_connection_info ["1A00"] ["5005076802100C1B"] "0000000000000000" "vm1"
    "True" "rhel7" "/dev/sdz" false false.

(** A guest that does not answer over IUCV. *)
Definition guest_down : Configurator.guest :=
  Configurator.mk_guest
    (fun _ _ => Configurator.Ok tt)
    (fun _ _ _ _ _ _ => Configurator.Ok "attach script")
    (fun _ _ _ _ _ _ _ => Configurator.Ok "detach script")
    (fun _ => Configurator.Ok "systemctl restart zvmguestconfigure")
    (fun _ _ => Configurator.Ok "/tmp/VM1")
    (fun _ _ _ => Configurator.Ok tt)
    (fun _ _ _ _ => Configurator.Ok tt)
    (fun _ _ => Configurator.Ok tt)
    (fun _ _ _ =>
       Configurator.Err
         (Configurator.SMTRequestFailed "IUCV connection error" ["not logged on"]))
    (fun _ _ _ => Configurator.Ok (0%Z, [])).

(** A guest on which the script fails: the restart returns 1 and the
    status of the service shows the exit code 1. *)
Definition script_fails : Configurator.guest :=
  Configurator.mk_guest
    (fun _ _ => Configurator.Ok tt)
    (fun _ _ _ _ _ _ => Configurator.Ok "attach script")
    (fun _ _ _ _ _ _ _ => Configurator.Ok "detach script")
    (fun _ => Configurator.Ok "systemctl restart zvmguestconfigure")
    (fun _ _ => Configurator.Ok "/tmp/VM1")
    (fun _ _ _ => Configurator.Ok tt)
    (fun _ _ _ _ => Configurator.Ok tt)
    (fun _ _ => Configurator.Ok tt)
    (fun _ _ _ => Configurator.Ok tt)
    (fun _ _ cmd =>
       if String.eqb cmd "systemctl status zvmguestconfigure.service"
       then Configurator.Ok
              (3%Z, ["   Main PID: 28406 (code=exited, status=1/FAILURE)"])
       else Configurator.Ok (1%Z, [])).

End Cases.

(** * Properties *)

(** * Properties of the expansion *)

Module ExpandFacts.
Import PyStr Hex Regex.

Lemma truthy_true (s : string) : truthy s = true <-> s <> "".
Proof. destruct s; simpl; split; congruence. Qed.

(** The loops of the expansion raise nothing but the [ValueError] of
    [int] and of the unpacking of the split. *)
Ltac osimpl :=
  unfold mbind, outcome_bind, mret, outcome_ret, fmap, outcome_fmap in *; simpl in *.

Lemma expand_item_raises item e :
  expand_item item = Raise e -> e = ValueError.
Proof.
  unfold expand_item, int16_or_raise.
  destruct (negb (contains "-" item)).
  - destruct (int16 item); osimpl; congruence.
  - destruct (split "-" item) as [|a [|b [|c l]]]; try congruence.
    destruct (int16 a); osimpl; try congruence.
    destruct (int16 b); osimpl; congruence.
Qed.

Lemma expand_step_raises p d item e :
  expand_step p d item = Raise e -> e = ValueError.
Proof.
  unfold expand_step. destruct (String.eqb item ""); [discriminate|].
  destruct (expand_item item) eqn:E; osimpl.
  - destruct (PyDict.get d p); [destruct (set_truthy _)|]; discriminate.
  - intros [= <-]. eauto using expand_item_raises.
Qed.

Lemma expand_items_raises items p d e :
  expand_items p d items = Raise e -> e = ValueError.
Proof.
  revert d. induction items as [|item items IH]; intros d; simpl; [discriminate|].
  destruct (expand_step p d item) eqn:E; osimpl; eauto.
  intros [= <-]. eauto using expand_step_raises.
Qed.

Lemma expand_ranges_raises ranges p d e :
  expand_ranges p d ranges = Raise e -> e = ValueError.
Proof.
  revert p d. induction ranges as [|r ranges IH]; intros p d; simpl; [discriminate|].
  destruct (expand_items p d (split "," r)) eqn:E; osimpl; eauto.
  intros [= <-]. eauto using expand_items_raises.
Qed.

Lemma expand_empty : _expand_fcp_list "" = Ret EmptySet.
Proof. reflexivity. Qed.

Lemma expand_nonempty s :
  s <> "" ->
  _expand_fcp_list s =
    if grammar_ok (normalize s)
    then PathMapping <$> expand_ranges 0 [] (split ";" (normalize s))
    else Raise (invalid_address (normalize s)).
Proof.
  intros H. apply truthy_true in H. unfold _expand_fcp_list. rewrite H. simpl.
  destruct (grammar_ok (normalize s)); reflexivity.
Qed.

End ExpandFacts.

(** C5. [_expand_fcp_list] is a function of the specification string
    alone: lifted into the managers it leaves the state as it is and
    its result is the same from every state; and on
    ["0011-0013;0021-0023"] the result is exactly the mapping of path 0 to
    [0011], [0012], [0013] and of path 1 to [0021], [0022], [0023]. *)
Theorem expand_pure_and_example :
  (forall (fcp_list : string) (s1 s2 : state),
      (lift (_expand_fcp_list fcp_list) s1).1 = (lift (_expand_fcp_list fcp_list) s2).1
      /\ (lift (_expand_fcp_list fcp_list) s1).2 = s1)
  /\ _expand_fcp_list "0011-0013;0021-0023"
     = Ret (PathMapping [(0%nat, {[ "0011"; "0012"; "0013" ]});
                         (1%nat, {[ "0021"; "0022"; "0023" ]})]).
Proof.
  split.
  - intros fcp_list s1 s2. split; reflexivity.
  - vm_compute. reflexivity.
Qed.

(** C6, counterexample: the empty string is outside the grammar and
    returns the empty set. *)
Lemma expand_empty_string_not_rejected : ~ rejects_every_unmatched_string.
Proof.
  intros H. destruct (H "") as [e He]; [vm_compute; reflexivity|].
  rewrite ExpandFacts.expand_empty in He. discriminate.
Qed.

(** C6, amended. A string other than the empty one raises the
    configuration error ([SDKInternalError], "Invalid FCP address ...")
    exactly when, stripped and with its blanks removed, it matches neither
    anchored pattern; so do ["zz-01"], [";;"] and ["01-"]. *)
Theorem expand_rejects_malformed (fcp_list : string) (Hne : fcp_list <> "") :
  (grammar_ok (normalize fcp_list) = false <->
   exists e, _expand_fcp_list fcp_list = Raise e /\ exn_cls e = SDKInternalError)
  /\ (grammar_ok (normalize fcp_list) = false ->
      _expand_fcp_list fcp_list = Raise (invalid_address (normalize fcp_list)))
  /\ _expand_fcp_list "zz-01" = Raise (invalid_address "zz-01")
  /\ _expand_fcp_list ";;" = Raise (invalid_address ";;")
  /\ _expand_fcp_list "01-" = Raise (invalid_address "01-").
Proof.
  rewrite (ExpandFacts.expand_nonempty _ Hne).
  split; [split|split; [|repeat split; vm_compute; reflexivity]].
  - intros ->. eexists; split; reflexivity.
  - intros (e & He & Hc). destruct (grammar_ok _); [|reflexivity].
    destruct (expand_ranges _ _ _) eqn:E; ExpandFacts.osimpl; [discriminate|].
    injection He as <-. apply ExpandFacts.expand_ranges_raises in E. subst. discriminate.
  - intros ->. reflexivity.
Qed.

Lemma expand_rejects_malformed_witness :
  _expand_fcp_list "zz-01" = Raise (invalid_address "zz-01").
Proof.
  assert (Hne : "zz-01" <> "") by discriminate.
  apply (proj1 (proj2 (expand_rejects_malformed "zz-01" Hne))).
  vm_compute. reflexivity.
Defined.

(** ** What a path is mapped to *)

Module PyDictFacts.
Section Facts.
Context {V : Type}.
Implicit Types (d : PyDict.dict V) (k : nat) (v : V).

Lemma get_set_eq d k v : PyDict.get (PyDict.set d k v) k = Some v.
Proof.
  induction d as [|[k' v'] d IH]; simpl.
  - by rewrite Nat.eqb_refl.
  - destruct (Nat.eqb k k') eqn:E; simpl; rewrite ?Nat.eqb_refl, ?E; auto.
Qed.

Lemma get_set_ne d k k' v :
  k <> k' -> PyDict.get (PyDict.set d k v) k' = PyDict.get d k'.
Proof.
  intros Hne. induction d as [|[k0 v0] d IH]; simpl.
  - destruct (Nat.eqb_spec k' k); congruence.
  - destruct (Nat.eqb_spec k k0) as [->|]; simpl.
    + destruct (Nat.eqb_spec k' k0); congruence.
    + destruct (Nat.eqb_spec k' k0); auto.
Qed.
End Facts.
End PyDictFacts.

Module PathSetFacts.
Import PyStr Hex Regex ExpandFacts PyDictFacts PathSets.

Lemma item_set_empty : item_set "" = ∅.
Proof. reflexivity. Qed.

Lemma expand_step_get p d item d' :
  expand_step p d item = Ret d' ->
  (forall q, q <> p -> PyDict.get d' q = PyDict.get d q)
  /\ PyDict.get d' p =
       if String.eqb item "" then PyDict.get d p
       else Some (default ∅ (PyDict.get d p) ∪ item_set item).
Proof.
  unfold expand_step, item_set. destruct (String.eqb item "").
  { intros [= <-]. auto. }
  destruct (expand_item item) as [devices|]; osimpl; [|discriminate].
  destruct (PyDict.get d p) as [old|] eqn:Hold; simpl.
  - unfold set_truthy. case_bool_decide as Hemp; simpl; intros [= <-].
    + subst old. split; [intros; by apply get_set_ne|].
      rewrite get_set_eq. f_equal. set_solver.
    + split; [intros; by apply get_set_ne|]. by rewrite get_set_eq.
  - intros [= <-]. split; [intros; by apply get_set_ne|].
    rewrite get_set_eq. f_equal. set_solver.
Qed.

Lemma all_empty_union items :
  all_empty items = true -> ⋃ (item_set <$> items) = (∅ : gset string).
Proof.
  induction items as [|i items IH]; [done|].
  unfold all_empty. cbn [forallb]. intros [Hi Hall]%andb_true_iff.
  apply String.eqb_eq in Hi as ->.
  rewrite fmap_cons, union_list_cons, item_set_empty, IH; [set_solver|done].
Qed.

Lemma expand_items_get items p d d' :
  expand_items p d items = Ret d' ->
  (forall q, q <> p -> PyDict.get d' q = PyDict.get d q)
  /\ PyDict.get d' p =
       if all_empty items then PyDict.get d p
       else Some (default ∅ (PyDict.get d p) ∪ ⋃ (item_set <$> items)).
Proof.
  revert d. induction items as [|item items IH]; intros d.
  { intros [= <-]. auto. }
  cbn [expand_items].
  destruct (expand_step p d item) as [d1|] eqn:E1;
    unfold mbind, outcome_bind; [|discriminate].
  intros E2. apply expand_step_get in E1 as [Hne1 Hp1].
  apply IH in E2 as [Hne2 Hp2]. split.
  { intros q Hq. rewrite Hne2, Hne1; auto. }
  rewrite Hp2, Hp1, fmap_cons, union_list_cons.
  change (all_empty (item :: items))
    with (String.eqb item "" && all_empty items).
  destruct (String.eqb_spec item "") as [->|Hitem]; cbn [andb].
  - rewrite item_set_empty. destruct (all_empty items); [done|].
    f_equal. set_solver.
  - destruct (all_empty items) eqn:Hall; cbn [default]; f_equal.
    + rewrite (all_empty_union _ Hall). set_solver.
    + set_solver.
Qed.

Lemma expand_ranges_get ranges p d m :
  (forall q, (p <= q)%nat -> PyDict.get d q = None) ->
  expand_ranges p d ranges = Ret m ->
  forall q S, PyDict.get m q = Some S ->
    ((q < p)%nat /\ PyDict.get d q = Some S)
    \/ ((p <= q)%nat /\ exists _range,
          ranges !! (q - p)%nat = Some _range /\ S = segment_set _range).
Proof.
  revert p d. induction ranges as [|r ranges IH]; intros p d Hfresh; simpl.
  { intros [= <-] q S Hq. left. split; [|done].
    destruct (Nat.lt_ge_cases q p) as [|Hge]; [done|].
    rewrite Hfresh in Hq; [discriminate|done]. }
  destruct (expand_items p d (split "," r)) as [d1|] eqn:E1; osimpl; [|discriminate].
  intros E2 q S Hq. apply expand_items_get in E1 as [Hne1 Hp1].
  eapply (IH (p + 1)%nat d1) in E2; [| |exact Hq].
  - destruct E2 as [[Hlt Hq1]|[Hle (rg & Hrg & ->)]].
    + destruct (Nat.eq_dec q p) as [->|Hqp].
      * right. split; [lia|]. exists r. rewrite Nat.sub_diag. split; [done|].
        rewrite Hp1, Hfresh in Hq1 by lia.
        destruct (all_empty _); [discriminate|].
        injection Hq1 as <-. unfold segment_set. simpl. set_solver.
      * left. split; [lia|]. rewrite <- Hne1; auto.
    + right. split; [lia|]. exists rg. split; [|done].
      replace (q - p)%nat with (S (q - (p + 1)))%nat by lia. done.
  - intros q' Hq'. rewrite Hne1 by lia. apply Hfresh. lia.
Qed.

(** The set of a path is the set its segment stands for. *)
Lemma expand_path_is_segment fcp_list m p S :
  _expand_fcp_list fcp_list = Ret (PathMapping m) ->
  PyDict.get m p = Some S ->
  exists _range,
    split ";" (normalize fcp_list) !! p = Some _range /\ S = segment_set _range.
Proof.
  intros Hexp Hget. destruct (decide (fcp_list = "")) as [->|Hne].
  { rewrite expand_empty in Hexp. discriminate. }
  rewrite (expand_nonempty _ Hne) in Hexp.
  destruct (grammar_ok _); [|discriminate].
  destruct (expand_ranges _ _ _) as [m'|] eqn:E; osimpl; [|discriminate].
  injection Hexp as ->.
  eapply expand_ranges_get in E; [| |exact Hget]; [|done].
  destruct E as [[Hlt _]|[_ (rg & Hrg & ->)]]; [lia|].
  rewrite Nat.sub_0_r in Hrg. eauto.
Qed.

End PathSetFacts.

(** * The grammar and the loops of the expansion *)

Module Grammar.
Import PyStr Hex Regex ExpandFacts Lang.

Lemma app_cons c (s t : string) : String c s ++ t = String c (s ++ t).
Proof. reflexivity. Qed.

Lemma app_nil_l (s : string) : "" ++ s = s.
Proof. reflexivity. Qed.

Lemma app_nil_r (s : string) : s ++ "" = s.
Proof. induction s as [|c s IH]; [done|]. by rewrite app_cons, IH. Qed.

Lemma app_assoc (s1 s2 s3 : string) : (s1 ++ s2) ++ s3 = s1 ++ (s2 ++ s3).
Proof. induction s1 as [|c s1 IH]; [done|]. by rewrite !app_cons, IH. Qed.

(** ** The derivative matcher accepts words of the language only *)

Lemma lang_cat r1 r2 s : lang (cat r1 r2) s -> lang (Cat r1 r2) s.
Proof.
  unfold cat. intros H.
  destruct r1, r2; try exact H; try (by inversion H);
    (change s with ("" ++ s); apply lang_Cat; [apply lang_Eps|exact H]).
Qed.

Lemma lang_alt r1 r2 s : lang (alt r1 r2) s -> lang (Alt r1 r2) s.
Proof.
  unfold alt. intros H.
  destruct r1, r2; try exact H;
    (by apply lang_Alt_r) || (by apply lang_Alt_l).
Qed.

Lemma lang_nullable r : nullable r = true -> lang r "".
Proof.
  induction r as [| |p|r1 IH1 r2 IH2|r1 IH1 r2 IH2|r IH]; simpl; try discriminate.
  - constructor.
  - intros [H1 H2]%andb_true_iff. change "" with ("" ++ "").
    apply lang_Cat; auto.
  - intros [H|H]%orb_true_iff; [apply lang_Alt_l|apply lang_Alt_r]; auto.
  - constructor.
Qed.

Lemma lang_deriv c r s : lang (deriv c r) s -> lang r (String c s).
Proof.
  revert s. induction r as [| |p|r1 IH1 r2 IH2|r1 IH1 r2 IH2|r IH];
    intros s; simpl.
  - inversion 1.
  - inversion 1.
  - destruct (p c) eqn:Hp; inversion 1; subst. by constructor.
  - destruct (nullable r1) eqn:Hn.
    + intros H%lang_alt. inversion H as [| | |? ? ? H1|? ? ? H2| |]; subst.
      * apply lang_cat in H1. inversion H1 as [| |? ? ? ? Ha Hb| | | |]; subst.
        change (String c (s1 ++ s2)) with (String c s1 ++ s2).
        apply lang_Cat; auto.
      * change (String c s) with ("" ++ String c s).
        apply lang_Cat; [by apply lang_nullable|auto].
    + intros H%lang_cat. inversion H as [| |? ? ? ? Ha Hb| | | |]; subst.
      change (String c (s1 ++ s2)) with (String c s1 ++ s2).
      apply lang_Cat; auto.
  - intros H%lang_alt. inversion H; subst; [apply lang_Alt_l|apply lang_Alt_r]; auto.
  - intros H%lang_cat. inversion H as [| |? ? ? ? Ha Hb| | | |]; subst.
    change (String c (s1 ++ s2)) with (String c s1 ++ s2).
    apply lang_Star_cons; auto.
Qed.

Lemma fullmatch_lang r s : fullmatch r s = true -> lang r s.
Proof.
  revert r. induction s as [|c s IH]; intros r; simpl.
  - apply lang_nullable.
  - intros H. apply lang_deriv. auto.
Qed.

(** ** The shape of the words *)

Lemma contains_app c s1 s2 : contains c (s1 ++ s2) = contains c s1 || contains c s2.
Proof.
  induction s1 as [|d s1 IH]; [done|]. rewrite app_cons. simpl.
  by rewrite IH, orb_assoc.
Qed.

Lemma lang_class_inv p s : lang (Class p) s -> exists c, s = String c "" /\ p c = true.
Proof. inversion 1; eauto. Qed.

Lemma lang_chr_inv c s : lang (chr c) s -> s = String c "".
Proof.
  intros H. apply lang_class_inv in H as (d & -> & Hd).
  apply Ascii.eqb_eq in Hd. by subst.
Qed.

Lemma lang_opt_inv r s : lang (opt r) s -> lang r s \/ s = "".
Proof. inversion 1 as [| | |? ? ? H1|? ? ? H2| |]; subst; [by left|]. inversion H2. by right. Qed.

Lemma lang_cat_inv r1 r2 s :
  lang (Cat r1 r2) s -> exists s1 s2, s = s1 ++ s2 /\ lang r1 s1 /\ lang r2 s2.
Proof. inversion 1; eauto. Qed.

Lemma hex_word_cons c s :
  is_hex c = true -> (s = "" \/ hex_word s) -> hex_word (String c s).
Proof.
  intros Hc Hs. split; [done|]. intros d. simpl. intros [Hd|Hd]%orb_true_iff.
  - apply Ascii.eqb_eq in Hd. by subst.
  - destruct Hs as [->|[_ Hs]]; [done|auto].
Qed.

Lemma lang_hex_1_4 s : lang hex_1_4 s -> hex_word s.
Proof.
  unfold hex_1_4, rep_1_4. intros H.
  apply lang_cat_inv in H as (s1 & t1 & -> & H1 & Ht1).
  apply lang_class_inv in H1 as (c1 & -> & H1). rewrite app_cons, app_nil_l.
  apply hex_word_cons; [done|]. apply lang_opt_inv in Ht1 as [Ht1| ->]; [|by left].
  right. apply lang_cat_inv in Ht1 as (s2 & t2 & -> & H2 & Ht2).
  apply lang_class_inv in H2 as (c2 & -> & H2). rewrite app_cons, app_nil_l.
  apply hex_word_cons; [done|]. apply lang_opt_inv in Ht2 as [Ht2| ->]; [|by left].
  right. apply lang_cat_inv in Ht2 as (s3 & t3 & -> & H3 & Ht3).
  apply lang_class_inv in H3 as (c3 & -> & H3). rewrite app_cons, app_nil_l.
  apply hex_word_cons; [done|]. apply lang_opt_inv in Ht3 as [Ht3| ->]; [|by left].
  right. apply lang_class_inv in Ht3 as (c4 & -> & H4).
  apply hex_word_cons; [done|by left].
Qed.

Lemma lang_range s : lang range_pattern s -> range_item s.
Proof.
  unfold range_pattern. intros H.
  apply lang_cat_inv in H as (a & t & -> & Ha & Ht). apply lang_hex_1_4 in Ha.
  apply lang_opt_inv in Ht as [Ht| ->]; [|left; by rewrite app_nil_r].
  apply lang_cat_inv in Ht as (d & b & -> & Hd & Hb).
  apply lang_chr_inv in Hd as ->. apply lang_hex_1_4 in Hb.
  right. exists a, b. split; [reflexivity|by split].
Qed.

Lemma hex_word_no c s : is_hex c = false -> hex_word s -> contains c s = false.
Proof.
  intros Hc [_ Hs]. destruct (contains c s) eqn:E; [|done].
  apply Hs in E. congruence.
Qed.

Lemma range_item_no c s :
  is_hex c = false -> c <> "-"%char -> range_item s -> contains c s = false.
Proof.
  intros Hc Hd [Hs|(a & b & -> & Ha & Hb)]; [by apply hex_word_no|].
  rewrite contains_app. simpl. rewrite !hex_word_no by done.
  destruct (Ascii.eqb_spec c "-"); [done|done].
Qed.

(** ** Splitting *)

Lemma split_no c s : contains c s = false -> split c s = [s].
Proof.
  induction s as [|d s IH]; simpl; [done|].
  intros [Hd Hs]%orb_false_iff. rewrite Hd, IH by done. done.
Qed.

Lemma split_app c s1 s2 :
  contains c s1 = false -> split c (s1 ++ String c s2) = s1 :: split c s2.
Proof.
  induction s1 as [|d s1 IH]; simpl.
  - intros _. by rewrite Ascii.eqb_refl.
  - intros [Hd Hs]%orb_false_iff. rewrite Hd, IH by done. done.
Qed.

(** ** Items that expand *)

Lemma int16_acc_hex s acc :
  (forall c, contains c s = true -> is_hex c = true) ->
  exists n, int16_acc acc s = Some n.
Proof.
  revert acc. induction s as [|c s IH]; intros acc Hs; simpl; [eauto|].
  assert (Hc : is_hex c = true) by (apply Hs; simpl; by rewrite Ascii.eqb_refl).
  unfold is_hex in Hc. destruct (digit_value c) as [d|]; [|done].
  apply IH. intros d' Hd'. apply Hs. simpl. by rewrite Hd', orb_true_r.
Qed.

Lemma int16_hex s : hex_word s -> exists n, int16 s = Some n.
Proof.
  intros [Hne Hs]. unfold int16. destruct s as [|c s]; [done|].
  by apply int16_acc_hex.
Qed.

Lemma dash_not_hex : is_hex "-" = false.
Proof. reflexivity. Qed.

Lemma expand_item_range item : range_item item -> exists S, expand_item item = Ret S.
Proof.
  unfold expand_item, int16_or_raise.
  intros [Hs|(a & b & -> & Ha & Hb)].
  - rewrite (hex_word_no _ _ dash_not_hex Hs). simpl.
    destruct (int16_hex _ Hs) as [n ->]. osimpl. eauto.
  - rewrite contains_app. simpl. rewrite orb_true_r. simpl.
    rewrite (split_app _ _ _ (hex_word_no _ _ dash_not_hex Ha)).
    rewrite (split_no _ _ (hex_word_no _ _ dash_not_hex Hb)).
    destruct (int16_hex _ Ha) as [n ->]. destruct (int16_hex _ Hb) as [m ->].
    osimpl. eauto.
Qed.

Lemma expand_step_ok p d item :
  item_ok item -> exists d', expand_step p d item = Ret d'.
Proof.
  unfold expand_step. intros [->|H]; [simpl; eauto|].
  destruct (String.eqb item ""); [eauto|].
  destruct (expand_item_range _ H) as [S ->]. osimpl.
  destruct (PyDict.get d p); [destruct (set_truthy _)|]; eauto.
Qed.

Lemma expand_items_ok items p d :
  Forall item_ok items -> exists d', expand_items p d items = Ret d'.
Proof.
  revert d. induction items as [|item items IH]; intros d H; simpl; [eauto|].
  apply Forall_cons in H as [Hi H].
  destruct (expand_step_ok p d item Hi) as [d1 ->]. osimpl. by apply IH.
Qed.

Lemma expand_ranges_ok ranges p d :
  Forall segment_ok ranges -> exists m, expand_ranges p d ranges = Ret m.
Proof.
  revert p d. induction ranges as [|r ranges IH]; intros p d H; simpl; [eauto|].
  apply Forall_cons in H as [Hr H].
  destruct (expand_items_ok _ p d Hr) as [d1 ->]. osimpl. by apply IH.
Qed.

(** ** Words of the two patterns *)

Lemma comma_not_hex : is_hex "," = false.
Proof. reflexivity. Qed.

Lemma semicolon_not_hex : is_hex ";" = false.
Proof. reflexivity. Qed.

(** The tail [(,R)*] of a segment. *)
Lemma lang_items_tail t :
  lang (Star (Cat (chr ",") range_pattern_lazy)) t ->
  contains ";" t = false
  /\ forall r0, range_item r0 -> Forall item_ok (split "," (r0 ++ t)).
Proof.
  remember (Star (Cat (chr ",") range_pattern_lazy)) as R eqn:HR.
  induction 1 as [| | | | | |r s1 s2 H1 _ H2 IH]; try discriminate.
  - split; [done|]. intros r0 H0. rewrite app_nil_r.
    rewrite split_no by (apply range_item_no; done). constructor; [by right|done].
  - injection HR as ->. destruct (IH eq_refl) as [Hsemi Hall].
    apply lang_cat_inv in H1 as (c & r1 & -> & Hc & H1).
    apply lang_chr_inv in Hc as ->. apply lang_range in H1.
    split.
    + rewrite ?app_cons, ?app_nil_l. simpl. rewrite contains_app, Hsemi.
      by rewrite (range_item_no ";" r1).
    + intros r0 H0. rewrite ?app_cons, ?app_nil_l.
      rewrite split_app by (apply range_item_no; done).
      constructor; [by right|]. by apply Hall.
Qed.

Lemma lang_item_pattern s :
  lang item_pattern s -> contains ";" s = false /\ segment_ok s.
Proof.
  unfold item_pattern.
  intros H. apply lang_cat_inv in H as (r0 & t & -> & H0 & Ht).
  apply lang_range in H0. apply lang_items_tail in Ht as [Hsemi Hall].
  split; [|by apply Hall].
  by rewrite contains_app, Hsemi, (range_item_no ";" r0).
Qed.

Lemma segment_ok_empty : segment_ok "".
Proof. constructor; [by left|done]. Qed.

(** The tail [(;R;?)*] of a list, for segments [R] without semicolon. *)
Lemma lang_paths_tail R t :
  (forall s, lang R s -> contains ";" s = false /\ segment_ok s) ->
  lang (Star (Cat (chr ";") (Cat R (opt (chr ";"))))) t ->
  forall s0, contains ";" s0 = false -> segment_ok s0 ->
    Forall segment_ok (split ";" (s0 ++ t)).
Proof.
  intros HR. remember (Star (Cat (chr ";") (Cat R (opt (chr ";"))))) as P eqn:HP.
  induction 1 as [| | | | | |r s1 s2 H1 _ H2 IH]; try discriminate.
  - intros s0 Hno H0. rewrite app_nil_r, split_no by done. by constructor.
  - injection HP as ->. specialize (IH eq_refl). intros s0 Hno H0.
    apply lang_cat_inv in H1 as (c & u & -> & Hc & Hu).
    apply lang_chr_inv in Hc as ->.
    apply lang_cat_inv in Hu as (si & o & -> & Hsi & Ho).
    destruct (HR si Hsi) as [Hsemi Hok].
    rewrite ?app_cons, ?app_nil_l. rewrite split_app by done. constructor; [done|].
    apply lang_opt_inv in Ho as [Ho| ->].
    + apply lang_chr_inv in Ho as ->. rewrite !app_assoc, ?app_cons, ?app_nil_l.
      rewrite split_app by done.
      constructor; [done|]. apply (IH ""); [done|apply segment_ok_empty].
    + rewrite app_nil_r. by apply IH.
Qed.

Lemma lang_paths R s :
  (forall s, lang R s -> contains ";" s = false /\ segment_ok s) ->
  lang (paths_pattern R) s -> Forall segment_ok (split ";" s).
Proof.
  intros HR. unfold paths_pattern.
  intros H. apply lang_cat_inv in H as (s0 & t & -> & H0 & Ht).
  destruct (HR s0 H0) as [Hno Hok]. by eapply lang_paths_tail.
Qed.

Lemma lang_range_segment s :
  lang range_pattern s -> contains ";" s = false /\ segment_ok s.
Proof.
  intros H. apply lang_range in H. split; [by apply range_item_no|].
  unfold segment_ok. rewrite split_no by (by apply range_item_no).
  constructor; [by right|done].
Qed.

(** ** The normalised string *)

Lemma last_char_cons c s : s <> "" -> last_char (String c s) = last_char s.
Proof. by destruct s. Qed.

Lemma rstrip_last s c : last_char (rstrip s) = Some c -> is_space c = false.
Proof.
  induction s as [|d s IH]; simpl; [done|].
  destruct (rstrip s) as [|e t] eqn:E.
  - destruct (is_space d) eqn:Hd; simpl; congruence.
  - rewrite last_char_cons by done. exact IH.
Qed.

Lemma remove_char_last c s d :
  last_char s = Some d -> d <> c -> last_char (remove_char c s) = Some d.
Proof.
  induction s as [|e s IH]; [done|]. intros Hl Hd.
  destruct s as [|e' s'].
  - simpl in *. injection Hl as ->. by destruct (Ascii.eqb_spec c d).
  - rewrite last_char_cons in Hl by done. specialize (IH Hl Hd).
    change (remove_char c (String e (String e' s')))
      with (if Ascii.eqb c e then remove_char c (String e' s')
            else String e (remove_char c (String e' s'))).
    destruct (Ascii.eqb c e); [done|].
    rewrite last_char_cons; [done|]. intros Heq. by rewrite Heq in IH.
Qed.

Lemma remove_char_empty_last c s :
  last_char s = None -> last_char (remove_char c s) = None.
Proof.
  assert (H : last_char s = None -> s = "").
  { induction s as [|e s IH]; [done|]. destruct s as [|e' s']; [done|].
    rewrite last_char_cons by done. intros H. by apply IH in H. }
  intros Hs. by rewrite (H Hs).
Qed.

Lemma drop_final_newline_last s s' :
  drop_final_newline s = Some s' -> last_char s = Some "010"%char.
Proof.
  revert s'. induction s as [|c s IH]; intros s'; [done|].
  destruct s as [|d t].
  - simpl. destruct (Ascii.eqb_spec c "010"); [by subst|done].
  - rewrite last_char_cons by done.
    change (drop_final_newline (String c (String d t)))
      with (String c <$> drop_final_newline (String d t)).
    destruct (drop_final_newline (String d t)) as [u|]; [|done].
    intros _. by eapply IH.
Qed.

Lemma normalize_no_final_newline s : drop_final_newline (normalize s) = None.
Proof.
  destruct (drop_final_newline (normalize s)) as [s'|] eqn:E; [|done].
  apply drop_final_newline_last in E. unfold normalize, strip in E.
  destruct (last_char (rstrip (lstrip s))) as [d|] eqn:Hd.
  - pose proof (rstrip_last _ _ Hd) as Hsp.
    rewrite (remove_char_last _ _ d Hd) in E.
    + injection E as ->. done.
    + intros ->. done.
  - by rewrite (remove_char_empty_last _ _ Hd) in E.
Qed.

(** On a string that passes the grammar check the loops of the expansion
    run to their end. *)
Lemma expand_total fcp_list :
  fcp_list <> "" -> grammar_ok (normalize fcp_list) = true ->
  exists m, _expand_fcp_list fcp_list = Ret (PathMapping m).
Proof.
  intros Hne Hok. rewrite (expand_nonempty _ Hne), Hok.
  assert (Hsegs : Forall segment_ok (split ";" (normalize fcp_list))).
  { unfold grammar_ok, re_match_anchored in Hok.
    rewrite normalize_no_final_newline, !orb_false_r in Hok.
    apply orb_true_iff in Hok as [H|H]; apply fullmatch_lang in H.
    - eapply lang_paths; [|exact H]. apply lang_range_segment.
    - eapply lang_paths; [|exact H]. apply lang_item_pattern. }
  destruct (expand_ranges_ok _ 0%nat [] Hsegs) as [m ->]. osimpl. eauto.
Qed.

End Grammar.

(** C4, counterexample: ["0011;0011"] is accepted and puts the device
    [0011] on path 0 and on path 1. *)
Lemma expand_paths_overlap : ~ paths_always_disjoint.
Proof.
  intros H.
  assert (E : _expand_fcp_list "0011;0011"
              = Ret (PathMapping [(0%nat, {[ "0011" ]}); (1%nat, {[ "0011" ]})]))
    by (vm_compute; reflexivity).
  specialize (H _ _ E 0%nat 1%nat {[ "0011" ]} {[ "0011" ]}).
  assert (Hd : ({[ "0011" ]} : gset string) ## {[ "0011" ]}) by (apply H; done).
  set_solver.
Qed.

(** * Reasoning about computations *)

Module Run.

Lemma bind_run {A B} (m : M A) (k : A -> M B) (s : state) :
  (m ≫= k) s = match m s with
               | (Ret a, s') => k a s'
               | (Raise e, s') => (Raise e, s')
               end.
Proof. reflexivity. Qed.

Lemma bind_ret {A B} (m : M A) (k : A -> M B) s a s' :
  m s = (Ret a, s') -> (m ≫= k) s = k a s'.
Proof. intros H. by rewrite bind_run, H. Qed.

Lemma bind_raise {A B} (m : M A) (k : A -> M B) s e s' :
  m s = (Raise e, s') -> (m ≫= k) s = (Raise e, s').
Proof. intros H. by rewrite bind_run, H. Qed.

(** Unfolds the monad operations of a computation applied to a state. *)
Ltac mred :=
  cbv beta iota zeta delta
    [mbind M_bind mret M_ret gets modify raise lift emit LOG_error db_query fst snd].


Section Emits.
Context (P : event -> Prop).

Lemma emits_ret {A} (a : A) : emits_only P (mret a).
Proof. intros s. exists []. by split. Qed.

Lemma emits_raise {A} e : emits_only P (raise (A := A) e).
Proof. intros s. exists []. by split. Qed.

Lemma emits_gets {A} (f : state -> A) : emits_only P (gets f).
Proof. intros s. exists []. by split. Qed.

Lemma emits_lift {A} (o : outcome A) : emits_only P (lift o).
Proof. intros s. exists []. by split. Qed.

Lemma emits_db_query {A} (q : gmap string fcp_rec -> outcome A) :
  emits_only P (db_query q).
Proof. intros s. exists []. by split. Qed.

Lemma emits_modify (f : state -> state) :
  (forall s, trace (f s) = trace s) -> emits_only P (modify f).
Proof. intros H s. exists []. simpl. by rewrite H. Qed.

Lemma emits_emit e : P e -> emits_only P (emit e).
Proof. intros H s. exists [e]. split; [done|]. by constructor. Qed.

Lemma emits_bind {A B} (m : M A) (k : A -> M B) :
  emits_only P m -> (forall a, emits_only P (k a)) -> emits_only P (m ≫= k).
Proof.
  intros Hm Hk s. rewrite bind_run. destruct (Hm s) as (new & Ht & Hnew).
  destruct (m s) as [[a|e] s1]; simpl in *.
  - destruct (Hk a s1) as (new' & Ht' & Hnew').
    exists (new' ++ new)%list. rewrite Ht', Ht, app_assoc. split; [done|].
    by apply Forall_app.
  - by exists new.
Qed.

Lemma emits_try_except {A} (body : M A) catches handler :
  emits_only P body -> (forall e, emits_only P (handler e)) ->
  emits_only P (try_except body catches handler).
Proof.
  intros Hm Hk s. unfold try_except. destruct (Hm s) as (new & Ht & Hnew).
  destruct (body s) as [[a|e] s1]; simpl in *; [by exists new|].
  destruct (catches e); simpl; [|by exists new].
  destruct (Hk e s1) as (new' & Ht' & Hnew').
  exists (new' ++ new)%list. rewrite Ht', Ht, app_assoc. split; [done|].
  by apply Forall_app.
Qed.

Lemma emits_ignore_errors (body : M unit) :
  emits_only P body -> emits_only P (ignore_errors body).
Proof. intros H. apply emits_try_except; [done|]. intros e. apply emits_ret. Qed.

Lemma emits_for {A} (l : list A) (body : A -> M unit) :
  (forall x, x ∈ l -> emits_only P (body x)) -> emits_only P (for_ l body).
Proof.
  induction l as [|x l IH]; intros H; simpl; [apply emits_ret|].
  apply emits_bind; [apply H; left|]. intros _. apply IH.
  intros y Hy. apply H. by right.
Qed.

Lemma emits_for_fold {A B} (l : list A) (b : B) (body : B -> A -> M B) :
  (forall b x, x ∈ l -> emits_only P (body b x)) -> emits_only P (for_fold l b body).
Proof.
  revert b. induction l as [|x l IH]; intros b H; simpl; [apply emits_ret|].
  apply emits_bind; [apply H; left|]. intros b'. apply IH.
  intros b'' y Hy. apply H. by right.
Qed.

Lemma emits_db_exec c f : P (DbWrite c) -> emits_only P (db_exec c f).
Proof.
  intros H s. exists [DbWrite c]. unfold db_exec. simpl.
  destruct (f (db s)); simpl; split; try done; by constructor.
Qed.

Lemma emits_decrease_usage fcp :
  P (DbWrite (db_decrease_usage fcp)) -> emits_only P (DbM.decrease_usage fcp).
Proof.
  intros H s. exists [DbWrite (db_decrease_usage fcp)]. unfold DbM.decrease_usage.
  simpl. destruct (Db.decrease_usage (db s) fcp) as [[n t]|]; simpl;
    split; try done; by constructor.
Qed.

Lemma emits_smt W c : P (Smt c) -> emits_only P (smt W c).
Proof.
  intros H s. exists [Smt c]. unfold smt.
  destruct (smt_result W (trace s) c); simpl; split; try done; by constructor.
Qed.

Lemma emits_ask_fcp_info W u st :
  P (Asked (get_fcp_info_by_status u st)) -> emits_only P (ask_fcp_info W u st).
Proof. intros H s. exists [Asked (get_fcp_info_by_status u st)]. split; [done|]. by constructor. Qed.

Lemma emits_ask_userid_exist W u :
  P (Asked (check_userid_exist u)) -> emits_only P (ask_userid_exist W u).
Proof. intros H s. exists [Asked (check_userid_exist u)]. split; [done|]. by constructor. Qed.

Lemma emits_ask_lpar_name W :
  P (Asked get_lpar_name) -> emits_only P (ask_lpar_name W).
Proof. intros H s. exists [Asked get_lpar_name]. split; [done|]. by constructor. Qed.

Lemma emits_pool_get fcp : emits_only P (pool_get fcp).
Proof. intros s. exists []. unfold pool_get. destruct (_ !! _); by split. Qed.

End Emits.

Lemma emits_weaken {A} (P Q : event -> Prop) (m : M A) :
  (forall e, P e -> Q e) -> emits_only P m -> emits_only Q m.
Proof.
  intros HPQ Hm s. destruct (Hm s) as (new & Ht & Hnew). exists new.
  split; [done|]. eapply Forall_impl; eauto.
Qed.

(** Decomposes a computation along its structure. *)
Ltac emits_step :=
  first
    [ apply emits_ret | apply emits_raise | apply emits_gets | apply emits_lift
    | apply emits_db_query | apply emits_pool_get
    | apply emits_bind; [|intros ?]
    | apply emits_try_except; [|intros ?]
    | apply emits_ignore_errors
    | apply emits_for; intros ? ?
    | apply emits_for_fold; intros ? ? ?
    | apply emits_db_exec | apply emits_decrease_usage | apply emits_smt
    | apply emits_ask_fcp_info | apply emits_ask_userid_exist
    | apply emits_ask_lpar_name | apply emits_emit
    | apply emits_modify; intros ?; reflexivity
    | match goal with
      | |- emits_only _ (if ?b then _ else _) => destruct b
      | |- emits_only _ (match ?x with _ => _ end) => destruct x
      | |- emits_only _ (let '(_, _) := ?x in _) => destruct x
      end ].

End Run.

(** * The root-volume short cut *)

Module RootVolume.
Import Run.

Ltac emits :=
  repeat (cbv beta zeta; emits_step); try exact I.

Lemma init_fcp_no_guest_action W assigner_id :
  emits_only no_guest_action (init_fcp W assigner_id).
Proof.
  unfold init_fcp, _init_fcp_pool, _get_all_fcp_info, _list_fcp_details,
    _init_fcp_pool_step, _sync_db_fcp_list, _report_orphan_fcp, _sync_one,
    _add_fcp, DbM.get_all, DbM.is_reserved, DbM.delete, DbM.get_from_fcp,
    DbM.new, DbM.update_path_of_fcp.
  emits.
Qed.

Lemma add_fcp_no_guest_action fcp assigner_id :
  emits_only no_guest_action (add_fcp_for_assigner fcp assigner_id).
Proof.
  unfold add_fcp_for_assigner, DbM.get_connections_from_fcp, DbM.assign,
    DbM.increase_usage_by_assigner.
  emits.
Qed.

Lemma detach_decrease_emits fcp_list assigner_id :
  emits_only (usage_decrement_of fcp_list) (detach_decrease fcp_list assigner_id).
Proof.
  unfold detach_decrease, detach_decrease_one, decrease_fcp_usage.
  emits. eexists; eauto.
Qed.

Lemma decrease_usage_raises t fcp e :
  Db.decrease_usage t fcp = Raise e -> is_not_exist e = true.
Proof.
  unfold Db.decrease_usage, Db.with_rec. destruct (t !! fcp) as [r|].
  - destruct (connections r); [|discriminate]. by intros [= <-].
  - by intros [= <-].
Qed.

Lemma detach_decrease_one_returns assigner_id vars fcp s :
  exists vars' s', detach_decrease_one assigner_id vars fcp s = (Ret vars', s').
Proof.
  unfold detach_decrease_one, decrease_fcp_usage, DbM.decrease_usage, try_except.
  rewrite bind_run, bind_run. cbn [log db].
  destruct (Db.decrease_usage (db s) fcp) as [[n t]|e] eqn:E; simpl.
  - eauto.
  - rewrite (decrease_usage_raises _ _ _ E). simpl. eauto.
Qed.

Lemma detach_decrease_returns fcp_list assigner_id s :
  exists vars s', detach_decrease fcp_list assigner_id s = (Ret vars, s').
Proof.
  unfold detach_decrease. generalize (mk_detach_vars ∅ ∅ None) as vars.
  revert s. induction fcp_list as [|fcp l IH]; intros s vars; simpl; [by eauto|].
  destruct (detach_decrease_one_returns assigner_id vars fcp s) as (v1 & s1 & E).
  rewrite (bind_ret _ _ _ _ _ E). apply IH.
Qed.

Lemma attach_root_no_guest_action W fcp_list assigner_id v path_count :
  emits_only no_guest_action (_attach W fcp_list assigner_id v path_count true).
Proof.
  unfold _attach, attach_register. apply emits_bind.
  - apply emits_bind; [apply init_fcp_no_guest_action|].
    intros _. apply emits_for_fold. intros b x _.
    apply emits_bind; [apply add_fcp_no_guest_action|].
    intros new. apply emits_ret.
  - intros status. apply emits_ret.
Qed.

Lemma detach_root_only_decrements W fcp_list assigner_id v update_connections_only :
  emits_only (usage_decrement_of fcp_list)
    (_detach W fcp_list assigner_id v true update_connections_only).
Proof.
  unfold _detach. apply emits_bind; [apply detach_decrease_emits|].
  intros vars. apply emits_ret.
Qed.

End RootVolume.

(** C7. An attach or a detach of a root volume issues no call on the guest
    or the host: [_attach] with [is_root_volume] initialises the pool,
    registers the usage in the store and returns the empty list; [_detach]
    with [is_root_volume] does nothing but decrement the usage of the
    devices of the request in the store, and returns.  So do [attach] and
    [detach] for a request whose [is_root_volume] is true. *)
Theorem root_volume_bookkeeping_only (W : world) (fcp_list : list string)
    (assigner_id : string) (v : volume) (path_count : nat)
    (update_connections_only : bool) :
  emits_only no_guest_action (_attach W fcp_list assigner_id v path_count true)
  /\ (forall s r s',
        _attach W fcp_list assigner_id v path_count true s = (Ret r, s') ->
        r = Some [])
  /\ emits_only (usage_decrement_of fcp_list)
       (_detach W fcp_list assigner_id v true update_connections_only)
  /\ (forall s,
        (_detach W fcp_list assigner_id v true update_connections_only s).1 = Ret tt)
  /\ (forall ci : connection_info,
        ci_is_root_volume ci = true ->
        emits_only no_guest_action (attach W ci)
        /\ emits_only (usage_decrement_of (PyStr.lower <$> ci_zvm_fcp ci))
             (detach W ci)).
Proof.
  split; [|split; [|split; [|split]]].
  - apply RootVolume.attach_root_no_guest_action.
  - intros s r s'. unfold _attach. rewrite Run.bind_run.
    destruct (attach_register _ _ _ _) as [[status|e] s1]; [|discriminate].
    by intros [= <- <-].
  - apply RootVolume.detach_root_only_decrements.
  - intros s. unfold _detach.
    destruct (RootVolume.detach_decrease_returns fcp_list assigner_id s) as (vars & s' & E).
    by rewrite (Run.bind_ret _ _ _ _ _ E).
  - intros ci Hroot. split.
    + unfold attach, attach_checked. rewrite Hroot. apply Run.emits_bind.
      * apply RootVolume.attach_root_no_guest_action.
      * intros _. apply Run.emits_ret.
    + unfold detach. rewrite Hroot. apply RootVolume.detach_root_only_decrements.
Qed.

(** * Usage accounting *)

Module Usage.
Import Run.

Lemma set_connections_same r : Db.set_connections (connections r) r = r.
Proof. by destruct r. Qed.

Lemma lowered_0 r : lowered 0 r = r.
Proof. unfold lowered. rewrite Nat.sub_0_r. apply set_connections_same. Qed.

Lemma lowered_lowered j k r : lowered k (lowered j r) = lowered (j + k) r.
Proof. unfold lowered, Db.set_connections. simpl. f_equal. lia. Qed.

Lemma raised_0 r : raised 0 r = r.
Proof. unfold raised. rewrite Nat.add_0_r. apply set_connections_same. Qed.

Lemma occ_cons f x l :
  occ f (x :: l) = ((if String.eqb x f then 1 else 0) + occ f l)%nat.
Proof. reflexivity. Qed.

Lemma occ_not_in f l : f ∉ l -> occ f l = O.
Proof.
  induction l as [|x l IH]; [done|]. intros [Hx Hl]%not_elem_of_cons.
  rewrite occ_cons, IH by done. destruct (String.eqb_spec x f); [by subst|done].
Qed.

Lemma occ_in f l : f ∈ l -> (1 <= occ f l)%nat.
Proof.
  induction l as [|x l IH]; [by intros ?%elem_of_nil|].
  rewrite occ_cons. intros [->|H]%elem_of_cons.
  - rewrite String.eqb_refl. lia.
  - specialize (IH H). lia.
Qed.

Lemma conn_lookup t f r : t !! f = Some r -> conn t f = connections r.
Proof. unfold conn. by intros ->. Qed.

Lemma conn_none t f : t !! f = None -> conn t f = O.
Proof. unfold conn. by intros ->. Qed.

(** One decrement, whether it succeeds or not. *)
Lemma decrease_usage_run fcp s :
  exists o s',
    DbM.decrease_usage fcp s = (o, s')
    /\ trace s' = DbWrite (db_decrease_usage fcp) :: trace s
    /\ _fcp_pool s' = _fcp_pool s
    /\ _fcp_path_mapping s' = _fcp_path_mapping s
    /\ (forall f, db s' !! f
                  = lowered (if String.eqb fcp f then 1 else 0) <$> db s !! f)
    /\ match o with
       | Ret n => (1 <= conn (db s) fcp)%nat /\ n = conn (db s') fcp
       | Raise e => conn (db s) fcp = O /\ is_not_exist e = true
       end.
Proof.
  unfold DbM.decrease_usage, Db.decrease_usage, Db.with_rec. cbn [log db].
  assert (Hid : forall f, db s !! f = lowered 0 <$> db s !! f).
  { intros f. destruct (db s !! f) as [r|]; simpl; by rewrite ?lowered_0. }
  assert (Hid' : forall f, db s !! f
                   = lowered (if String.eqb fcp f then 1 else 0) <$> db s !! f
                   \/ fcp = f).
  { intros f. destruct (String.eqb_spec fcp f); auto. }
  destruct (db s !! fcp) as [r|] eqn:Hr.
  - destruct (connections r) as [|n] eqn:Hc.
    + eexists _, _. split; [reflexivity|]. simpl. repeat split; auto.
      * intros f. destruct (Hid' f) as [|<-]; [done|].
        rewrite String.eqb_refl, Hr. simpl. unfold lowered. rewrite Hc. simpl.
        by rewrite <- Hc, set_connections_same.
      * by rewrite (conn_lookup _ _ _ Hr).
    + eexists _, _. split; [reflexivity|]. simpl. repeat split; auto.
      * intros f. destruct (Hid' f) as [E|<-].
        { destruct (String.eqb_spec fcp f) as [->|Hne]; [|by rewrite lookup_insert_ne].
          rewrite lookup_insert_eq, Hr. simpl. unfold lowered. rewrite Hc. simpl.
          by rewrite Nat.sub_0_r. }
        rewrite String.eqb_refl, lookup_insert_eq, Hr. simpl. unfold lowered.
        rewrite Hc. simpl. by rewrite Nat.sub_0_r.
      * rewrite (conn_lookup _ _ _ Hr). lia.
      * unfold conn. by rewrite lookup_insert_eq.
  - eexists _, _. split; [reflexivity|]. simpl. repeat split; auto.
    + intros f. destruct (Hid' f) as [|<-]; [done|]. by rewrite Hr.
    + by apply conn_none.
Qed.

Lemma conn_lowered t t' f k :
  t' !! f = lowered k <$> t !! f -> conn t' f = (conn t f - k)%nat.
Proof. unfold conn. intros ->. by destruct (t !! f). Qed.

(** One turn of the first loop of [_detach]. *)
Lemma detach_decrease_one_spec assigner_id vars fcp s :
  exists vars' s',
    detach_decrease_one assigner_id vars fcp s = (Ret vars', s')
    /\ trace s' = DbWrite (db_decrease_usage fcp) :: trace s
    /\ _fcp_pool s' = _fcp_pool s
    /\ _fcp_path_mapping s' = _fcp_path_mapping s
    /\ (forall f, db s' !! f
                  = lowered (if String.eqb fcp f then 1 else 0) <$> db s !! f)
    /\ fcp_connections vars' = <[fcp := conn (db s') fcp]> (fcp_connections vars)
    /\ need_rollback vars'
       = <[fcp := bool_decide (1 <= conn (db s) fcp)%nat]> (need_rollback vars)
    /\ last_connections vars' = Some (conn (db s') fcp).
Proof.
  destruct (decrease_usage_run fcp s) as (o & s' & E & Ht & Hp & Hm & Hdb & Ho).
  unfold detach_decrease_one, decrease_fcp_usage, try_except.
  rewrite bind_run, bind_run, E. destruct o as [n|e]; simpl.
  - destruct Ho as [Hc ->]. eexists _, _. split; [reflexivity|].
    repeat split; auto. simpl. by rewrite bool_decide_eq_true_2.
  - destruct Ho as [Hc ->]. simpl. eexists _, _. split; [reflexivity|].
    repeat split; auto; simpl.
    + f_equal. rewrite (conn_lowered _ _ _ _ (Hdb fcp)). lia.
    + rewrite insert_insert_eq. f_equal. rewrite bool_decide_eq_false_2; [done|lia].
    + f_equal. rewrite (conn_lowered _ _ _ _ (Hdb fcp)). lia.
Qed.

(** The first loop of [_detach] as a whole. *)
Lemma detach_loop_spec assigner_id l vars0 s0 :
  exists vars s1,
    for_fold l vars0 (detach_decrease_one assigner_id) s0 = (Ret vars, s1)
    /\ (exists new, trace s1 = (new ++ trace s0)%list
                    /\ Forall (usage_decrement_of l) new)
    /\ _fcp_pool s1 = _fcp_pool s0
    /\ _fcp_path_mapping s1 = _fcp_path_mapping s0
    /\ (forall f, db s1 !! f = lowered (occ f l) <$> db s0 !! f)
    /\ (forall f, fcp_connections vars !! f
                  = if decide (f ∈ l) then Some (conn (db s1) f)
                    else fcp_connections vars0 !! f)
    /\ (forall f, need_rollback vars !! f
                  = if decide (f ∈ l)
                    then Some (bool_decide (occ f l <= conn (db s0) f)%nat)
                    else need_rollback vars0 !! f)
    /\ (l <> [] -> is_Some (last_connections vars)).
Proof.
  revert vars0 s0. induction l as [|x l IH]; intros vars0 s0.
  { exists vars0, s0. split; [reflexivity|]. repeat split; auto.
    - by exists [].
    - intros f. simpl. destruct (db s0 !! f); simpl; by rewrite ?lowered_0.
    - done. }
  destruct (detach_decrease_one_spec assigner_id vars0 x s0)
    as (v1 & s1 & E1 & Ht1 & Hp1 & Hm1 & Hdb1 & Hfc1 & Hnr1 & Hl1).
  destruct (IH v1 s1) as (v2 & s2 & E2 & (new & Ht2 & Hnew) & Hp2 & Hm2 & Hdb2 & Hfc2 & Hnr2 & Hl2).
  exists v2, s2. cbn [for_fold]. rewrite (bind_ret _ _ _ _ _ E1).
  split; [exact E2|]. repeat split.
  - exists (new ++ [DbWrite (db_decrease_usage x)])%list.
    rewrite Ht2, Ht1, <- app_assoc. split; [done|]. apply Forall_app. split.
    + eapply Forall_impl; [exact Hnew|]. intros e (f & -> & Hf). exists f.
      split; [done|]. by right.
    + constructor; [|done]. exists x. split; [done|]. by left.
  - congruence.
  - congruence.
  - intros f. rewrite Hdb2, Hdb1, occ_cons. destruct (db s0 !! f) as [r|]; [|done].
    simpl. by rewrite lowered_lowered.
  - intros f. rewrite Hfc2. destruct (decide (f ∈ l)) as [Hin|Hnin].
    + rewrite decide_True; [done|by right].
    + rewrite Hfc1. destruct (decide (x = f)) as [->|Hne].
      * rewrite lookup_insert_eq, decide_True by left. f_equal.
        rewrite (conn_lowered _ _ _ _ (Hdb2 f)), (occ_not_in _ _ Hnin). lia.
      * rewrite lookup_insert_ne by done. rewrite decide_False; [done|].
        intros [?|?]%elem_of_cons; congruence.
  - intros f. rewrite Hnr2, occ_cons. destruct (decide (f ∈ l)) as [Hin|Hnin].
    + rewrite decide_True by (by right). f_equal.
      rewrite (conn_lowered _ _ _ _ (Hdb1 f)). apply occ_in in Hin.
      destruct (String.eqb x f); apply bool_decide_ext; lia.
    + rewrite Hnr1. destruct (decide (x = f)) as [->|Hne].
      * rewrite lookup_insert_eq, decide_True by left. f_equal.
        rewrite String.eqb_refl, (occ_not_in _ _ Hnin). apply bool_decide_ext; lia.
      * rewrite lookup_insert_ne by done. rewrite decide_False; [done|].
        intros [?|?]%elem_of_cons; congruence.
  - intros _. destruct l as [|y l]; [|apply Hl2; done].
    simpl in E2. injection E2 as <- <-. by rewrite Hl1.
Qed.

End Usage.

Module UsageRuns.
Import Run Usage.

Lemma add_first fcp assigner_id s r :
  db s !! fcp = Some r -> connections r = O ->
  add_fcp_for_assigner fcp assigner_id s
  = (Ret true,
     set_db (<[fcp := raised 1 (Db.set_assigner (Some assigner_id) r)]> (db s))
            (log (DbWrite (db_assign fcp assigner_id true)) s)).
Proof.
  intros Hr Hc. unfold add_fcp_for_assigner, DbM.get_connections_from_fcp,
    DbM.assign, db_query, db_exec, Db.get_connections_from_fcp, Db.assign,
    Db.update, Db.with_rec.
  rewrite bind_run. cbn [db log]. rewrite Hr, Hc. cbn [Nat.eqb].
  rewrite bind_run. cbn [db log]. rewrite Hr. unfold raised. simpl.
  by rewrite Nat.add_1_r.
Qed.

Lemma add_again fcp assigner s r :
  db s !! fcp = Some r -> connections r <> O ->
  assigner_id r = Some assigner ->
  add_fcp_for_assigner fcp assigner s
  = (Ret false,
     set_db (<[fcp := raised 1 r]> (db s))
            (log (DbWrite (db_increase_usage_by_assigner fcp assigner)) s)).
Proof.
  intros Hr Hc Ha. unfold add_fcp_for_assigner, DbM.get_connections_from_fcp,
    DbM.increase_usage_by_assigner, db_query, db_exec,
    Db.get_connections_from_fcp, Db.increase_usage_by_assigner, Db.with_rec,
    Db.owned_by.
  rewrite bind_run. cbn [db log]. rewrite Hr.
  destruct (connections r) as [|n] eqn:En; [done|]. cbn [Nat.eqb].
  rewrite bind_run. cbn [db log]. rewrite Hr, bool_decide_eq_true_2 by done.
  unfold raised. simpl. by rewrite En, Nat.add_1_r.
Qed.

Lemma decrease_ok fcp assigner_id s r n :
  db s !! fcp = Some r -> connections r = S n ->
  decrease_fcp_usage fcp assigner_id s
  = (Ret n,
     set_db (<[fcp := Db.set_connections n r]> (db s))
            (log (DbWrite (db_decrease_usage fcp)) s)).
Proof.
  intros Hr Hc. unfold decrease_fcp_usage, DbM.decrease_usage, Db.decrease_usage,
    Db.with_rec. cbn [db log]. by rewrite Hr, Hc.
Qed.

(** What follows the first loop of [_detach] undedicates a device of the
    request only, and only when the count noted for it is zero. *)
Lemma detach_rest_undedicates W vars fcp_list assigner_id v :
  let P := fun e => forall f, e = Smt (undedicate_device assigner_id f) ->
             f ∈ fcp_list /\ default O (fcp_connections vars !! f) = O in
  emits_only P
    (exist ← ask_userid_exist W assigner_id;
     if negb exist then mret tt
     else
       try_except
         (detach_remove_and_undedicate W vars fcp_list assigner_id v)
         (fun e => is_SDKBaseException e || is_SDKSMTRequestFailed e)
         (detach_handler W vars fcp_list assigner_id v)).
Proof.
  intros P.
  assert (Hother : forall e, (forall f, e <> Smt (undedicate_device assigner_id f)) -> P e).
  { intros e He f ->. by destruct (He f). }
  apply emits_bind; [apply emits_ask_userid_exist, Hother; done|].
  intros exist. destruct (negb exist); [apply emits_ret|].
  apply emits_try_except.
  - unfold detach_remove_and_undedicate. apply emits_bind.
    + destruct (last_connections vars); [|apply emits_raise].
      apply emits_smt, Hother. done.
    + intros _. apply emits_for. intros x Hx.
      destruct (default O (fcp_connections vars !! x) =? 0)%nat eqn:E;
        [|apply emits_ret].
      apply emits_smt. intros f [= <-]. split; [done|]. by apply Nat.eqb_eq.
  - intros err. unfold detach_handler, detach_rollback_usage, increase_fcp_usage,
      get_fcp_usage, LOG_error, _add_disks, DbM.get_connections_from_fcp,
      DbM.assign, DbM.increase_usage, DbM.get_usage_of_fcp.
    repeat (cbv beta zeta; emits_step); apply Hother; done.
Qed.

End UsageRuns.

(** C2. For a device with a record and no connection, two calls of
    [add_fcp_for_assigner] for an assigner report first use ([True]) and
    then not ([False]) and leave the count at 2; two calls of
    [decrease_fcp_usage] then return 1 and 0.  And whenever [_detach]
    undedicates a device, the device belongs to the request and the count
    the store holds for it after the decrements of the request is zero. *)
Theorem usage_accounting (fcp assigner_id : string) (s : state) (r : fcp_rec)
    (Hrec : db s !! fcp = Some r) (Hfree : connections r = O) :
  (exists s1 s2 s3 s4,
      add_fcp_for_assigner fcp assigner_id s = (Ret true, s1)
      /\ add_fcp_for_assigner fcp assigner_id s1 = (Ret false, s2)
      /\ conn (db s2) fcp = 2%nat
      /\ decrease_fcp_usage fcp assigner_id s2 = (Ret 1%nat, s3)
      /\ decrease_fcp_usage fcp assigner_id s3 = (Ret O, s4)
      /\ conn (db s4) fcp = O)
  /\ (forall (W : world) (fcp_list : list string) (v : volume)
        (is_root_volume update_connections_only : bool) (s0 : state) (f : string),
        Smt (undedicate_device assigner_id f)
          ∈ trace (_detach W fcp_list assigner_id v is_root_volume
                     update_connections_only s0).2 ->
        Smt (undedicate_device assigner_id f) ∈ trace s0
        \/ (f ∈ fcp_list
            /\ conn (db (detach_decrease fcp_list assigner_id s0).2) f = O)).
Proof.
  split.
  - eexists _, _, _, _.
    split; [by apply UsageRuns.add_first|].
    split. { eapply UsageRuns.add_again; simpl; [apply lookup_insert_eq|..]; simpl; [lia|done]. }
    split. { unfold conn. simpl. rewrite lookup_insert_eq. simpl. lia. }
    split. { eapply UsageRuns.decrease_ok; simpl; [apply lookup_insert_eq|]. simpl. lia. }
    split. { eapply UsageRuns.decrease_ok; simpl; [apply lookup_insert_eq|]. done. }
    unfold conn. simpl. by rewrite lookup_insert_eq.
  - intros W fcp_list v root upd s0 f.
    destruct (Usage.detach_loop_spec assigner_id fcp_list (mk_detach_vars ∅ ∅ None) s0)
      as (vars & s1 & E & (new & Ht & Hnew) & _ & _ & _ & Hfc & _).
    fold (detach_decrease fcp_list assigner_id) in E.
    unfold _detach. rewrite (Run.bind_ret _ _ _ _ _ E), E. cbn [snd].
    assert (Hpre : Smt (undedicate_device assigner_id f) ∈ trace s1 ->
                   Smt (undedicate_device assigner_id f) ∈ trace s0).
    { rewrite Ht. intros [Hin|Hin]%elem_of_app; [|done].
      rewrite Forall_forall in Hnew. destruct (Hnew _ Hin) as (? & ? & _). done. }
    destruct (root || upd); [by intros H; left; apply Hpre|].
    destruct (UsageRuns.detach_rest_undedicates W vars fcp_list assigner_id v s1)
      as (new' & Ht' & Hnew').
    rewrite Ht'. intros [Hin|Hin]%elem_of_app; [|by left; apply Hpre].
    right. rewrite Forall_forall in Hnew'.
    destruct (Hnew' _ Hin f eq_refl) as [Hf H0]. split; [done|].
    rewrite Hfc, decide_True in H0 by done. exact H0.
Qed.

Lemma usage_accounting_witness :
  exists s1 s2 s3 s4,
    add_fcp_for_assigner "1a00" "VM1" Example.reserved_idle = (Ret true, s1)
    /\ add_fcp_for_assigner "1a00" "VM1" s1 = (Ret false, s2)
    /\ conn (db s2) "1a00" = 2%nat
    /\ decrease_fcp_usage "1a00" "VM1" s2 = (Ret 1%nat, s3)
    /\ decrease_fcp_usage "1a00" "VM1" s3 = (Ret O, s4)
    /\ conn (db s4) "1a00" = O.
Proof.
  apply (usage_accounting "1a00" "VM1" Example.reserved_idle
           (mk_rec (Some "VM1") 0 true 0)).
  - vm_compute. reflexivity.
  - reflexivity.
Defined.

(** * [FCPManager.is_reserved] *)

(** C9. [FCPManager.is_reserved] never returns the flag of the store:
    whatever it returns is [None], and for every device with a record,
    reserved or not, it returns [None] and changes nothing. *)
Theorem manager_is_reserved_returns_none (fcp : string) (s : state) :
  (forall v s', is_reserved fcp s = (Ret v, s') -> v = None)
  /\ (forall r, db s !! fcp = Some r -> is_reserved fcp s = (Ret None, s))
  /\ (forall r, db s !! fcp = Some r -> reserved r = true ->
        DbM.is_reserved fcp s = (Ret true, s)
        /\ is_reserved fcp s = (Ret None, s)).
Proof.
  assert (H : forall r, db s !! fcp = Some r ->
                DbM.is_reserved fcp s = (Ret (reserved r), s)).
  { intros r Hr. unfold DbM.is_reserved, db_query, Db.is_reserved, Db.with_rec.
    by rewrite Hr. }
  split; [|split].
  - intros v s'. unfold is_reserved. rewrite Run.bind_run.
    destruct (DbM.is_reserved fcp s) as [[b|e] s1]; [|discriminate].
    by intros [= <- _].
  - intros r Hr. unfold is_reserved. by rewrite (Run.bind_ret _ _ _ _ _ (H r Hr)).
  - intros r Hr Hres. split.
    + by rewrite (H r Hr), Hres.
    + unfold is_reserved. by rewrite (Run.bind_ret _ _ _ _ _ (H r Hr)).
Qed.

(** * WWPN resolution *)

Module Wwpn.
Import Run.

Lemma opt_truthy_some o : opt_truthy o = true -> exists w, o = Some w /\ w <> "".
Proof.
  destruct o as [w|]; [|discriminate]. intros H. exists w. split; [done|].
  by destruct w.
Qed.

(** [wwpn_of] yields no empty WWPN. *)
Lemma wwpn_of_truthy o w : wwpn_of o = Some w -> PyStr.truthy w = true.
Proof.
  unfold wwpn_of. destruct o as [d|]; [|discriminate].
  destruct (opt_truthy (_npiv_port d)) eqn:E1.
  { intros H. rewrite H in E1. exact E1. }
  destruct (opt_truthy (_physical_port d)) eqn:E2; [|discriminate].
  intros H. rewrite H in E2. exact E2.
Qed.

(** One turn of the loop for a device of the pool. *)
Lemma collect_wwpn_in_pool W assigner_id vars fcp_no s d :
  _fcp_pool s !! fcp_no = Some d ->
  collect_wwpn W assigner_id vars fcp_no s
  = match wwpn_of (Some d) with
    | Some w =>
        (Ret (mk_wwpn_vars (vars_wwpns vars ++ [w])
                (<[Some w := _physical_port d]> (phy_virt_wwpn_map vars))
                (all_fcp_pool vars)), s)
    | None =>
        (Ret (mk_wwpn_vars (vars_wwpns vars)
                (<[None := _physical_port d]> (phy_virt_wwpn_map vars))
                (all_fcp_pool vars)),
         log (LogError (no_wwpn_msg fcp_no)) s)
    end.
Proof.
  intros Hd. unfold collect_wwpn, get_wwpn, get_physical_wwpn. mred.
  rewrite Hd. mred. rewrite Hd.
  destruct (wwpn_of (Some d)) as [w|] eqn:Ew;
    [rewrite (wwpn_of_truthy _ _ Ew)|]; mred; cbn [_fcp_pool log]; by rewrite Hd.
Qed.

(** The loop over devices of the pool: it returns, collects the WWPNs
    found and reports every device without one. *)
Lemma collect_loop_in_pool W assigner_id l vars0 s :
  (forall f, f ∈ l -> is_Some (_fcp_pool s !! f)) ->
  exists vars s',
    for_fold l vars0 (collect_wwpn W assigner_id) s = (Ret vars, s')
    /\ db s' = db s /\ _fcp_pool s' = _fcp_pool s
    /\ (exists new, trace s' = (new ++ trace s)%list
          /\ forall e, e ∈ new <->
               exists f, f ∈ l /\ wwpn_of (_fcp_pool s !! f) = None
                         /\ e = LogError (no_wwpn_msg f))
    /\ vars_wwpns vars
       = (vars_wwpns vars0 ++ omap (fun f => wwpn_of (_fcp_pool s !! f)) l)%list.
Proof.
  revert vars0 s. induction l as [|x l IH]; intros vars0 s Hin.
  { exists vars0, s. split; [done|]. repeat split; auto.
    - exists []. split; [done|]. intros e. split; [by intros ?%elem_of_nil|].
      by intros (f & ?%elem_of_nil & _).
    - simpl. by rewrite app_nil_r. }
  destruct (Hin x) as [d Hd]; [by left|].
  cbn [for_fold]. rewrite bind_run, (collect_wwpn_in_pool _ _ _ _ _ _ Hd).
  destruct (wwpn_of (Some d)) as [w|] eqn:Ew.
  - destruct (IH (mk_wwpn_vars (vars_wwpns vars0 ++ [w])
                    (<[Some w := _physical_port d]> (phy_virt_wwpn_map vars0))
                    (all_fcp_pool vars0)) s) as (vars & s' & E & Hdb & Hp & (new & Ht & Hnew) & Hw).
    { intros f Hf. apply Hin. by right. }
    exists vars, s'. split; [exact E|]. repeat split; auto.
    + exists new. split; [done|]. intros e. rewrite Hnew. split.
      * intros (f & Hf & Hn & ->). exists f. split; [by right|done].
      * intros (f & [->|Hf]%elem_of_cons & Hn & ->); [congruence|]. eauto.
    + rewrite Hw. simpl. rewrite Hd, Ew. simpl. by rewrite <- app_assoc.
  - destruct (IH (mk_wwpn_vars (vars_wwpns vars0)
                    (<[None := _physical_port d]> (phy_virt_wwpn_map vars0))
                    (all_fcp_pool vars0)) (log (LogError (no_wwpn_msg x)) s))
      as (vars & s' & E & Hdb & Hp & (new & Ht & Hnew) & Hw).
    { intros f Hf. apply Hin. by right. }
    exists vars, s'. split; [exact E|]. repeat split; auto.
    + exists (new ++ [LogError (no_wwpn_msg x)])%list. rewrite Ht. simpl.
      rewrite <- app_assoc. split; [done|]. intros e.
      rewrite elem_of_app, Hnew, list_elem_of_singleton. simpl. split.
      * intros [(f & Hf & Hn & ->)| ->].
        -- exists f. split; [by right|done].
        -- exists x. split; [by left|]. by rewrite Hd.
      * intros (f & [->|Hf]%elem_of_cons & Hn & ->); [by right|]. left. eauto.
    + rewrite Hw. simpl. by rewrite Hd, Ew.
Qed.

End Wwpn.

(** C8. For a device of the pool [get_wwpn] returns the NPIV port when
    there is one, otherwise the physical port when there is one, otherwise
    [None].  A device that resolves to [None] costs [get_volume_connector]
    no exception: the turn of its loop logs the error "FCP device ... has
    no available WWPN." and adds no WWPN, and once the devices are
    allocated from the pool the loop returns, with that message logged,
    and the connector is assembled from the WWPNs that were found. *)
Theorem wwpn_precedence_and_report (W : world) (assigner : string)
    (fcp_no : string) (d : FCP) (s : state)
    (Hpool : _fcp_pool s !! fcp_no = Some d) :
  get_wwpn fcp_no s
  = (Ret (if opt_truthy (_npiv_port d) then _npiv_port d
          else if opt_truthy (_physical_port d) then _physical_port d
          else None), s)
  /\ (forall npiv, _npiv_port d = Some npiv -> npiv <> "" ->
        get_wwpn fcp_no s = (Ret (Some npiv), s))
  /\ (forall physical,
        opt_truthy (_npiv_port d) = false ->
        _physical_port d = Some physical -> physical <> "" ->
        get_wwpn fcp_no s = (Ret (Some physical), s))
  /\ (opt_truthy (_npiv_port d) = false ->
      opt_truthy (_physical_port d) = false ->
      get_wwpn fcp_no s = (Ret None, s))
  /\ (forall vars,
        get_wwpn fcp_no s = (Ret None, s) ->
        collect_wwpn W assigner vars fcp_no s
        = (Ret (mk_wwpn_vars (vars_wwpns vars)
                  (<[None := _physical_port d]> (phy_virt_wwpn_map vars))
                  (all_fcp_pool vars)),
           log (LogError (no_wwpn_msg fcp_no)) s))
  /\ (forall (reserve : bool) (s0 s1 : state) (fcp_list : list string),
        lpar_name W (trace s0) <> "" ->
        init_fcp W assigner (log (Asked get_lpar_name) s0) = (Ret tt, s1) ->
        get_available_fcp W assigner reserve s1 = (Ret fcp_list, s) ->
        (forall f, f ∈ fcp_list -> is_Some (_fcp_pool s !! f)) ->
        fcp_no ∈ fcp_list ->
        get_wwpn fcp_no s = (Ret None, s) ->
        exists vars s2,
          for_fold fcp_list (mk_wwpn_vars [] ∅ ∅) (collect_wwpn W assigner) s
          = (Ret vars, s2)
          /\ LogError (no_wwpn_msg fcp_no) ∈ trace s2
          /\ db s2 = db s
          /\ vars_wwpns vars = omap (fun f => wwpn_of (_fcp_pool s !! f)) fcp_list
          /\ get_volume_connector W assigner reserve s0
             = match vars_wwpns vars with
               | [] => (Ret empty_connector,
                        log (LogError "No available WWPN found.") s2)
               | wwpns =>
                   (for_ fcp_list (reserve_or_unreserve reserve);;
                    mret (mk_connector fcp_list wwpns (phy_virt_wwpn_map vars)
                            (lpar_name W (trace s0)))) s2
               end).
Proof.
  assert (Hget : get_wwpn fcp_no s = (Ret (wwpn_of (Some d)), s)).
  { unfold get_wwpn, gets. by rewrite Hpool. }
  split; [exact Hget|]. split; [|split; [|split; [|split]]].
  - intros npiv Hn Hne. rewrite Hget. simpl. rewrite Hn. simpl.
    by destruct npiv.
  - intros physical Hn Hp Hne. rewrite Hget. simpl. rewrite Hn, Hp. simpl.
    by destruct physical.
  - intros Hn Hp. rewrite Hget. simpl. by rewrite Hn, Hp.
  - intros vars Hnone. rewrite Hget in Hnone.
    assert (Hn : wwpn_of (Some d) = None) by congruence.
    rewrite (Wwpn.collect_wwpn_in_pool _ _ _ _ _ _ Hpool). by rewrite Hn.
  - intros reserve s0 s1 fcp_list Hhost Hinit Havail Hin Hfcp Hnone.
    rewrite Hget in Hnone.
    assert (Hn : wwpn_of (Some d) = None) by congruence.
    destruct (Wwpn.collect_loop_in_pool W assigner fcp_list (mk_wwpn_vars [] ∅ ∅) s Hin)
      as (vars & s2 & E & Hdb & Hp & (new & Ht & Hnew) & Hw).
    exists vars, s2. split; [exact E|]. split; [|split; [done|split; [done|]]].
    { rewrite Ht. apply elem_of_app. left. apply Hnew. exists fcp_no.
      by rewrite Hpool. }
    unfold get_volume_connector. rewrite Run.bind_run.
    unfold ask_lpar_name at 1. cbv beta iota.
    destruct (String.eqb_spec (lpar_name W (trace s0)) "") as [|_]; [done|].
    rewrite (Run.bind_ret _ _ _ _ _ Hinit), (Run.bind_ret _ _ _ _ _ Havail).
    destruct fcp_list as [|x l]; [by apply elem_of_nil in Hfcp|].
    rewrite (Run.bind_ret _ _ _ _ _ E).
    destruct (vars_wwpns vars); reflexivity.
Qed.

Lemma wwpn_precedence_and_report_witness :
  get_wwpn "1a01" Example.pooled = (Ret None, Example.pooled).
Proof.
  apply (wwpn_precedence_and_report Example.installation "VM1" "1a01"
           (mk_FCP (Some "1a01") (Some "free") None (Some "59") None)
           Example.pooled).
  - vm_compute. reflexivity.
  - reflexivity.
  - reflexivity.
Defined.

(** * The failure branch of [_detach] *)

Module Keeps.
Import Run.

Lemma keeps_ret {A} (a : A) : keeps_store (mret a).
Proof. by intros s. Qed.

Lemma keeps_raise {A} e : keeps_store (raise (A := A) e).
Proof. by intros s. Qed.

Lemma keeps_emit e : keeps_store (emit e).
Proof. by intros s. Qed.

Lemma keeps_smt W c : keeps_store (smt W c).
Proof. intros s. unfold smt. by destruct (smt_result W (trace s) c). Qed.

Lemma keeps_ask_userid_exist W u : keeps_store (ask_userid_exist W u).
Proof. by intros s. Qed.

Lemma keeps_bind {A B} (m : M A) (k : A -> M B) :
  keeps_store m -> (forall a, keeps_store (k a)) -> keeps_store (m ≫= k).
Proof.
  intros Hm Hk s. rewrite bind_run. destruct (Hm s) as (H1 & H2 & H3).
  destruct (m s) as [[a|e] s1]; simpl in *; [|done].
  destruct (Hk a s1) as (H1' & H2' & H3'). repeat split; congruence.
Qed.


Lemma keeps_for {A} (l : list A) (body : A -> M unit) :
  (forall x, keeps_store (body x)) -> keeps_store (for_ l body).
Proof.
  intros H. induction l as [|x l IH]; simpl; [apply keeps_ret|].
  apply keeps_bind; [apply H|]. by intros _.
Qed.

Lemma keeps_detach_body W vars fcp_list assigner_id v :
  keeps_store (detach_remove_and_undedicate W vars fcp_list assigner_id v).
Proof.
  unfold detach_remove_and_undedicate. apply keeps_bind.
  - destruct (last_connections vars); [apply keeps_smt|apply keeps_raise].
  - intros _. apply keeps_for. intros x.
    destruct (_ =? _)%nat; [apply keeps_smt|apply keeps_ret].
Qed.

Lemma keeps_attach_body W status fcp_list assigner_id v :
  keeps_store (attach_dedicate_and_configure W status fcp_list assigner_id v).
Proof.
  unfold attach_dedicate_and_configure. apply keeps_bind.
  - apply keeps_for. intros x.
    destruct (status !! x) as [[]|]; [apply keeps_smt|apply keeps_ret|apply keeps_raise].
  - intros _. apply keeps_smt.
Qed.


End Keeps.

Module DetachRollback.
Import Run Usage.



End DetachRollback.




(** * Synchronisation of the store with the pool *)

Module Sync.
Import Run.

Lemma for_app {A} (l1 l2 : list A) (body : A -> M unit) s :
  for_ (l1 ++ l2) body s = (for_ l1 body;; for_ l2 body) s.
Proof.
  revert s. induction l1 as [|x l1 IH]; intros s; simpl.
  - reflexivity.
  - rewrite !bind_run. destruct (body x s) as [[[]|e] s1]; [|done].
    rewrite IH. by rewrite bind_run.
Qed.

Lemma for_fmap {A B} (g : A -> B) (l : list A) (body : B -> M unit) s :
  for_ (g <$> l) body s = for_ l (fun x => body (g x)) s.
Proof.
  revert s. induction l as [|x l IH]; intros s; simpl; [done|].
  rewrite !bind_run. destruct (body (g x) s) as [[[]|e] s1]; [|done]. apply IH.
Qed.

(** The nested loops of lines 554-564 run the turns of [sync_turns]. *)
Lemma sync_loop_turns (m : PyDict.dict (gset string)) s :
  for_ (PyDict.items m)
       (fun '(path_no, fcp_list) => for_ (elements fcp_list) (_sync_one path_no)) s
  = for_ (sync_turns m) (fun '(path_no, fcp) => _sync_one path_no fcp) s.
Proof.
  revert s. unfold PyDict.items, sync_turns.
  induction m as [|[p S] m IH]; intros s; [done|].
  cbn [for_ mbind list_bind]. rewrite for_app, !bind_run, for_fmap.
  destruct (for_ (elements S) _ s) as [[[]|e] s1]; [|done]. apply IH.
Qed.

Lemma elem_of_sync_turns (m : PyDict.dict (gset string)) p f :
  (p, f) ∈ sync_turns m <-> exists S, (p, S) ∈ m /\ f ∈ S.
Proof.
  unfold sync_turns. rewrite list_elem_of_bind. split.
  - intros ([q S] & Hin & Hm). apply list_elem_of_fmap in Hin as (x & [= -> ->] & Hx).
    exists S. split; [done|]. by apply elem_of_elements.
  - intros (S & Hm & Hf). exists (p, S). split; [|done].
    apply list_elem_of_fmap. exists f. split; [done|]. by apply elem_of_elements.
Qed.

Lemma sync_turns_nodup (m : PyDict.dict (gset string)) :
  paths_disjoint m -> NoDup (sync_turns m).*2.
Proof.
  induction m as [|[p S] m IH]; intros Hdisj; [constructor|].
  unfold sync_turns. cbn [mbind list_bind]. fold (sync_turns m).
  rewrite fmap_app. apply NoDup_app. split; [|split].
  - rewrite <- list_fmap_compose. simpl. rewrite list_fmap_id. apply NoDup_elements.
  - intros f Hf Hf'. rewrite <- list_fmap_compose in Hf. simpl in Hf.
    rewrite list_fmap_id in Hf. apply elem_of_elements in Hf.
    apply list_elem_of_fmap in Hf' as ([q f'] & -> & Hin).
    apply elem_of_sync_turns in Hin as (T & HT & HfT). simpl in *.
    apply list_elem_of_lookup in HT as [j Hj].
    assert (S ## T) as Hd by (apply (Hdisj 0%nat (Datatypes.S j) p q); done).
    set_solver.
  - apply IH. intros i j p' q' S' T' Hij Hi Hj.
    apply (Hdisj (Datatypes.S i) (Datatypes.S j) p' q'); [lia|done|done].
Qed.

Lemma in_pool_same s s' f : _fcp_pool s' = _fcp_pool s -> in_pool s' f = in_pool s f.
Proof. unfold in_pool. by intros ->. Qed.

(** One turn of the first loop, on a record of the store. *)
Lemma orphan_turn (kr : string * fcp_rec) s :
  is_Some (db s !! kr.1) ->
  exists s',
    (known ← gets (fun s => in_pool s kr.1);
     if negb known then _report_orphan_fcp kr.1 else mret tt) s = (Ret tt, s')
    /\ _fcp_pool s' = _fcp_pool s
    /\ _fcp_path_mapping s' = _fcp_path_mapping s
    /\ db s' = (if unreserved_orphan s kr.1 then delete kr.1 (db s) else db s)
    /\ (unreserved_orphan s kr.1 = false -> s' = s).
Proof.
  destruct kr as [k r0]. cbn [fst]. intros [r Hr].
  unfold unreserved_orphan, _report_orphan_fcp, DbM.is_reserved,
    DbM.delete, db_exec, Db.is_reserved, Db.delete, Db.with_rec. mred.
  destruct (in_pool s k); cbn [negb andb].
  { exists s. by repeat split. }
  rewrite Hr. destruct (reserved r); cbn [negb].
  { exists s. by repeat split. }
  cbn [db log]. rewrite Hr. eexists. split; [reflexivity|]. by repeat split.
Qed.

(** The first loop of [_sync_db_fcp_list] over records of the store. *)
Lemma orphan_loop (l : list (string * fcp_rec)) s :
  NoDup l.*1 ->
  (forall k, k ∈ l.*1 -> is_Some (db s !! k)) ->
  exists s',
    for_ l (fun fcp_rec =>
      known ← gets (fun s => in_pool s fcp_rec.1);
      if negb known then _report_orphan_fcp fcp_rec.1 else mret tt) s = (Ret tt, s')
    /\ _fcp_pool s' = _fcp_pool s
    /\ _fcp_path_mapping s' = _fcp_path_mapping s
    /\ (forall k, db s' !! k
                  = if bool_decide (k ∈ l.*1) && unreserved_orphan s k then None
                    else db s !! k)
    /\ ((forall k, k ∈ l.*1 -> unreserved_orphan s k = false) -> s' = s).
Proof.
  revert s. induction l as [|kr l IH]; intros s Hnd Hin.
  { exists s. split; [done|]. repeat split; auto. }
  rewrite fmap_cons in Hnd. apply NoDup_cons in Hnd as [Hk Hnd].
  destruct (orphan_turn kr s) as (s1 & E1 & Hp1 & Hm1 & Hdb1 & Hsame1).
  { apply Hin. rewrite fmap_cons. by left. }
  assert (Hother : forall k, k <> kr.1 -> db s1 !! k = db s !! k).
  { intros k Hne. rewrite Hdb1. destruct (unreserved_orphan s kr.1); [|done].
    by rewrite lookup_delete_ne. }
  assert (Huo : forall k, k <> kr.1 -> unreserved_orphan s1 k = unreserved_orphan s k).
  { intros k Hne. unfold unreserved_orphan.
    by rewrite (in_pool_same _ _ _ Hp1), (Hother k Hne). }
  destruct (IH s1 Hnd) as (s' & E' & Hp & Hm & Hdb & Hsame).
  { intros k Hkin. rewrite Hother; [apply Hin; rewrite fmap_cons; by right|].
    intros ->. done. }
  exists s'. cbn [for_]. rewrite bind_run, E1. split; [exact E'|].
  split; [congruence|]. split; [congruence|]. split.
  - intros k. rewrite Hdb, fmap_cons. destruct (decide (k = kr.1)) as [->|Hne].
    + rewrite (bool_decide_eq_false_2 (kr.1 ∈ l.*1)) by done. cbn [andb].
      rewrite (bool_decide_eq_true_2 (kr.1 ∈ kr.1 :: l.*1)) by left. cbn [andb].
      rewrite Hdb1. destruct (unreserved_orphan s kr.1); [|done].
      apply lookup_delete_eq.
    + rewrite (Huo k Hne), (Hother k Hne).
      destruct (decide (k ∈ l.*1)) as [Hkl|Hkl].
      * rewrite !bool_decide_eq_true_2; [done|by right|done].
      * rewrite !bool_decide_eq_false_2; [done| |done].
        intros [?|?]%elem_of_cons; done.
  - intros Hall. assert (s1 = s) as ->.
    { apply Hsame1, Hall. rewrite fmap_cons. by left. }
    apply Hsame. intros k Hkin. apply Hall. rewrite fmap_cons. by right.
Qed.

Lemma settled_same s s' p f :
  _fcp_pool s' = _fcp_pool s -> db s' !! f = db s !! f ->
  settled s p f -> settled s' p f.
Proof.
  unfold settled. intros Hp Hd H. rewrite (in_pool_same _ _ _ Hp), Hp, Hd. exact H.
Qed.

(** One turn of the second loop. *)
Lemma sync_one_run p f s :
  exists s',
    _sync_one p f s = (Ret tt, s')
    /\ _fcp_pool s' = _fcp_pool s
    /\ _fcp_path_mapping s' = _fcp_path_mapping s
    /\ (forall k, k <> f -> db s' !! k = db s !! k)
    /\ settled s' p f
    /\ (settled s p f -> s' = s)
    /\ (forall r, db s !! f = Some r ->
          exists r', db s' !! f = Some r'
                     /\ connections r' = connections r /\ reserved r' = reserved r)
    /\ (db s !! f = None -> forall r', db s' !! f = Some r' ->
          connections r' = O /\ reserved r' = false).
Proof.
  unfold _sync_one, DbM.get_from_fcp, Db.get_from_fcp, _add_fcp, ignore_errors,
    try_except, pool_get, DbM.new, DbM.update_path_of_fcp, db_exec, Db.new,
    Db.update_path_of_fcp, Db.update, Db.with_rec, settled. mred.
  destruct (in_pool s f) eqn:Hin.
  2:{ exists s. split; [done|]. repeat split; auto; try congruence. eauto. }
  destruct (db s !! f) as [r|] eqn:Hr.
  - destruct (Nat.eqb_spec (path r) p) as [Hp|Hp]; cbn [negb].
    + exists s. split; [done|]. repeat split; auto; try congruence.
      * by rewrite Hr.
      * intros r0 [= <-]. eauto.
    + cbn [db log]. rewrite Hr. eexists. split; [reflexivity|]. cbn.
      repeat split; auto; try congruence.
      * intros k Hk. by rewrite lookup_insert_ne.
      * intros _. by rewrite lookup_insert_eq.
      * intros H. specialize (H eq_refl). done.
      * intros r0 [= <-]. rewrite lookup_insert_eq. eauto.
  - destruct (_fcp_pool s !! f) as [d|] eqn:Hd.
    + case_bool_decide as Hfree.
      * cbn [db log]. rewrite Hr. eexists. split; [reflexivity|]. cbn.
        repeat split; auto; try congruence.
        -- intros k Hk. by rewrite lookup_insert_ne.
        -- intros _. by rewrite lookup_insert_eq.
        -- intros H. specialize (H eq_refl). done.
        -- rewrite lookup_insert_eq in H0. by injection H0 as <-.
        -- rewrite lookup_insert_eq in H0. by injection H0 as <-.
      * exists s. split; [done|]. repeat split; auto; try congruence.
        by rewrite Hr, Hd.
    + exists s. split; [done|]. repeat split; auto; try congruence.
      by rewrite Hr, Hd.
Qed.

(** The second loop of [_sync_db_fcp_list]. *)
Lemma sync_loop (l : list (nat * string)) s :
  exists s',
    for_ l (fun '(path_no, fcp) => _sync_one path_no fcp) s = (Ret tt, s')
    /\ _fcp_pool s' = _fcp_pool s
    /\ _fcp_path_mapping s' = _fcp_path_mapping s
    /\ (forall k, in_pool s k = false -> db s' !! k = db s !! k)
    /\ (forall k, k ∉ l.*2 -> db s' !! k = db s !! k)
    /\ (forall k r, db s !! k = Some r ->
          exists r', db s' !! k = Some r'
                     /\ connections r' = connections r /\ reserved r' = reserved r)
    /\ (forall k, db s !! k = None -> forall r', db s' !! k = Some r' ->
          connections r' = O /\ reserved r' = false)
    /\ (NoDup l.*2 -> forall p f, (p, f) ∈ l -> settled s' p f)
    /\ ((forall p f, (p, f) ∈ l -> settled s p f) -> s' = s).
Proof.
  revert s. induction l as [|[p f] l IH]; intros s.
  { exists s. split; [done|]. repeat split; auto; try congruence.
    - eauto.
    - intros _ p f Hin. by apply elem_of_nil in Hin. }
  destruct (sync_one_run p f s) as (s1 & E1 & Hp1 & Hm1 & Hne1 & Hset1 & Hsame1 & Hsome1 & Hnone1).
  destruct (IH s1) as (s' & E' & Hp & Hm & Hout & Hnin & Hsome & Hnone & Hset & Hsame).
  exists s'. cbn [for_]. rewrite bind_run, E1. split; [exact E'|].
  split; [congruence|]. split; [congruence|].
  split; [|split; [|split; [|split; [|split]]]].
  - intros k Hk. rewrite Hout by (by rewrite (in_pool_same _ _ _ Hp1)).
    destruct (decide (k = f)) as [->|Hkf]; [|by apply Hne1].
    assert (s1 = s) as -> by (apply Hsame1; unfold settled; congruence). done.
  - intros k Hk. rewrite fmap_cons in Hk. apply not_elem_of_cons in Hk as [Hkf Hk].
    rewrite Hnin by done. by apply Hne1.
  - intros k r Hr. destruct (decide (k = f)) as [->|Hkf].
    + destruct (Hsome1 r Hr) as (r1 & Hr1 & Hc1 & Hres1).
      destruct (Hsome f r1 Hr1) as (r' & Hr' & Hc' & Hres'). exists r'.
      split; [done|]. split; congruence.
    + apply Hsome. by rewrite Hne1.
  - intros k Hk r' Hr'. destruct (decide (k = f)) as [->|Hkf].
    + destruct (db s1 !! f) as [r1|] eqn:Hr1.
      * destruct (Hnone1 Hk r1 eq_refl) as [Hc1 Hres1].
        destruct (Hsome f r1 Hr1) as (r2 & Hr2 & Hc2 & Hres2).
        rewrite Hr' in Hr2. injection Hr2 as <-. split; congruence.
      * eapply Hnone; [exact Hr1|exact Hr'].
    + eapply Hnone; [|exact Hr']. by rewrite Hne1.
  - intros Hnd q g Hin. rewrite fmap_cons in Hnd. apply NoDup_cons in Hnd as [Hf Hnd].
    apply elem_of_cons in Hin as [[= -> ->]|Hin]; [|by apply Hset].
    apply (settled_same s1); [done|by apply Hnin|done].
  - intros Hall. assert (s1 = s) as ->. { apply Hsame1, Hall. by left. }
    apply Hsame. intros q g Hin. apply Hall. by right.
Qed.

(** [_sync_db_fcp_list] returns; it leaves the pool as it is, and the
    count and the flag of every record that it keeps. *)
Lemma sync_run s :
  exists s',
    _sync_db_fcp_list s = (Ret tt, s')
    /\ _fcp_pool s' = _fcp_pool s
    /\ _fcp_path_mapping s' = _fcp_path_mapping s
    /\ (forall k r r', db s !! k = Some r -> db s' !! k = Some r' ->
          connections r' = connections r /\ reserved r' = reserved r)
    /\ (forall k r', db s !! k = None -> db s' !! k = Some r' ->
          connections r' = O /\ reserved r' = false)
    /\ (forall k, unreserved_orphan s' k = false)
    /\ (paths_disjoint (_fcp_path_mapping s) ->
        forall p f, (p, f) ∈ sync_turns (_fcp_path_mapping s) -> settled s' p f)
    /\ ((forall k, unreserved_orphan s k = false) ->
        (forall p f, (p, f) ∈ sync_turns (_fcp_path_mapping s) -> settled s p f) ->
        s' = s).
Proof.
  destruct (orphan_loop (Db.get_all (db s)) s) as (sA & EA & HpA & HmA & HdbA & HsameA).
  { apply NoDup_fst_map_to_list. }
  { intros k Hk. apply list_elem_of_fmap in Hk as ([k' r] & -> & Hin).
    apply elem_of_map_to_list in Hin. eauto. }
  destruct (sync_loop (sync_turns (_fcp_path_mapping sA)) sA)
    as (s' & E' & Hp & Hm & Hout & Hnin & Hsome & Hnone & Hset & Hsame).
  exists s'. split.
  { unfold _sync_db_fcp_list, DbM.get_all. rewrite bind_run. unfold gets at 1.
    cbv beta iota. rewrite bind_run, EA. cbv beta iota. rewrite bind_run.
    unfold gets at 1. cbv beta iota. rewrite sync_loop_turns. exact E'. }
  assert (HuoA : forall k, unreserved_orphan sA k = false).
  { intros k. destruct (unreserved_orphan s k) eqn:Huo.
    - unfold unreserved_orphan. rewrite HdbA, Huo.
      rewrite bool_decide_eq_true_2; [by rewrite andb_false_r|].
      unfold unreserved_orphan in Huo. apply andb_true_iff in Huo as [_ Huo].
      destruct (db s !! k) as [r|] eqn:Hr; [|done].
      apply list_elem_of_fmap. exists (k, r). split; [done|].
      by apply elem_of_map_to_list.
    - unfold unreserved_orphan in *. rewrite (in_pool_same _ _ _ HpA), HdbA.
      unfold unreserved_orphan. rewrite Huo. by rewrite andb_false_r. }
  split; [congruence|]. split; [congruence|].
  split; [|split; [|split; [|split]]].
  - intros k r r' Hr Hr'. destruct (db sA !! k) as [rA|] eqn:HrA.
    + assert (rA = r) as ->.
      { rewrite HdbA in HrA. destruct (_ && _); congruence. }
      destruct (Hsome k r HrA) as (r2 & Hr2 & ? & ?).
      rewrite Hr' in Hr2. injection Hr2 as <-. by split.
    + assert (in_pool sA k = false) as Hin.
      { rewrite HdbA in HrA. destruct (bool_decide _ && unreserved_orphan s k) eqn:Hb;
          [|congruence].
        apply andb_true_iff in Hb as [_ Hb]. unfold unreserved_orphan in Hb.
        apply andb_true_iff in Hb as [Hb _]. rewrite (in_pool_same _ _ _ HpA).
        by destruct (in_pool s k). }
      rewrite (Hout k Hin), HrA in Hr'. done.
  - intros k r' Hr Hr'. eapply Hnone; [|exact Hr'].
    rewrite HdbA, Hr. by destruct (_ && _).
  - intros k. specialize (HuoA k). unfold unreserved_orphan in *.
    rewrite (in_pool_same _ _ _ Hp). destruct (in_pool sA k) eqn:Hin; [done|].
    by rewrite (Hout k Hin).
  - intros Hdisj p f Hin. rewrite HmA in Hset. apply Hset; [|done].
    by apply sync_turns_nodup.
  - intros Huo Hall. assert (sA = s) as ->. { apply HsameA. intros k _. apply Huo. }
    apply Hsame. exact Hall.
Qed.

End Sync.

(** C3, counterexample: with the device [1a00] on two paths the first
    run creates its record for path 0 and moves it to path 1, and the
    second run moves it to path 0 and back. *)
Lemma second_sync_writes : ~ second_sync_never_writes.
Proof.
  intros H.
  pose (r1 := _sync_db_fcp_list Example.overlapping).
  pose (r2 := _sync_db_fcp_list r1.2).
  assert (Ht : trace r2.2 = trace r1.2).
  { apply (H Example.overlapping r1.2 r2.2 r1.1 r2.1); apply surjective_pairing. }
  vm_compute in Ht. discriminate.
Qed.

(** C3, amended. When no device is on two paths of the mapping, the
    synchronisation returns, and a second run right after it returns and
    leaves the state as it is: the store is not changed and no updating
    method of the store is called. *)
Theorem sync_idempotent (s : state)
    (Hdisjoint : paths_disjoint (_fcp_path_mapping s)) :
  exists s1,
    _sync_db_fcp_list s = (Ret tt, s1)
    /\ _sync_db_fcp_list s1 = (Ret tt, s1).
Proof.
  destruct (Sync.sync_run s) as (s1 & E1 & Hp1 & Hm1 & _ & _ & Huo1 & Hset1 & _).
  exists s1. split; [exact E1|].
  destruct (Sync.sync_run s1) as (s2 & E2 & _ & _ & _ & _ & _ & _ & Hsame).
  rewrite E2. f_equal. apply Hsame; [exact Huo1|].
  rewrite Hm1. by apply Hset1.
Qed.

Lemma sync_idempotent_witness :
  exists s1,
    _sync_db_fcp_list Example.unsynced = (Ret tt, s1)
    /\ _sync_db_fcp_list s1 = (Ret tt, s1).
Proof.
  apply sync_idempotent.
  assert (Hm : _fcp_path_mapping Example.unsynced
               = [(0%nat, {[ "1a00"; "1a01" ]}); (1%nat, {[ "1b00" ]})])
    by (vm_compute; reflexivity).
  rewrite Hm. intros i j p q S T Hij Hi Hj.
  destruct i as [|[|i]], j as [|[|j]]; simpl in Hi, Hj;
    try congruence; try (by destruct i); try (by destruct j);
    injection Hi as <- <-; injection Hj as <- <-;
    apply (bool_decide_unpack _); vm_compute; exact I.
Defined.

(** * The rollback of [_attach] *)

Module AttachRollback.
Import Run Usage.

Lemma keeps_db_ret {A} (a : A) : keeps_db (mret a).
Proof. by intros s. Qed.

Lemma keeps_db_raise {A} e : keeps_db (raise (A := A) e).
Proof. by intros s. Qed.

Lemma keeps_db_lift {A} (o : outcome A) : keeps_db (lift o).
Proof. by intros s. Qed.

Lemma keeps_db_modify (f : state -> state) :
  (forall s, db (f s) = db s) -> keeps_db (modify f).
Proof. intros H s. apply H. Qed.

Lemma keeps_db_ask_fcp_info W u st : keeps_db (ask_fcp_info W u st).
Proof. by intros s. Qed.

Lemma keeps_db_bind {A B} (m : M A) (k : A -> M B) :
  keeps_db m -> (forall a, keeps_db (k a)) -> keeps_db (m ≫= k).
Proof.
  intros Hm Hk s. rewrite bind_run. specialize (Hm s).
  destruct (m s) as [[a|e] s1]; simpl in *; [|done]. by rewrite Hk.
Qed.

Lemma keeps_db_for {A} (l : list A) (body : A -> M unit) :
  (forall x, keeps_db (body x)) -> keeps_db (for_ l body).
Proof.
  intros H. induction l as [|x l IH]; simpl; [apply keeps_db_ret|].
  apply keeps_db_bind; [apply H|]. by intros _.
Qed.

Lemma init_fcp_pool_keeps_db W fcp_list assigner :
  keeps_db (_init_fcp_pool W fcp_list assigner).
Proof.
  unfold _init_fcp_pool. apply keeps_db_bind; [apply keeps_db_lift|].
  intros [|m]; [apply keeps_db_raise|].
  apply keeps_db_bind; [by apply keeps_db_modify|]. intros _.
  apply keeps_db_bind.
  { unfold _get_all_fcp_info, _list_fcp_details.
    apply keeps_db_bind; [apply keeps_db_ask_fcp_info|]. intros free.
    apply keeps_db_bind; [apply keeps_db_ask_fcp_info|]. intros active.
    apply keeps_db_ret. }
  intros info. apply keeps_db_for. intros n. unfold _init_fcp_pool_step.
  destruct (_dev_no _) as [dev_no|]; [|apply keeps_db_ret].
  case_bool_decide; [by apply keeps_db_modify|apply keeps_db_ret].
Qed.

(** [init_fcp] keeps the count and the flag of every record it keeps, and
    the records it adds are free. *)
Lemma init_fcp_usage W assigner s sA :
  init_fcp W assigner s = (Ret tt, sA) ->
  (forall k r r', db s !! k = Some r -> db sA !! k = Some r' ->
     connections r' = connections r /\ reserved r' = reserved r)
  /\ (forall k r', db s !! k = None -> db sA !! k = Some r' ->
        connections r' = O /\ reserved r' = false).
Proof.
  unfold init_fcp. destruct (String.eqb _ ""). 
  { intros [= <-]. split; [|congruence]. intros k r r' H1 H2.
    rewrite H1 in H2. by injection H2 as <-. }
  rewrite bind_run.
  pose proof (init_fcp_pool_keeps_db W (CONF_volume_fcp_list W) assigner s) as Hk.
  destruct (_init_fcp_pool _ _ _ s) as [[[]|e] sP]; [|discriminate]. simpl in Hk.
  destruct (Sync.sync_run sP) as (s' & E & _ & _ & Hsome & Hnone & _).
  rewrite E. intros [= <-]. rewrite <- Hk. split; [exact Hsome|].
  intros k r' H1 H2. by eapply Hnone.
Qed.

(** A successful [add_fcp_for_assigner]. *)
Lemma add_run fcp assigner s new s' :
  add_fcp_for_assigner fcp assigner s = (Ret new, s') ->
  exists r r',
    db s !! fcp = Some r /\ db s' = <[fcp := r']> (db s)
    /\ connections r' = S (connections r) /\ reserved r' = reserved r.
Proof.
  unfold add_fcp_for_assigner, DbM.get_connections_from_fcp, DbM.assign,
    DbM.increase_usage_by_assigner, db_exec, Db.get_connections_from_fcp,
    Db.assign, Db.increase_usage_by_assigner, Db.update, Db.with_rec. mred.
  destruct (db s !! fcp) as [r|] eqn:Hr; [|discriminate].
  destruct (connections r =? 0)%nat; cbn [db log]; rewrite Hr.
  - intros [= <- <-]. eexists _, _. split; [done|]. by repeat split.
  - destruct (Db.owned_by assigner r); [|discriminate].
    intros [= <- <-]. eexists _, _. split; [done|]. by repeat split.
Qed.

(** The loop of [_attach] that registers the usage, when it succeeds. *)
Lemma add_loop assigner l (status0 status : gmap string bool) s s' :
  for_fold l status0 (fun fcp_status fcp =>
    new ← add_fcp_for_assigner fcp assigner;
    mret (<[fcp := new]> fcp_status)) s = (Ret status, s') ->
  (forall k, k ∈ l -> is_Some (db s !! k))
  /\ (forall k r, db s !! k = Some r ->
        exists r', db s' !! k = Some r'
                   /\ connections r' = (connections r + occ k l)%nat
                   /\ reserved r' = reserved r)
  /\ (forall k, k ∈ l \/ is_Some (status0 !! k) -> is_Some (status !! k)).
Proof.
  revert status0 s. induction l as [|x l IH]; intros status0 s.
  { intros [= <- <-]. split; [by intros k ?%elem_of_nil|]. split.
    - intros k r Hr. exists r. simpl. split; [done|]. split; [lia|done].
    - intros k [?%elem_of_nil|?]; done. }
  cbn [for_fold]. rewrite !bind_run.
  destruct (add_fcp_for_assigner x assigner s) as [[new|e] s1] eqn:E1; [|discriminate].
  mred. intros E. apply add_run in E1 as (r & r1 & Hr & Hdb1 & Hc1 & Hres1).
  apply IH in E as (Hin & Hsome & Hstat).
  split; [|split].
  - intros k [->|Hk]%elem_of_cons; [eauto|].
    specialize (Hin k Hk). rewrite Hdb1 in Hin.
    destruct (decide (x = k)) as [->|Hne]; [eauto|]. by rewrite lookup_insert_ne in Hin.
  - intros k r0 Hr0. rewrite occ_cons. destruct (String.eqb_spec x k) as [->|Hne].
    + rewrite Hr in Hr0. injection Hr0 as <-.
      destruct (Hsome k r1) as (r' & Hr' & Hc' & Hres').
      { rewrite Hdb1. apply lookup_insert_eq. }
      exists r'. split; [done|]. split; [lia|congruence].
    + destruct (Hsome k r0) as (r' & Hr' & Hc' & Hres').
      { rewrite Hdb1. by rewrite lookup_insert_ne. }
      exists r'. split; [done|]. split; [lia|done].
  - intros k Hk. apply Hstat. destruct (decide (x = k)) as [->|Hne].
    + right. rewrite lookup_insert_eq. eauto.
    + destruct Hk as [[?|?]%elem_of_cons|?]; [congruence|by left|].
      right. by rewrite lookup_insert_ne.
Qed.

(** The first loop of [_rollback_dedicated_fcp]. *)
Lemma rollback_decrease_loop W assigner l s :
  exists s',
    for_ l (fun fcp =>
      ignore_errors (
        connections ← decrease_fcp_usage fcp assigner;
        if (connections =? 0)%nat then _undedicate_fcp W fcp assigner
        else mret tt)) s = (Ret tt, s')
    /\ (forall k, db s' !! k = lowered (occ k l) <$> db s !! k).
Proof.
  revert s. induction l as [|x l IH]; intros s.
  { exists s. split; [done|]. intros k. simpl.
    destruct (db s !! k); simpl; by rewrite ?lowered_0. }
  destruct (decrease_usage_run x s) as (o & s1 & E1 & _ & _ & _ & Hdb1 & _).
  assert (exists s2, ignore_errors (
            connections ← decrease_fcp_usage x assigner;
            if (connections =? 0)%nat then _undedicate_fcp W x assigner
            else mret tt) s = (Ret tt, s2) /\ db s2 = db s1) as (s2 & E2 & Hdb2).
  { unfold ignore_errors, try_except, decrease_fcp_usage. rewrite bind_run, E1.
    destruct o as [n|e]; [|eauto].
    destruct (n =? 0)%nat; [|eauto].
    pose proof (Keeps.keeps_smt W (undedicate_device assigner x) s1) as (Hk & _).
    unfold _undedicate_fcp.
    destruct (smt W _ s1) as [[[]|e] s2]; eauto. }
  destruct (IH s2) as (s' & E' & Hdb').
  exists s'. cbn [for_]. rewrite bind_run, E2. split; [exact E'|].
  intros k. rewrite Hdb', Hdb2, Hdb1, occ_cons.
  destruct (db s !! k) as [r|]; [|done]. simpl. by rewrite lowered_lowered.
Qed.

(** The second loop of [_rollback_dedicated_fcp], over devices with a
    record. *)
Lemma rollback_unreserve_loop l s :
  (forall k, k ∈ l -> is_Some (db s !! k)) ->
  exists s',
    for_ l (fun fcp =>
      connections ← DbM.get_connections_from_fcp fcp;
      if (connections =? 0)%nat then DbM.unreserve fcp else mret tt) s = (Ret tt, s')
    /\ (forall k r, db s !! k = Some r ->
          exists r', db s' !! k = Some r'
            /\ connections r' = connections r
            /\ reserved r' = (if bool_decide (k ∈ l) && (connections r =? 0)%nat
                              then false else reserved r)).
Proof.
  revert s. induction l as [|x l IH]; intros s Hin.
  { exists s. split; [done|]. intros k r Hr. exists r.
    rewrite bool_decide_eq_false_2 by (by intros ?%elem_of_nil). by repeat split. }
  destruct (Hin x) as [rx Hx]; [by left|].
  assert (exists s1,
            (connections ← DbM.get_connections_from_fcp x;
             if (connections =? 0)%nat then DbM.unreserve x else mret tt) s
            = (Ret tt, s1)
            /\ db s1 = (if (connections rx =? 0)%nat
                        then <[x := Db.set_reserved false rx]> (db s) else db s))
    as (s1 & E1 & Hdb1).
  { unfold DbM.get_connections_from_fcp, DbM.unreserve, db_exec,
      Db.get_connections_from_fcp, Db.unreserve, Db.update, Db.with_rec. mred.
    rewrite Hx. destruct (connections rx =? 0)%nat; [|eauto].
    cbn [db log]. rewrite Hx. eauto. }
  assert (Hstep : forall k r, db s !! k = Some r ->
            exists r1, db s1 !! k = Some r1 /\ connections r1 = connections r
              /\ reserved r1 = (if bool_decide (k = x) && (connections r =? 0)%nat
                                then false else reserved r)).
  { intros k r Hr. rewrite Hdb1. destruct (decide (k = x)) as [->|Hne].
    - rewrite Hx in Hr. injection Hr as <-. rewrite bool_decide_eq_true_2 by done.
      cbn [andb]. destruct (connections rx =? 0)%nat.
      + rewrite lookup_insert_eq. eauto.
      + eauto.
    - rewrite bool_decide_eq_false_2 by done. cbn [andb].
      destruct (connections rx =? 0)%nat; [rewrite lookup_insert_ne by done|]; eauto. }
  destruct (IH s1) as (s' & E' & Hdb').
  { intros k Hk. destruct (Hin k) as [r Hr]; [by right|].
    destruct (Hstep k r Hr) as (r1 & Hr1 & _). eauto. }
  exists s'. cbn [for_]. rewrite bind_run, E1. split; [exact E'|].
  intros k r Hr. destruct (Hstep k r Hr) as (r1 & Hr1 & Hc1 & Hres1).
  destruct (Hdb' k r1 Hr1) as (r' & Hr' & Hc' & Hres').
  exists r'. split; [done|]. split; [congruence|].
  rewrite Hres', Hres1, Hc1.
  destruct (connections r =? 0)%nat; rewrite ?andb_false_r; [|done].
  rewrite !andb_true_r. destruct (decide (k = x)) as [->|Hne].
  - rewrite !(bool_decide_eq_true_2 (x = x)) by done.
    rewrite (bool_decide_eq_true_2 (x ∈ x :: l)) by left.
    by destruct (bool_decide (x ∈ l)).
  - rewrite (bool_decide_eq_false_2 (k = x)) by done.
    destruct (decide (k ∈ l)).
    + rewrite !bool_decide_eq_true_2; [done|by right|done].
    + rewrite !bool_decide_eq_false_2; [done| |done].
      intros [?|?]%elem_of_cons; done.
Qed.

(** [_rollback_dedicated_fcp] called as [_attach] calls it, on devices
    with a record each. *)
Lemma rollback_run W assigner l s :
  (forall k, k ∈ l -> is_Some (db s !! k)) ->
  exists s',
    _rollback_dedicated_fcp W l assigner (Some l) s = (Ret tt, s')
    /\ (forall k r, db s !! k = Some r ->
          exists r', db s' !! k = Some r'
            /\ connections r' = (connections r - occ k l)%nat
            /\ reserved r' = (if bool_decide (k ∈ l)
                                 && (connections r - occ k l =? 0)%nat
                              then false else reserved r)).
Proof.
  intros Hin. destruct (rollback_decrease_loop W assigner l s) as (s1 & E1 & Hdb1).
  destruct (rollback_unreserve_loop l s1) as (s2 & E2 & Hdb2).
  { intros k Hk. destruct (Hin k Hk) as [r Hr]. rewrite Hdb1, Hr. simpl. eauto. }
  exists s2. split.
  { unfold _rollback_dedicated_fcp. rewrite bind_run, E1.
    destruct l as [|x l]; [|exact E2]. simpl in E2. by injection E2 as <-. }
  intros k r Hr. destruct (Hdb2 k (lowered (occ k l) r)) as (r' & Hr' & Hc' & Hres').
  { by rewrite Hdb1, Hr. }
  exists r'. split; [done|]. split; [done|]. exact Hres'.
Qed.

End AttachRollback.

(** C1, counterexample: the device [1a00] is reserved and has no
    connection; the configuration of the guest fails; after the rollback
    the device is not reserved any more. *)
Lemma rollback_clears_reservation : ~ rollback_restores_all.
Proof.
  intros H.
  edestruct (H Example.installation ["1a00"] "VM1" Example.some_volume 1%nat
               Example.reserved_idle) as [_ Hall].
  - vm_compute. reflexivity.
  - vm_compute. reflexivity.
  - reflexivity.
  - vm_compute. reflexivity.
  - edestruct (Hall "1a00") as [_ Hres]; [by left|vm_compute; reflexivity..|].
    vm_compute in Hres. discriminate.
Qed.

(** C1, amended. When an attach fails at the dedicate or the configure
    step with an error of the SDK, [_attach] rolls back and raises
    [SDKBaseException] with the message of that error behind "Dedicate FCP
    devices failed with error:".  After it every device of the request
    that had a record before the attach has the connection count it had
    then; its reserved flag is the one it had then when that count was
    not zero, and is cleared when that count was zero.  A device of the
    request whose record the attach itself added is left without
    connection and not reserved. *)
Theorem attach_rollback (W : world) (fcp_list : list string) (assigner : string)
    (v : volume) (path_count : nat) (s0 s1 s2 : state)
    (status : gmap string bool) (err : exn)
    (Hregistered : attach_register W fcp_list assigner s0 = (Ret status, s1))
    (Hfails : attach_dedicate_and_configure W status fcp_list assigner v s1
              = (Raise err, s2))
    (Hsdk : is_SDKBaseException err = true) :
  exists s3,
    _attach W fcp_list assigner v path_count false s0
    = (Raise (new_exn SDKBaseException (attach_errmsg err)), s3)
    /\ (forall f r0, f ∈ fcp_list -> db s0 !! f = Some r0 ->
          exists r3, db s3 !! f = Some r3
            /\ connections r3 = connections r0
            /\ reserved r3 = (if (connections r0 =? 0)%nat then false
                              else reserved r0))
    /\ (forall f, f ∈ fcp_list -> db s0 !! f = None ->
          exists r3, db s3 !! f = Some r3
            /\ connections r3 = O /\ reserved r3 = false).
Proof.
  pose proof Hregistered as Hreg. unfold attach_register in Hreg.
  rewrite Run.bind_run in Hreg.
  destruct (init_fcp W assigner s0) as [[[]|e] sA] eqn:Einit; [|discriminate].
  apply AttachRollback.init_fcp_usage in Einit as [HsomeA HnoneA].
  apply AttachRollback.add_loop in Hreg as (HinA & HaddA & _).
  destruct (Keeps.keeps_attach_body W status fcp_list assigner v s1) as (Hk & _ & _).
  rewrite Hfails in Hk. simpl in Hk.
  destruct (AttachRollback.rollback_run W assigner fcp_list
              (log (LogError (attach_errmsg err)) s2)) as (s3 & E3 & Hdb3).
  { intros k Hkin. cbn [db log]. rewrite Hk. destruct (HinA k Hkin) as [rA HrA].
    destruct (HaddA k rA HrA) as (r1 & Hr1 & _). eauto. }
  exists s3. split.
  { unfold _attach. rewrite (Run.bind_ret _ _ _ _ _ Hregistered). cbv beta iota.
    rewrite Run.bind_run. unfold try_except. rewrite Hfails, Hsdk.
    unfold attach_handler. rewrite Run.bind_run. unfold LOG_error, emit, modify.
    cbv beta iota. by rewrite Run.bind_run, E3. }
  assert (Hfinal : forall f rA, f ∈ fcp_list -> db sA !! f = Some rA ->
            exists r3, db s3 !! f = Some r3
              /\ connections r3 = connections rA
              /\ reserved r3 = (if (connections rA =? 0)%nat then false
                                else reserved rA)).
  { intros f rA Hf HrA. destruct (HaddA f rA HrA) as (r1 & Hr1 & Hc1 & Hres1).
    destruct (Hdb3 f r1) as (r3 & Hr3 & Hc3 & Hres3).
    { cbn [db log]. by rewrite Hk. }
    exists r3. split; [done|]. rewrite Hc3, Hres3, Hc1, Hres1.
    rewrite bool_decide_eq_true_2 by done. cbn [andb].
    replace (connections rA + occ f fcp_list - occ f fcp_list)%nat
      with (connections rA) by lia.
    by split. }
  split.
  - intros f r0 Hf Hr0. destruct (HinA f Hf) as [rA HrA].
    destruct (HsomeA f r0 rA Hr0 HrA) as [HcA HresA].
    destruct (Hfinal f rA Hf HrA) as (r3 & Hr3 & Hc3 & Hres3).
    exists r3. split; [done|]. rewrite Hc3, Hres3, HcA, HresA. by split.
  - intros f Hf Hr0. destruct (HinA f Hf) as [rA HrA].
    destruct (HnoneA f rA Hr0 HrA) as [HcA HresA].
    destruct (Hfinal f rA Hf HrA) as (r3 & Hr3 & Hc3 & Hres3).
    exists r3. split; [done|]. rewrite Hc3, Hres3, HcA, HresA. by split.
Qed.

Lemma attach_rollback_witness :
  exists s3,
    _attach Example.installation ["1a00"] "VM1" Example.some_volume 1 false
      Example.reserved_idle
    = (Raise (new_exn SDKBaseException (attach_errmsg Example.configure_fails)), s3)
    /\ exists r3, db s3 !! "1a00" = Some r3
         /\ connections r3 = O /\ reserved r3 = false.
Proof.
  edestruct (attach_rollback Example.installation ["1a00"] "VM1"
               Example.some_volume 1%nat Example.reserved_idle)
    as (s3 & Hrun & Hsome & _).
  - vm_compute. reflexivity.
  - vm_compute. reflexivity.
  - reflexivity.
  - exists s3. split; [exact Hrun|].
    apply (Hsome "1a00" (mk_rec (Some "VM1") 0 true 0)); [by left|].
    vm_compute. reflexivity.
Defined.

(** * Further properties *)

(** * Characters *)

Module CharFacts.
Import PyStr.

(** No character from ["!"] up to the code 132 is white space. *)
Lemma printable_not_space c : 33 <= code c < 133 -> is_space c = false.
Proof.
  intros H. unfold is_space. cbv zeta.
  rewrite !orb_false_iff, !andb_false_iff, !N.leb_gt, !N.eqb_neq. lia.
Qed.

End CharFacts.

(** * The entries of the path mapping *)

Module Entries.
Import PyStr ExpandFacts PathSets PathSetFacts.

Lemma expand_ranges_entries ranges p d m :
  (forall q, (p <= q)%nat -> PyDict.get d q = None) ->
  expand_ranges p d ranges = Ret m ->
  forall q, PyDict.get m q =
    if (q <? p)%nat then PyDict.get d q
    else match ranges !! (q - p)%nat with
         | Some _range =>
             if all_empty (split "," _range) then None
             else Some (segment_set _range)
         | None => None
         end.
Proof.
  revert p d. induction ranges as [|r ranges IH]; intros p d Hfresh; simpl.
  { intros [= <-] q. destruct (Nat.ltb_spec q p); [done|]. by apply Hfresh. }
  destruct (expand_items p d (split "," r)) as [d1|] eqn:E1; osimpl; [|discriminate].
  intros E2 q. apply expand_items_get in E1 as [Hne1 Hp1].
  rewrite (IH (p + 1)%nat d1 ltac:(intros q' Hq'; rewrite Hne1 by lia; apply Hfresh; lia) E2 q).
  destruct (Nat.ltb_spec q (p + 1)), (Nat.ltb_spec q p); try lia.
  - by apply Hne1; lia.
  - assert (q = p) as -> by lia. rewrite Nat.sub_diag. simpl.
    rewrite Hp1, Hfresh by lia. destruct (all_empty _); [done|].
    f_equal. unfold segment_set. simpl. set_solver.
  - replace (q - p)%nat with (S (q - (p + 1)))%nat by lia. done.
Qed.

End Entries.

(** X1. In the mapping that [_expand_fcp_list] returns, the path [p] has
    an entry exactly when the [p]-th segment of the normalised string
    (between semicolons) holds an item that is not empty, and the entry is
    the set of the devices of that segment: an empty segment, as a doubled
    or a final semicolon leaves it, takes its path number and gets no
    entry. *)
Theorem expand_path_entries (fcp_list : string) (m : PyDict.dict (gset string))
    (Hexpanded : _expand_fcp_list fcp_list = Ret (PathMapping m)) (p : nat) :
  PyDict.get m p =
    match PyStr.split ";" (normalize fcp_list) !! p with
    | Some _range =>
        if PathSets.all_empty (PyStr.split "," _range) then None
        else Some (PathSets.segment_set _range)
    | None => None
    end.
Proof.
  destruct (decide (fcp_list = "")) as [->|Hne].
  { rewrite ExpandFacts.expand_empty in Hexpanded. discriminate. }
  rewrite (ExpandFacts.expand_nonempty _ Hne) in Hexpanded.
  destruct (grammar_ok _); [|discriminate].
  destruct (expand_ranges _ _ _) as [m'|] eqn:E; ExpandFacts.osimpl; [|discriminate].
  injection Hexpanded as ->.
  rewrite (Entries.expand_ranges_entries _ 0%nat [] _ (fun q _ => eq_refl) E p).
  simpl. by rewrite Nat.sub_0_r.
Qed.

Lemma expand_path_entries_witness :
  PyDict.get
    [(0%nat, {[ "0011" ]} : gset string); (1%nat, {[ "0012" ]}); (3%nat, {[ "0013" ]})]
    2%nat = None.
Proof.
  etransitivity.
  - apply (expand_path_entries "0011;0012;;0013"). vm_compute. reflexivity.
  - vm_compute. reflexivity.
Defined.

(** * Canonical device numbers *)

Module CanonFacts.
Import PyStr Hex Regex Lang ExpandFacts PathSets PathSetFacts Grammar Canon.

Lemma length_app (s t : string) :
  String.length (s ++ t) = (String.length s + String.length t)%nat.
Proof. induction s as [|c s IH]; [done|]. rewrite app_cons. simpl. by rewrite IH. Qed.

Lemma lang_hex_1_4_short s : lang hex_1_4 s -> short s.
Proof.
  unfold hex_1_4, rep_1_4, short. intros H.
  apply lang_cat_inv in H as (s1 & t1 & -> & H1 & Ht1).
  apply lang_class_inv in H1 as (c1 & -> & _). rewrite app_cons, app_nil_l.
  apply lang_opt_inv in Ht1 as [Ht1| ->]; [|simpl; lia].
  apply lang_cat_inv in Ht1 as (s2 & t2 & -> & H2 & Ht2).
  apply lang_class_inv in H2 as (c2 & -> & _). rewrite app_cons, app_nil_l.
  apply lang_opt_inv in Ht2 as [Ht2| ->]; [|simpl; lia].
  apply lang_cat_inv in Ht2 as (s3 & t3 & -> & H3 & Ht3).
  apply lang_class_inv in H3 as (c3 & -> & _). rewrite app_cons, app_nil_l.
  apply lang_opt_inv in Ht3 as [Ht3| ->]; [|simpl; lia].
  apply lang_class_inv in Ht3 as (c4 & -> & _). simpl. lia.
Qed.

Lemma lang_range_short s : lang range_pattern s -> short_item s.
Proof.
  unfold range_pattern, short_item. intros H.
  apply lang_cat_inv in H as (a & t & -> & Ha & Ht).
  pose proof (lang_hex_1_4_short _ Ha) as Hsa. apply lang_hex_1_4 in Ha.
  apply lang_opt_inv in Ht as [Ht| ->].
  - apply lang_cat_inv in Ht as (d & b & -> & Hd & Hb).
    apply lang_chr_inv in Hd as ->.
    pose proof (lang_hex_1_4_short _ Hb) as Hsb. apply lang_hex_1_4 in Hb.
    rewrite app_cons, app_nil_l.
    rewrite (split_app _ _ _ (hex_word_no _ _ dash_not_hex Ha)).
    rewrite (split_no _ _ (hex_word_no _ _ dash_not_hex Hb)).
    apply Forall_cons; split; [done|]. apply Forall_cons; split; [done|]. apply Forall_nil_2.
  - rewrite app_nil_r, (split_no _ _ (hex_word_no _ _ dash_not_hex Ha)).
    apply Forall_cons; split; [done|]. apply Forall_nil_2.
Qed.

Lemma lang_items_tail_short t :
  lang (Star (Cat (chr ",") range_pattern_lazy)) t ->
  forall r0, range_item r0 -> short_item r0 -> Forall short_item (split "," (r0 ++ t)).
Proof.
  remember (Star (Cat (chr ",") range_pattern_lazy)) as R eqn:HR.
  induction 1 as [| | | | | |r s1 s2 H1 _ H2 IH]; try discriminate.
  - intros r0 H0 Hs0. rewrite app_nil_r.
    rewrite split_no by (apply range_item_no; done). by constructor.
  - injection HR as ->. specialize (IH eq_refl).
    apply lang_cat_inv in H1 as (c & r1 & -> & Hc & H1).
    apply lang_chr_inv in Hc as ->.
    pose proof (lang_range_short _ H1) as Hs1. apply lang_range in H1.
    intros r0 H0 Hs0. rewrite ?app_cons, ?app_nil_l.
    rewrite split_app by (apply range_item_no; done).
    constructor; [done|]. by apply IH.
Qed.

Lemma lang_item_pattern_short s : lang item_pattern s -> short_segment s.
Proof.
  unfold item_pattern.
  intros H. apply lang_cat_inv in H as (r0 & t & -> & H0 & Ht).
  eapply lang_items_tail_short; [exact Ht|by apply lang_range|by apply lang_range_short].
Qed.

Lemma lang_range_short_segment s : lang range_pattern s -> short_segment s.
Proof.
  intros H. unfold short_segment.
  rewrite split_no by (apply range_item_no; [done|done|by apply lang_range]).
  constructor; [by apply lang_range_short|done].
Qed.

(** The tail [(;R;?)*] of a list, for a property [Q] of the segments. *)
Lemma lang_paths_tail_with (Q : string -> Prop) R t :
  Q "" ->
  (forall s, lang R s -> contains ";" s = false /\ Q s) ->
  lang (Star (Cat (chr ";") (Cat R (opt (chr ";"))))) t ->
  forall s0, contains ";" s0 = false -> Q s0 -> Forall Q (split ";" (s0 ++ t)).
Proof.
  intros HQ HR. remember (Star (Cat (chr ";") (Cat R (opt (chr ";"))))) as P eqn:HP.
  induction 1 as [| | | | | |r s1 s2 H1 _ H2 IH]; try discriminate.
  - intros s0 Hno H0. rewrite app_nil_r, split_no by done. by constructor.
  - injection HP as ->. specialize (IH eq_refl). intros s0 Hno H0.
    apply lang_cat_inv in H1 as (c & u & -> & Hc & Hu).
    apply lang_chr_inv in Hc as ->.
    apply lang_cat_inv in Hu as (si & o & -> & Hsi & Ho).
    destruct (HR si Hsi) as [Hsemi Hok].
    rewrite ?app_cons, ?app_nil_l. rewrite split_app by done. constructor; [done|].
    apply lang_opt_inv in Ho as [Ho| ->].
    + apply lang_chr_inv in Ho as ->. rewrite !app_assoc, ?app_cons, ?app_nil_l.
      rewrite split_app by done.
      constructor; [done|]. by apply (IH "").
    + rewrite app_nil_r. by apply IH.
Qed.

Lemma short_segment_empty : short_segment "".
Proof.
  apply Forall_cons; split; [|apply Forall_nil_2].
  apply Forall_cons; split; [|apply Forall_nil_2]. unfold short. simpl. lia.
Qed.

(** The segments of a string that passes the grammar check. *)
Lemma grammar_segments s :
  grammar_ok (normalize s) = true ->
  Forall (fun r => segment_ok r /\ short_segment r) (split ";" (normalize s)).
Proof.
  intros Hok. unfold grammar_ok, re_match_anchored in Hok.
  rewrite normalize_no_final_newline, !orb_false_r in Hok.
  apply orb_true_iff in Hok as [H|H]; apply fullmatch_lang in H;
    unfold match_pattern, multi_match_pattern, paths_pattern in H;
    apply lang_cat_inv in H as (s0 & t & -> & H0 & Ht).
  - eapply lang_paths_tail_with; [| |exact Ht| |].
    + split; [apply segment_ok_empty|apply short_segment_empty].
    + intros r Hr. destruct (lang_range_segment _ Hr).
      split; [done|]. split; [done|by apply lang_range_short_segment].
    + by apply lang_range_segment.
    + split; [by apply lang_range_segment|by apply lang_range_short_segment].
  - eapply lang_paths_tail_with; [| |exact Ht| |].
    + split; [apply segment_ok_empty|apply short_segment_empty].
    + intros r Hr. destruct (lang_item_pattern _ Hr).
      split; [done|]. split; [done|by apply lang_item_pattern_short].
    + by apply lang_item_pattern.
    + split; [by apply lang_item_pattern|by apply lang_item_pattern_short].
Qed.

(** ** Values and digits *)

Lemma digit_value_bound c d : digit_value c = Some d -> d < 16.
Proof.
  unfold digit_value. generalize (code c) as n. intros n.
  repeat match goal with
  | |- context [if ?b then _ else _] => destruct b eqn:?
  end; intros [= <-];
  repeat match goal with
  | H : (_ && _) = true |- _ => apply andb_true_iff in H as [? ?]
  | H : (_ <=? _) = true |- _ => apply N.leb_le in H
  end; lia.
Qed.

Lemma int16_acc_bound s acc n :
  int16_acc acc s = Some n -> n < (acc + 1) * 16 ^ N.of_nat (String.length s).
Proof.
  revert acc. induction s as [|c s IH]; intros acc.
  - simpl. intros [= <-]. lia.
  - cbn [int16_acc String.length]. destruct (digit_value c) as [d|] eqn:Hd; [|done].
    intros H. apply IH in H. apply digit_value_bound in Hd.
    rewrite Nat2N.inj_succ, N.pow_succ_r'. nia.
Qed.

Lemma int16_short s n : short s -> int16 s = Some n -> n < 65536.
Proof.
  unfold short, int16. intros Hs. destruct s as [|c s]; [done|].
  intros H%int16_acc_bound.
  assert (16 ^ N.of_nat (String.length (String c s)) <= 16 ^ 4).
  { apply N.pow_le_mono_r; lia. }
  change (16 ^ 4) with 65536 in *. lia.
Qed.

Lemma digit_char_lower d : d < 16 -> is_lower_hex (digit_char d) = true.
Proof.
  intros H. destruct d as [|p]; [reflexivity|].
  do 4 (destruct p as [p|p|]; try reflexivity; try lia).
Qed.

Lemma digit_char_value d : d < 16 -> digit_value (digit_char d) = Some d.
Proof.
  intros H. destruct d as [|p]; [reflexivity|].
  do 4 (destruct p as [p|p|]; try reflexivity; try lia).
Qed.

Lemma lower_hex_is_hex c : is_lower_hex c = true -> is_hex c = true.
Proof.
  unfold is_lower_hex, is_hex, digit_value. generalize (code c) as n. intros n.
  cbv zeta. intros [H|H]%orb_true_iff; rewrite H; [reflexivity|].
  destruct ((48 <=? n) && (n <=? 57)); reflexivity.
Qed.

Lemma digits_chars f n acc :
  (forall c, contains c acc = true -> is_lower_hex c = true) ->
  forall c, contains c (digits f n acc) = true -> is_lower_hex c = true.
Proof.
  revert n acc. induction f as [|f IH]; intros n acc Hacc.
  - simpl. intros c [Hc|Hc]%orb_true_iff; [|by apply Hacc].
    apply Ascii.eqb_eq in Hc as ->. apply digit_char_lower, N.mod_lt. lia.
  - assert (Hacc' : forall c, contains c (String (digit_char (n mod 16)) acc) = true ->
                        is_lower_hex c = true).
    { simpl. intros c [Hc|Hc]%orb_true_iff; [|by apply Hacc].
      apply Ascii.eqb_eq in Hc as ->. apply digit_char_lower, N.mod_lt. lia. }
    cbn [digits]. destruct (n / 16 =? 0); [exact Hacc'|]. by apply IH.
Qed.

Lemma digits_length f n acc k :
  n < 16 ^ N.of_nat (S k) ->
  (String.length acc < String.length (digits f n acc)
   <= S k + String.length acc)%nat.
Proof.
  revert n acc k. induction f as [|f IH]; intros n acc k Hn.
  - simpl. lia.
  - cbn [digits]. destruct (N.eqb_spec (n / 16) 0) as [Hz|Hz]; [simpl; lia|].
    destruct k as [|k].
    { change (16 ^ N.of_nat 1) with 16 in Hn.
      destruct Hz. by apply N.div_small. }
    assert (Hn' : n / 16 < 16 ^ N.of_nat (S k)).
    { apply N.Div0.div_lt_upper_bound. rewrite <- N.pow_succ_r', <- Nat2N.inj_succ. exact Hn. }
    specialize (IH (n / 16) (String (digit_char (n mod 16)) acc) k Hn').
    simpl in IH. simpl. lia.
Qed.

Lemma zeros_length k : String.length (zeros k) = k.
Proof. induction k; simpl; congruence. Qed.

Lemma zeros_chars k c : contains c (zeros k) = true -> is_lower_hex c = true.
Proof.
  induction k as [|k IH]; simpl; [done|]. intros [Hc|Hc]%orb_true_iff; [|auto].
  apply Ascii.eqb_eq in Hc as ->. reflexivity.
Qed.

Lemma format_04x_canonical n : n < 65536 -> canonical (format_04x n).
Proof.
  intros Hn. unfold canonical, format_04x, to_hex.
  pose proof (digits_length (N.to_nat (N.size n)) n "" 3 Hn) as Hlen.
  simpl in Hlen. split.
  - rewrite length_app, zeros_length. lia.
  - intros c. rewrite contains_app. intros [Hc|Hc]%orb_true_iff.
    + by eapply zeros_chars.
    + eapply digits_chars; [|exact Hc]. done.
Qed.

(** ** The device numbers of an item *)

Lemma elem_of_py_range n lo hi : n ∈ py_range lo hi <-> lo <= n < hi.
Proof.
  unfold py_range. rewrite list_elem_of_fmap. split.
  - intros (i & -> & Hi). apply elem_of_seq in Hi. lia.
  - intros H. exists (N.to_nat (n - lo)). split; [lia|]. apply elem_of_seq. lia.
Qed.

Lemma expand_item_short item S d :
  short_item item -> expand_item item = Ret S -> d ∈ S ->
  exists n, n < 65536 /\ d = format_04x n.
Proof.
  unfold short_item, expand_item, int16_or_raise. intros Hshort.
  destruct (contains "-" item) eqn:Hdash; simpl.
  - destruct (split "-" item) as [|a [|b [|c l]]]; try discriminate.
    apply Forall_cons in Hshort as [Ha Hshort]. apply Forall_cons in Hshort as [Hb _].
    destruct (int16 a) as [x|] eqn:Hx; osimpl; [|discriminate].
    destruct (int16 b) as [y|] eqn:Hy; osimpl; [|discriminate].
    intros [= <-] Hd. apply elem_of_list_to_set, list_elem_of_fmap in Hd as (n & -> & Hn).
    apply elem_of_py_range in Hn. exists n. split; [|done].
    apply (int16_short _ _ Hb) in Hy. lia.
  - rewrite split_no in Hshort by done. apply Forall_cons in Hshort as [Hs _].
    destruct (int16 item) as [x|] eqn:Hx; osimpl; [|discriminate].
    intros [= <-] Hd. apply elem_of_singleton in Hd as ->. exists x. split; [|done].
    by eapply int16_short.
Qed.

Lemma segment_set_short r d :
  short_segment r -> d ∈ segment_set r -> exists n, n < 65536 /\ d = format_04x n.
Proof.
  unfold short_segment, segment_set. intros Hshort Hd.
  apply elem_of_union_list in Hd as (X & HX & Hd).
  apply list_elem_of_fmap in HX as (item & -> & Hitem).
  rewrite Forall_forall in Hshort. specialize (Hshort _ Hitem).
  unfold item_set in Hd. destruct (expand_item item) as [S|] eqn:E; [|set_solver].
  by eapply expand_item_short.
Qed.

End CanonFacts.

(** X2. Every device number in a set of the mapping that
    [_expand_fcp_list] returns is in canonical form: exactly four
    characters, each a lowercase hexadecimal digit; it is ["%04x"] of a
    number below 65536. *)
Theorem expand_addresses_canonical (fcp_list : string)
    (m : PyDict.dict (gset string)) (p : nat) (S : gset string) (d : string)
    (Hexpanded : _expand_fcp_list fcp_list = Ret (PathMapping m))
    (Hpath : PyDict.get m p = Some S) (Hd : d ∈ S) :
  Canon.canonical d /\ exists n, n < 65536 /\ d = Hex.format_04x n.
Proof.
  assert (Hn : exists n, n < 65536 /\ d = Hex.format_04x n).
  { destruct (PathSetFacts.expand_path_is_segment _ _ _ _ Hexpanded Hpath)
      as (r & Hr & ->).
    destruct (decide (fcp_list = "")) as [->|Hne].
    { rewrite ExpandFacts.expand_empty in Hexpanded. discriminate. }
    rewrite (ExpandFacts.expand_nonempty _ Hne) in Hexpanded.
    destruct (grammar_ok _) eqn:Hok; [|discriminate].
    pose proof (CanonFacts.grammar_segments _ Hok) as Hsegs.
    rewrite Forall_forall in Hsegs.
    destruct (Hsegs r) as [_ Hshort]; [by eapply list_elem_of_lookup_2|].
    by eapply CanonFacts.segment_set_short. }
  split; [|exact Hn]. destruct Hn as (n & Hn & ->).
  by apply CanonFacts.format_04x_canonical.
Qed.

Lemma expand_addresses_canonical_witness : Canon.canonical "0022".
Proof.
  apply (expand_addresses_canonical "0011-0013;0021-0023"
           [(0%nat, {[ "0011"; "0012"; "0013" ]});
            (1%nat, {[ "0021"; "0022"; "0023" ]})]
           1%nat {[ "0021"; "0022"; "0023" ]} "0022").
  - vm_compute. reflexivity.
  - reflexivity.
  - set_solver.
Defined.

(** * Single items: ranges and single devices *)

Module Complete.
Import PyStr Hex Regex Lang ExpandFacts PathSets PathSetFacts Grammar Canon CanonFacts.

Lemma app_eq_nil (s1 s2 : string) : s1 ++ s2 = "" -> s1 = "" /\ s2 = "".
Proof.
  destruct s1; [rewrite app_nil_l; by intros ->|]. rewrite app_cons. discriminate.
Qed.

Lemma lang_nil_nullable r s : lang r s -> s = "" -> nullable r = true.
Proof.
  induction 1 as [|p c Hp|r1 r2 s1 s2 _ IH1 _ IH2|r1 r2 s _ IH|r1 r2 s _ IH| |];
    intros Hs; simpl; try done.
  - apply app_eq_nil in Hs as [-> ->]. by rewrite IH1, IH2.
  - by rewrite IH.
  - rewrite IH by done. apply orb_true_r.
Qed.

Lemma cat_lang r1 r2 s : lang (Cat r1 r2) s -> lang (cat r1 r2) s.
Proof.
  intros H. pose proof H as H'.
  apply lang_cat_inv in H' as (s1 & s2 & -> & H1 & H2).
  destruct r1, r2; simpl; try exact H; try (by inversion H1); try (by inversion H2);
    inversion H1; subst; exact H2.
Qed.

Lemma alt_lang r1 r2 s : lang (Alt r1 r2) s -> lang (alt r1 r2) s.
Proof.
  intros H. inversion H as [| | |? ? ? H1|? ? ? H2| |]; subst;
    destruct r1, r2; simpl; try exact H; try (by inversion H1); try (by inversion H2);
    done.
Qed.

Lemma deriv_lang c r w : lang r w -> forall s, w = String c s -> lang (deriv c r) s.
Proof.
  induction 1 as [|p c0 Hp|r1 r2 s1 s2 H1 IH1 H2 IH2|r1 r2 s0 _ IH|r1 r2 s0 _ IH
                 | |r s1 s2 H1 IH1 H2 IH2]; intros s Hs; try discriminate.
  - injection Hs as -> <-. simpl. rewrite Hp. apply lang_Eps.
  - cbn [deriv]. destruct s1 as [|c1 s1'].
    + rewrite app_nil_l in Hs. subst s2.
      rewrite (lang_nil_nullable _ _ H1 eq_refl).
      apply alt_lang, lang_Alt_r. by apply IH2.
    + rewrite app_cons in Hs. injection Hs as -> <-.
      assert (Hc : lang (cat (deriv c r1) r2) (s1' ++ s2)).
      { apply cat_lang, lang_Cat; [by apply IH1|done]. }
      destruct (nullable r1); [by apply alt_lang, lang_Alt_l|done].
  - cbn [deriv]. apply alt_lang, lang_Alt_l. by apply IH.
  - cbn [deriv]. apply alt_lang, lang_Alt_r. by apply IH.
  - destruct s1 as [|c1 s1'].
    + rewrite app_nil_l in Hs. by apply IH2.
    + rewrite app_cons in Hs. injection Hs as -> <-. cbn [deriv].
      apply cat_lang, lang_Cat; [by apply IH1|done].
Qed.

(** The derivative matcher accepts every word of the language. *)
Lemma lang_fullmatch r s : lang r s -> fullmatch r s = true.
Proof.
  revert r. induction s as [|c s IH]; intros r H; simpl.
  - by eapply lang_nil_nullable.
  - apply IH. by eapply deriv_lang.
Qed.

Lemma lang_hex c : is_hex c = true -> lang (Class is_hex) (String c "").
Proof. intros H. by apply lang_Class. Qed.

Lemma hex_word_inv c s :
  hex_word (String c s) -> is_hex c = true /\ (s = "" \/ hex_word s).
Proof.
  intros [_ H]. split.
  - apply H. simpl. by rewrite Ascii.eqb_refl.
  - destruct s as [|d s]; [by left|]. right. split; [done|].
    intros e He. apply H. simpl in *. by rewrite He, orb_true_r.
Qed.

Lemma short_hex_lang a : hex_word a -> short a -> lang hex_1_4 a.
Proof.
  unfold short, hex_1_4, rep_1_4. intros Ha Hs.
  destruct a as [|c1 a]; [by destruct Ha|].
  apply hex_word_inv in Ha as [H1 Ha].
  change (String c1 a) with (String c1 "" ++ a). apply lang_Cat; [by apply lang_hex|].
  destruct Ha as [->|Ha]; [apply lang_Alt_r, lang_Eps|]. apply lang_Alt_l.
  destruct a as [|c2 a]; [by destruct Ha|].
  apply hex_word_inv in Ha as [H2 Ha].
  change (String c2 a) with (String c2 "" ++ a). apply lang_Cat; [by apply lang_hex|].
  destruct Ha as [->|Ha]; [apply lang_Alt_r, lang_Eps|]. apply lang_Alt_l.
  destruct a as [|c3 a]; [by destruct Ha|].
  apply hex_word_inv in Ha as [H3 Ha].
  change (String c3 a) with (String c3 "" ++ a). apply lang_Cat; [by apply lang_hex|].
  destruct Ha as [->|Ha]; [apply lang_Alt_r, lang_Eps|]. apply lang_Alt_l.
  destruct a as [|c4 a]; [by destruct Ha|].
  apply hex_word_inv in Ha as [H4 Ha].
  destruct a as [|c5 a]; [by apply lang_hex|]. simpl in Hs. lia.
Qed.

(** A single item is a list that passes the grammar check. *)
Lemma range_grammar_ok s : lang range_pattern s -> grammar_ok s = true.
Proof.
  intros H. unfold grammar_ok, re_match_anchored.
  assert (Hm : fullmatch match_pattern s = true); [|by rewrite Hm].
  apply lang_fullmatch. unfold match_pattern, paths_pattern.
  rewrite <- (app_nil_r s). apply lang_Cat; [done|apply lang_Star_nil].
Qed.

Lemma hex_not_space c : is_hex c = true -> is_space c = false.
Proof.
  intros H. apply CharFacts.printable_not_space. revert H. unfold is_hex, digit_value.
  cbv zeta.
  destruct ((48 <=? code c) && (code c <=? 57)) eqn:E1;
    [apply andb_true_iff in E1 as [?%N.leb_le ?%N.leb_le]; lia|].
  destruct ((97 <=? code c) && (code c <=? 102)) eqn:E2;
    [apply andb_true_iff in E2 as [?%N.leb_le ?%N.leb_le]; lia|].
  destruct ((65 <=? code c) && (code c <=? 70)) eqn:E3;
    [apply andb_true_iff in E3 as [?%N.leb_le ?%N.leb_le]; lia|done].
Qed.

Lemma lstrip_id s : (forall c, contains c s = true -> is_space c = false) -> lstrip s = s.
Proof.
  destruct s as [|c s]; [done|]. intros H. simpl.
  rewrite (H c); [done|]. simpl. by rewrite Ascii.eqb_refl.
Qed.

Lemma rstrip_id s : (forall c, contains c s = true -> is_space c = false) -> rstrip s = s.
Proof.
  induction s as [|c s IH]; [done|]. intros H. simpl.
  rewrite IH by (intros d Hd; apply H; simpl; by rewrite Hd, orb_true_r).
  destruct s; [|done]. rewrite (H c); [done|]. simpl. by rewrite Ascii.eqb_refl.
Qed.

Lemma remove_char_id c s : contains c s = false -> remove_char c s = s.
Proof.
  induction s as [|d s IH]; [done|]. simpl. intros [Hd Hs]%orb_false_iff.
  by rewrite Hd, IH.
Qed.

Lemma normalize_id s :
  (forall c, contains c s = true -> is_space c = false) -> normalize s = s.
Proof.
  intros H. unfold normalize, strip. rewrite lstrip_id, rstrip_id by done.
  apply remove_char_id. destruct (contains " " s) eqn:E; [|done].
  by apply H in E.
Qed.

Lemma range_item_no_space s c :
  range_item s -> contains c s = true -> is_space c = false.
Proof.
  intros [[_ Hs]|(a & b & -> & [_ Ha] & [_ Hb])] Hc.
  - by apply hex_not_space, Hs.
  - rewrite contains_app in Hc. simpl in Hc.
    apply orb_true_iff in Hc as [Hc|Hc]; [by apply hex_not_space, Ha|].
    apply orb_true_iff in Hc as [Hc|Hc]; [|by apply hex_not_space, Hb].
    apply Ascii.eqb_eq in Hc as ->. reflexivity.
Qed.

Lemma range_item_nonempty s : range_item s -> s <> "".
Proof.
  intros [[H _]|(a & b & -> & [Ha _] & _)]; [done|]. by destruct a.
Qed.

(** A list made of one item is expanded into the devices of the item on
    path 0. *)
Lemma expand_one_item item S :
  lang range_pattern item -> expand_item item = Ret S ->
  _expand_fcp_list item = Ret (PathMapping [(0%nat, S)]).
Proof.
  intros Hl HS. pose proof (lang_range _ Hl) as Hr.
  pose proof (range_item_nonempty _ Hr) as Hne.
  rewrite (expand_nonempty _ Hne).
  rewrite (normalize_id item) by (intros c; by apply range_item_no_space).
  rewrite (range_grammar_ok _ Hl). cbn [negb].
  rewrite (split_no ";" item) by (by apply range_item_no).
  cbn [expand_ranges]. rewrite (split_no "," item) by (by apply range_item_no).
  cbn [expand_items]. unfold expand_step.
  destruct (String.eqb_spec item ""); [done|]. rewrite HS. reflexivity.
Qed.

Lemma lang_range_word a : hex_word a -> short a -> lang range_pattern a.
Proof.
  intros Ha Hs. unfold range_pattern. rewrite <- (app_nil_r a).
  apply lang_Cat; [by apply short_hex_lang|]. apply lang_Alt_r, lang_Eps.
Qed.

Lemma lang_range_pair a b :
  hex_word a -> short a -> hex_word b -> short b ->
  lang range_pattern (a ++ "-" ++ b).
Proof.
  intros Ha Hsa Hb Hsb. unfold range_pattern.
  apply lang_Cat; [by apply short_hex_lang|]. apply lang_Alt_l.
  change ("-" ++ b) with (String "-" "" ++ b).
  apply lang_Cat; [apply lang_Class; reflexivity|by apply short_hex_lang].
Qed.

(** ** Reading back a formatted number *)

Lemma int16_acc_app s1 s2 acc :
  int16_acc acc (s1 ++ s2) = int16_acc acc s1 ≫= fun a => int16_acc a s2.
Proof.
  revert acc. induction s1 as [|c s1 IH]; intros acc; [done|].
  rewrite app_cons. cbn [int16_acc]. destruct (digit_value c); [apply IH|done].
Qed.

Lemma int16_acc_zeros k : int16_acc 0 (zeros k) = Some 0.
Proof. induction k as [|k IH]; [done|]. simpl. exact IH. Qed.

Lemma int16_acc_digits f n :
  n < 16 ^ N.of_nat (S f) ->
  exists k, forall a s, int16_acc a (digits f n s) = int16_acc (a * 16 ^ k + n) s.
Proof.
  revert n. induction f as [|f IH]; intros n Hn.
  - exists 1. intros a s. simpl. change (16 ^ N.of_nat 1) with 16 in Hn.
    rewrite N.mod_small by done. rewrite digit_char_value by done.
    f_equal. lia.
  - cbn [digits]. destruct (N.eqb_spec (n / 16) 0) as [Hz|Hz].
    + exists 1. intros a s. cbn [int16_acc].
      assert (n < 16) by (by apply N.div_small_iff in Hz).
      rewrite N.mod_small by done. rewrite digit_char_value by done.
      f_equal. lia.
    + destruct (IH (n / 16)) as [k Hk].
      { apply N.Div0.div_lt_upper_bound.
        rewrite <- N.pow_succ_r', <- Nat2N.inj_succ. exact Hn. }
      exists (N.succ k). intros a s. rewrite Hk. cbn [int16_acc].
      rewrite digit_char_value by (apply N.mod_lt; lia).
      f_equal. rewrite N.pow_succ_r'.
      pose proof (N.div_mod n 16 ltac:(lia)). lia.
Qed.

Lemma int16_format_04x n : int16 (format_04x n) = Some n.
Proof.
  assert (Hfuel : n < 16 ^ N.of_nat (S (N.to_nat (N.size n)))).
  { pose proof (N.size_gt n) as Hs.
    assert (2 ^ N.size n <= 16 ^ N.of_nat (S (N.to_nat (N.size n)))); [|lia].
    rewrite Nat2N.inj_succ, N2Nat.id.
    change 16 with (2 ^ 4). rewrite <- N.pow_mul_r.
    apply N.pow_le_mono_r; lia. }
  destruct (int16_acc_digits _ _ Hfuel) as [k Hk].
  assert (Hacc : int16_acc 0 (format_04x n) = Some n).
  { unfold format_04x, to_hex. rewrite int16_acc_app, int16_acc_zeros. simpl.
    rewrite Hk. simpl. f_equal. }
  unfold int16. destruct (format_04x n) eqn:E; [|exact Hacc].
  exfalso. unfold format_04x, to_hex in E. apply app_eq_nil in E as [_ E].
  pose proof (digits_length (N.to_nat (N.size n)) n "" _ Hfuel) as Hl.
  rewrite E in Hl. simpl in Hl. lia.
Qed.

Lemma canonical_hex_word d : canonical d -> hex_word d /\ short d.
Proof.
  intros [Hl Hc]. split; [split|].
  - intros ->. done.
  - intros c H. by apply lower_hex_is_hex, Hc.
  - unfold short. lia.
Qed.

End Complete.

(** X3. A list made of one range [a-b] of two hexadecimal words of at
    most four digits is accepted, and path 0 is mapped to the device
    numbers of [a] up to and including [b], each formatted with
    ["%04x"]; a range whose end lies below its start is accepted as well
    and gives path 0 the empty set. *)
Theorem expand_range_inclusive (a b : string) (x y : N)
    (Ha : Lang.hex_word a) (Hla : Canon.short a)
    (Hb : Lang.hex_word b) (Hlb : Canon.short b)
    (Hx : Hex.int16 a = Some x) (Hy : Hex.int16 b = Some y) :
  exists S : gset string,
    _expand_fcp_list (a ++ "-" ++ b) = Ret (PathMapping [(0%nat, S)])
    /\ (forall d, d ∈ S <-> exists n, x <= n <= y /\ d = Hex.format_04x n)
    /\ (y < x -> S = ∅).
Proof.
  assert (HS : expand_item (a ++ "-" ++ b)
               = Ret (list_to_set (Hex.format_04x <$> py_range x (y + 1)))).
  { change ("-" ++ b) with (String "-" b).
    unfold expand_item, int16_or_raise. rewrite Grammar.contains_app. simpl.
    rewrite orb_true_r. simpl.
    rewrite (Grammar.split_app _ _ _ (Grammar.hex_word_no _ _ Grammar.dash_not_hex Ha)).
    rewrite (Grammar.split_no _ _ (Grammar.hex_word_no _ _ Grammar.dash_not_hex Hb)).
    by rewrite Hx, Hy. }
  eexists. split; [|split].
  - apply Complete.expand_one_item; [|exact HS]. by apply Complete.lang_range_pair.
  - intros d. rewrite elem_of_list_to_set, list_elem_of_fmap. split.
    + intros (n & -> & Hn%CanonFacts.elem_of_py_range). exists n. split; [lia|done].
    + intros (n & Hn & ->). exists n. split; [done|].
      apply CanonFacts.elem_of_py_range. lia.
  - intros Hlt. apply set_eq. intros d.
    rewrite elem_of_list_to_set, list_elem_of_fmap. split; [|set_solver].
    intros (n & -> & Hn%CanonFacts.elem_of_py_range). lia.
Qed.

Lemma expand_range_inclusive_witness :
  _expand_fcp_list "0013-0011" = Ret (PathMapping [(0%nat, ∅)]).
Proof.
  destruct (expand_range_inclusive "0013" "0011" 19 17) as (S & HS & _ & Hempty).
  - split; [done|]. intros c Hc. simpl in Hc.
    repeat (apply orb_true_iff in Hc as [Hc|Hc];
            [apply Ascii.eqb_eq in Hc as ->; reflexivity|]). done.
  - unfold Canon.short. simpl. lia.
  - split; [done|]. intros c Hc. simpl in Hc.
    repeat (apply orb_true_iff in Hc as [Hc|Hc];
            [apply Ascii.eqb_eq in Hc as ->; reflexivity|]). done.
  - unfold Canon.short. simpl. lia.
  - reflexivity.
  - reflexivity.
  - rewrite Hempty in HS by lia. exact HS.
Defined.

(** X4. A list made of one hexadecimal word of at most four digits, in
    either case, is expanded into the canonical form of its value on path
    0; the canonical form reads back as the same value and is expanded
    into itself. *)
Theorem expand_single_address (a : string) (x : N)
    (Ha : Lang.hex_word a) (Hla : Canon.short a) (Hx : Hex.int16 a = Some x) :
  _expand_fcp_list a = Ret (PathMapping [(0%nat, {[ Hex.format_04x x ]})])
  /\ Hex.int16 (Hex.format_04x x) = Some x
  /\ _expand_fcp_list (Hex.format_04x x)
     = Ret (PathMapping [(0%nat, {[ Hex.format_04x x ]})]).
Proof.
  assert (Hone : forall w v, Lang.hex_word w -> Canon.short w -> Hex.int16 w = Some v ->
            _expand_fcp_list w = Ret (PathMapping [(0%nat, {[ Hex.format_04x v ]})])).
  { intros w v Hw Hs Hv. apply Complete.expand_one_item; [by apply Complete.lang_range_word|].
    unfold expand_item, int16_or_raise.
    rewrite (Grammar.hex_word_no _ _ Grammar.dash_not_hex Hw). simpl. by rewrite Hv. }
  split; [by apply Hone|]. split; [apply Complete.int16_format_04x|].
  destruct (Complete.canonical_hex_word (Hex.format_04x x)) as [Hw Hs].
  { apply CanonFacts.format_04x_canonical. by eapply CanonFacts.int16_short. }
  apply Hone; [done|done|apply Complete.int16_format_04x].
Qed.

Lemma expand_single_address_witness :
  _expand_fcp_list "1A" = Ret (PathMapping [(0%nat, {[ "001a" ]})]).
Proof.
  apply (expand_single_address "1A" 26).
  - split; [done|]. intros c Hc. simpl in Hc.
    repeat (apply orb_true_iff in Hc as [Hc|Hc];
            [apply Ascii.eqb_eq in Hc as ->; reflexivity|]). done.
  - unfold Canon.short. simpl. lia.
  - reflexivity.
Defined.

(** * The paths of the mapping and the segments of the list *)

Module Denotation.
Import PyStr Hex ExpandFacts PathSets Denote.

Lemma int16_acc_no c s acc n :
  is_hex c = false -> int16_acc acc s = Some n -> contains c s = false.
Proof.
  intros Hc. revert acc. induction s as [|d s IH]; intros acc; [done|].
  simpl. destruct (digit_value d) as [v|] eqn:Hd; [|discriminate].
  intros H. rewrite (IH _ H), orb_false_r.
  destruct (Ascii.eqb_spec c d) as [->|]; [|done].
  unfold is_hex in Hc. by rewrite Hd in Hc.
Qed.

(** A literal that [int(s, 16)] reads holds no dash. *)
Lemma int16_no_dash s n : int16 s = Some n -> contains "-" s = false.
Proof.
  unfold int16. destruct s as [|c s]; [done|].
  by apply int16_acc_no.
Qed.

Lemma split_nonempty c s : split c s <> [].
Proof.
  destruct s as [|d s]; simpl; [done|].
  destruct (Ascii.eqb c d); [done|]. by destruct (split c s).
Qed.

Lemma split_one c s b : split c s = [b] -> s = b.
Proof.
  revert b. induction s as [|d s IH]; intros b; simpl; [by intros [= <-]|].
  destruct (Ascii.eqb c d).
  - intros [= _ Hs]. by apply split_nonempty in Hs.
  - destruct (split c s) as [|h r] eqn:E; [by apply split_nonempty in E|].
    intros [= <- ->]. f_equal. by apply IH.
Qed.

(** A string that splits in two is the two parts around the separator. *)
Lemma split_two c s a b : split c s = [a; b] -> s = a ++ String c b.
Proof.
  revert a. induction s as [|d s IH]; intros a; [done|]. simpl.
  destruct (Ascii.eqb_spec c d) as [->|Hne].
  - intros [= <- Hs]. rewrite Grammar.app_nil_l. f_equal. by apply split_one in Hs.
  - destruct (split c s) as [|h [|h' r]] eqn:E; [done|done|].
    intros [= <- <- ->]. rewrite Grammar.app_cons. f_equal. by apply IH.
Qed.

(** The devices of a literal. *)
Lemma expand_item_word item n :
  int16 item = Some n -> expand_item item = Ret {[ format_04x n ]}.
Proof.
  intros Hn. unfold expand_item, int16_or_raise.
  by rewrite (int16_no_dash _ _ Hn), Hn.
Qed.

(** The devices of a range. *)
Lemma expand_item_pair a b x y :
  int16 a = Some x -> int16 b = Some y ->
  expand_item (a ++ "-" ++ b)
  = Ret (list_to_set (format_04x <$> py_range x (y + 1))).
Proof.
  intros Ha Hb. unfold expand_item, int16_or_raise.
  change (a ++ "-" ++ b) with (a ++ String "-" b).
  rewrite Grammar.contains_app. simpl. rewrite orb_true_r. cbn [negb].
  rewrite (Grammar.split_app _ _ _ (int16_no_dash _ _ Ha)).
  rewrite (Grammar.split_no _ _ (int16_no_dash _ _ Hb)).
  by rewrite Ha, Hb.
Qed.

(** The set the code builds for an item holds the addresses the item
    stands for, formatted with ["%04x"], and nothing else. *)
Lemma item_set_holds item d :
  d ∈ item_set item <-> exists n, item_holds item n /\ d = format_04x n.
Proof.
  unfold item_set, item_holds. split.
  - destruct (expand_item item) as [S|] eqn:E; [|set_solver].
    revert E. unfold expand_item, int16_or_raise.
    destruct (contains "-" item) eqn:Hdash; cbn [negb].
    + destruct (split "-" item) as [|a [|b [|c l]]] eqn:Hsplit; try discriminate.
      apply split_two in Hsplit as ->.
      destruct (int16 a) as [x|] eqn:Hx; osimpl; [|discriminate].
      destruct (int16 b) as [y|] eqn:Hy; osimpl; [|discriminate].
      intros [= <-] Hd.
      apply elem_of_list_to_set, list_elem_of_fmap in Hd as (n & -> & Hn).
      apply CanonFacts.elem_of_py_range in Hn. exists n. split; [|done].
      right. exists a, b, x, y. repeat split; try done; lia.
    + destruct (int16 item) as [x|] eqn:Hx; osimpl; [|discriminate].
      intros [= <-] ->%elem_of_singleton. exists x. by split; [left|].
  - intros (n & [Hn|(a & b & x & y & -> & Ha & Hb & Hxy)] & ->).
    + rewrite (expand_item_word _ _ Hn). by apply elem_of_singleton.
    + rewrite (expand_item_pair _ _ _ _ Ha Hb).
      apply elem_of_list_to_set, list_elem_of_fmap. exists n. split; [done|].
      apply CanonFacts.elem_of_py_range. lia.
Qed.

(** The same for a segment. *)
Lemma segment_set_holds _range d :
  d ∈ segment_set _range <-> exists n, segment_holds _range n /\ d = format_04x n.
Proof.
  unfold segment_set, segment_holds. rewrite elem_of_union_list. split.
  - intros (X & HX & Hd). apply list_elem_of_fmap in HX as (item & -> & Hitem).
    apply item_set_holds in Hd as (n & Hn & ->). eauto.
  - intros (n & (item & Hitem & Hn) & ->). exists (item_set item). split.
    + apply list_elem_of_fmap. eauto.
    + apply item_set_holds. eauto.
Qed.

(** ["%04x"] gives different numbers different texts. *)
Lemma format_04x_inj n1 n2 : format_04x n1 = format_04x n2 -> n1 = n2.
Proof.
  intros H. pose proof (Complete.int16_format_04x n1) as H1.
  rewrite H, Complete.int16_format_04x in H1. congruence.
Qed.

(** The sets of two segments are disjoint exactly when no address is
    written in both. *)
Lemma segment_sets_disjoint r1 r2 :
  segment_set r1 ## segment_set r2
  <-> forall n, ~ (segment_holds r1 n /\ segment_holds r2 n).
Proof.
  split.
  - intros Hd n [H1 H2]. apply (Hd (format_04x n)); apply segment_set_holds; eauto.
  - intros H d (n1 & H1 & ->)%segment_set_holds (n2 & H2 & E)%segment_set_holds.
    apply format_04x_inj in E as ->. by apply (H n2).
Qed.

End Denotation.

(** C4, amended. Every string that passes the grammar check is expanded
    into a path mapping in which the set of a path holds exactly the
    addresses that the segment of the string at that position is written
    to stand for, each formatted with ["%04x"]; so the sets of two
    distinct paths are disjoint exactly when no address is written in
    both of their segments. *)
Theorem expand_paths_disjoint (fcp_list : string)
    (Hnonempty : fcp_list <> "")
    (Haccepted : grammar_ok (normalize fcp_list) = true) :
  exists m : PyDict.dict (gset string),
    _expand_fcp_list fcp_list = Ret (PathMapping m)
    /\ (forall (p : nat) (S : gset string),
          PyDict.get m p = Some S ->
          exists _range,
            PyStr.split ";" (normalize fcp_list) !! p = Some _range
            /\ forall d, d ∈ S <->
                 exists n, Denote.segment_holds _range n /\ d = Hex.format_04x n)
    /\ (forall (p q : nat) (S T : gset string) (r1 r2 : string),
          p <> q -> PyDict.get m p = Some S -> PyDict.get m q = Some T ->
          PyStr.split ";" (normalize fcp_list) !! p = Some r1 ->
          PyStr.split ";" (normalize fcp_list) !! q = Some r2 ->
          (S ## T <-> forall n, ~ (Denote.segment_holds r1 n
                                   /\ Denote.segment_holds r2 n))).
Proof.
  destruct (Grammar.expand_total fcp_list Hnonempty Haccepted) as [m Hexp].
  exists m. split; [exact Hexp|]. split.
  - intros p S HS.
    destruct (PathSetFacts.expand_path_is_segment _ _ _ _ Hexp HS) as (r & Hr & ->).
    exists r. split; [exact Hr|]. apply Denotation.segment_set_holds.
  - intros p q S T r1 r2 Hpq HS HT Hr1 Hr2.
    destruct (PathSetFacts.expand_path_is_segment _ _ _ _ Hexp HS) as (r1' & Hr1' & ->).
    destruct (PathSetFacts.expand_path_is_segment _ _ _ _ Hexp HT) as (r2' & Hr2' & ->).
    rewrite Hr1 in Hr1'. rewrite Hr2 in Hr2'. injection Hr1' as <-. injection Hr2' as <-.
    apply Denotation.segment_sets_disjoint.
Qed.

Lemma expand_paths_disjoint_witness :
  exists m : PyDict.dict (gset string),
    _expand_fcp_list "0011-0013;0021-0023" = Ret (PathMapping m)
    /\ forall S, PyDict.get m 1%nat = Some S -> "0022" ∈ S.
Proof.
  destruct (expand_paths_disjoint "0011-0013;0021-0023") as (m & Hexp & Hsets & _).
  - discriminate.
  - vm_compute. reflexivity.
  - exists m. split; [exact Hexp|]. intros S HS.
    destruct (Hsets 1%nat S HS) as (r & Hr & Hin).
    vm_compute in Hr. injection Hr as <-. apply Hin. exists 34. split; [|reflexivity].
    exists "0021-0023". split; [vm_compute; left|].
    right. exists "0021", "0023", 33, 35. repeat split; try reflexivity; lia.
Defined.

(** * The descriptor of a device *)

Module StrFacts.
Import PyStr.

Lemma code_of_N n : n < 256 -> code (ascii_of_N n) = n.
Proof. intros H. unfold code. by apply N_ascii_embedding. Qed.

Lemma code_lt c : code c < 256.
Proof. unfold code. apply N_ascii_bounded. Qed.

Lemma lower_char_idem c : lower_char (lower_char c) = lower_char c.
Proof.
  unfold lower_char. pose proof (code_lt c).
  destruct ((65 <=? code c) && (code c <=? 90)) eqn:E.
  - apply andb_true_iff in E as [E1%N.leb_le E2%N.leb_le].
    rewrite code_of_N by lia.
    destruct (N.leb_spec (code c + 32) 90) as [|]; [lia|]. by rewrite andb_false_r.
  - by rewrite E.
Qed.

Lemma upper_char_idem c : upper_char (upper_char c) = upper_char c.
Proof.
  unfold upper_char. pose proof (code_lt c).
  destruct ((97 <=? code c) && (code c <=? 122)) eqn:E.
  - apply andb_true_iff in E as [E1%N.leb_le E2%N.leb_le].
    rewrite code_of_N by lia.
    destruct (N.leb_spec 97 (code c - 32)) as [|]; [lia|]. done.
  - by rewrite E.
Qed.

Lemma map_chars_idem f s :
  (forall c, f (f c) = f c) -> map_chars f (map_chars f s) = map_chars f s.
Proof. intros H. induction s as [|c s IH]; simpl; [done|]. by rewrite H, IH. Qed.

Lemma lower_idem s : lower (lower s) = lower s.
Proof. apply map_chars_idem, lower_char_idem. Qed.

Lemma upper_idem s : upper (upper s) = upper s.
Proof. apply map_chars_idem, upper_char_idem. Qed.

Lemma is_space_lower_char c : is_space (lower_char c) = is_space c.
Proof.
  unfold lower_char. pose proof (code_lt c).
  destruct ((65 <=? code c) && (code c <=? 90)) eqn:E; [|done].
  apply andb_true_iff in E as [E1%N.leb_le E2%N.leb_le].
  rewrite (CharFacts.printable_not_space c) by lia.
  apply CharFacts.printable_not_space. rewrite code_of_N by lia. lia.
Qed.

Lemma is_space_upper_char c : is_space (upper_char c) = is_space c.
Proof.
  unfold upper_char. pose proof (code_lt c).
  destruct ((97 <=? code c) && (code c <=? 122)) eqn:E; [|done].
  apply andb_true_iff in E as [E1%N.leb_le E2%N.leb_le].
  rewrite (CharFacts.printable_not_space c) by lia.
  apply CharFacts.printable_not_space. rewrite code_of_N by lia. lia.
Qed.

Section Map.
Variable f : ascii -> ascii.
Hypothesis Hf : forall c, is_space (f c) = is_space c.

Lemma lstrip_map s : lstrip (map_chars f s) = map_chars f (lstrip s).
Proof.
  induction s as [|c s IH]; [done|]. simpl. rewrite Hf.
  by destruct (is_space c).
Qed.

Lemma rstrip_map s : rstrip (map_chars f s) = map_chars f (rstrip s).
Proof.
  induction s as [|c s IH]; [done|]. simpl. rewrite IH, Hf.
  destruct (rstrip s); simpl; [by destruct (is_space c)|done].
Qed.

Lemma strip_map s : strip (map_chars f s) = map_chars f (strip s).
Proof. unfold strip. by rewrite lstrip_map, rstrip_map. Qed.
End Map.

Lemma lstrip_clean s : Canon.starts_clean (lstrip s).
Proof.
  induction s as [|c s IH]; simpl; [done|].
  destruct (is_space c) eqn:E; [done|]. simpl. done.
Qed.

Lemma lstrip_of_clean s : Canon.starts_clean s -> lstrip s = s.
Proof. destruct s as [|c s]; [done|]. simpl. by intros ->. Qed.

Lemma rstrip_clean s : Canon.starts_clean s -> Canon.starts_clean (rstrip s).
Proof.
  destruct s as [|c s]; [done|]. simpl. intros Hc.
  destruct (rstrip s); [by rewrite Hc|done].
Qed.

Lemma rstrip_idem s : rstrip (rstrip s) = rstrip s.
Proof.
  induction s as [|c s IH]; [done|]. simpl.
  destruct (rstrip s) as [|d t] eqn:E.
  - destruct (is_space c) eqn:Hc; [done|]. simpl. by rewrite Hc.
  - change (rstrip (String c (String d t)))
      with (match rstrip (String d t) with
            | "" => if is_space c then "" else String c ""
            | t' => String c t'
            end).
    by rewrite IH.
Qed.

Lemma strip_idem s : strip (strip s) = strip s.
Proof.
  unfold strip. rewrite (lstrip_of_clean (rstrip (lstrip s))).
  - apply rstrip_idem.
  - apply rstrip_clean, lstrip_clean.
Qed.

Lemma split_last c p v :
  contains c v = false ->
  exists l, l <> [] /\ split c (p ++ String c v) = (l ++ [v])%list.
Proof.
  intros Hv. induction p as [|d p (l & Hl & IH)].
  - exists [""]. split; [done|]. simpl. by rewrite Ascii.eqb_refl, Grammar.split_no.
  - change (String d p ++ String c v) with (String d (p ++ String c v)). simpl.
    rewrite IH. destruct (Ascii.eqb c d).
    + exists ("" :: l). by split.
    + destruct l as [|h l]; [done|]. exists (String d h :: l). by split.
Qed.

Lemma last_field_app c p v :
  contains c v = false -> last_field c (p ++ String c v) = v.
Proof.
  intros Hv. destruct (split_last c p v Hv) as (l & _ & E).
  unfold last_field. rewrite E. apply last_last.
Qed.

End StrFacts.

Module ParseFacts.
Import PyStr FCPParse StrFacts.

Lemma or_none_some s w : or_none s = Some w -> w = s /\ s <> "".
Proof. unfold or_none. destruct s; simpl; [done|]. by intros [= <-]. Qed.

Lemma lower_field x w :
  or_none (lower (strip x)) = Some w -> w <> "" /\ lower w = w /\ strip w = w.
Proof.
  intros [-> Hne]%or_none_some. split; [done|]. split; [apply lower_idem|].
  unfold lower. rewrite (strip_map _ is_space_lower_char), strip_idem. done.
Qed.

Lemma upper_field x w :
  or_none (upper (strip x)) = Some w -> w <> "" /\ upper w = w /\ strip w = w.
Proof.
  intros [-> Hne]%or_none_some. split; [done|]. split; [apply upper_idem|].
  unfold upper. rewrite (strip_map _ is_space_upper_char), strip_idem. done.
Qed.

Lemma wwpn_field line w :
  _get_wwpn_from_line line = Some w ->
  w <> "" /\ w <> "none" /\ lower w = w /\ strip w = w.
Proof.
  unfold _get_wwpn_from_line.
  destruct (truthy _) eqn:Ht; [|discriminate]. cbn [andb].
  destruct (String.eqb_spec (upper (lower (strip (last_field ":" line)))) "NONE")
    as [|Hnone]; [discriminate|].
  cbn [negb]. intros [= <-].
  destruct (lower_field (last_field ":" line) (lower (strip (last_field ":" line))))
    as (H1 & H2 & H3).
  { unfold or_none. by rewrite Ht. }
  split; [done|]. split; [|by split]. intros E. rewrite E in Hnone. by apply Hnone.
Qed.

Lemma line_of_field p v :
  contains ":" v = false -> last_field ":" (p ++ ":" ++ v) = v.
Proof. intros H. by apply last_field_app. Qed.

End ParseFacts.

(** X5. The fields of a descriptor that [FCP._parse] fills are in normal
    form: a device number, a status and a WWPN are not empty, in lower
    case and without white space around them, a channel path is the same
    in upper case, and a WWPN is never ["none"]; a field is [None]
    otherwise.  So for a parsed descriptor the WWPN is the NPIV port
    whenever there is one, and the physical port otherwise. *)
Theorem parse_fields_normal_form (init_info : list string) (w : string) :
  let fcp := FCPParse.parse init_info in
  (_dev_no fcp = Some w -> w <> "" /\ PyStr.lower w = w /\ PyStr.strip w = w)
  /\ (_dev_status fcp = Some w ->
      w <> "" /\ PyStr.lower w = w /\ PyStr.strip w = w)
  /\ (_npiv_port fcp = Some w ->
      w <> "" /\ w <> "none" /\ PyStr.lower w = w /\ PyStr.strip w = w)
  /\ (_chpid fcp = Some w -> w <> "" /\ PyStr.upper w = w /\ PyStr.strip w = w)
  /\ (_physical_port fcp = Some w ->
      w <> "" /\ w <> "none" /\ PyStr.lower w = w /\ PyStr.strip w = w)
  /\ wwpn_of (Some fcp)
     = match _npiv_port fcp with
       | Some npiv => Some npiv
       | None => _physical_port fcp
       end.
Proof.
  intros fcp. subst fcp. unfold FCPParse.parse.
  destruct init_info as [|l0 [|l1 [|l2 [|l3 [|l4 [|l5 rest]]]]]];
    try (repeat split; discriminate).
  cbn [_dev_no _dev_status _npiv_port _chpid _physical_port].
  split; [apply ParseFacts.lower_field|]. split; [apply ParseFacts.lower_field|].
  split; [apply ParseFacts.wwpn_field|]. split; [apply ParseFacts.upper_field|].
  split; [apply ParseFacts.wwpn_field|].
  unfold wwpn_of. cbn [_npiv_port _physical_port].
  destruct (FCPParse._get_wwpn_from_line l2) as [n|] eqn:En.
  - apply ParseFacts.wwpn_field in En as [Hn _]. simpl. by destruct n.
  - simpl. destruct (FCPParse._get_wwpn_from_line l4) as [q|] eqn:Eq; [|done].
    apply ParseFacts.wwpn_field in Eq as [Hq _]. simpl. by destruct q.
Qed.

(** X6. [FCP._parse] reads of every line what follows its last colon
    only: whatever stands before the colon, the label of the line
    included, does not change the descriptor. *)
Theorem parse_ignores_labels (fields : list (string * string))
    (Hvalues : Forall (fun pv => PyStr.contains ":" pv.2 = false) fields) :
  FCPParse.parse ((fun pv => pv.1 ++ ":" ++ pv.2) <$> fields)
  = FCPParse.parse (fields.*2).
Proof.
  assert (Hlast : forall v, PyStr.contains ":" v = false -> PyStr.last_field ":" v = v).
  { intros v Hv. unfold PyStr.last_field. by rewrite Grammar.split_no. }
  destruct fields as [|[p0 v0] [|[p1 v1] [|[p2 v2] [|[p3 v3] [|[p4 v4] [|pv5 rest]]]]]];
    try reflexivity.
  repeat match goal with
  | H : Forall _ (_ :: _) |- _ => apply Forall_cons in H as [? H]
  end. simpl in *.
  unfold FCPParse.parse. cbn [fmap list_fmap fst snd].
  unfold FCPParse._get_dev_number_from_line, FCPParse._get_dev_status_from_line,
    FCPParse._get_wwpn_from_line, FCPParse._get_chpid_from_line.
  rewrite !ParseFacts.line_of_field, !Hlast by done. reflexivity.
Qed.

Lemma parse_ignores_labels_witness :
  FCPParse.parse ["a: 1A00"; "b: Free"; "c: NONE"; "d: 59"; "e: 20076D8500005181"]
  = FCPParse.parse [" 1A00"; " Free"; " NONE"; " 59"; " 20076D8500005181"].
Proof.
  apply (parse_ignores_labels
           [("a", " 1A00"); ("b", " Free"); ("c", " NONE"); ("d", " 59");
            ("e", " 20076D8500005181")]).
  repeat (apply Forall_cons; split; [reflexivity|]). apply Forall_nil_2.
Defined.

(** * The pool of devices *)

Module PoolFacts.
Import Run.

(** One turn of the loop of [_init_fcp_pool]. *)
Lemma init_step_run set info n s :
  exists s',
    _init_fcp_pool_step set info n s = (Ret tt, s')
    /\ db s' = db s /\ _fcp_path_mapping s' = _fcp_path_mapping s
    /\ trace s' = trace s
    /\ _fcp_pool s'
       = match _dev_no (FCPParse.parse (FCPParse.slice5 info n)) with
         | Some dev_no =>
             if bool_decide (dev_no ∈ set)
             then <[dev_no := FCPParse.parse (FCPParse.slice5 info n)]> (_fcp_pool s)
             else _fcp_pool s
         | None => _fcp_pool s
         end.
Proof.
  unfold _init_fcp_pool_step.
  destruct (_dev_no _) as [dev_no|]; [|by exists s].
  case_bool_decide; [|by exists s]. eexists. split; [reflexivity|]. done.
Qed.

(** The loop of [_init_fcp_pool] over the blocks [l] of the inventory. *)
Lemma init_loop_run set info (l : list nat) s :
  exists s',
    for_ l (_init_fcp_pool_step set info) s = (Ret tt, s')
    /\ db s' = db s /\ _fcp_path_mapping s' = _fcp_path_mapping s
    /\ trace s' = trace s
    /\ (forall k, is_Some (_fcp_pool s !! k) -> is_Some (_fcp_pool s' !! k))
    /\ (forall k d, _fcp_pool s' !! k = Some d ->
          _fcp_pool s !! k = Some d
          \/ (k ∈ set /\ _dev_no d = Some k
              /\ exists n, n ∈ l /\ d = FCPParse.parse (FCPParse.slice5 info n)))
    /\ (forall n k, n ∈ l ->
          _dev_no (FCPParse.parse (FCPParse.slice5 info n)) = Some k -> k ∈ set ->
          is_Some (_fcp_pool s' !! k)).
Proof.
  revert s. induction l as [|n l IH]; intros s.
  { exists s. split; [done|]. repeat split; auto.
    intros n k Hn. by apply elem_of_nil in Hn. }
  destruct (init_step_run set info n s) as (s1 & E1 & Hdb1 & Hm1 & Ht1 & Hp1).
  destruct (IH s1) as (s' & E' & Hdb & Hm & Ht & Hkeep & Hnew & Hall).
  exists s'. cbn [for_]. rewrite bind_run, E1. split; [exact E'|].
  split; [congruence|]. split; [congruence|]. split; [congruence|].
  assert (Hkeep1 : forall k, is_Some (_fcp_pool s !! k) -> is_Some (_fcp_pool s1 !! k)).
  { intros k Hk. rewrite Hp1. destruct (_dev_no _) as [dev_no|]; [|done].
    case_bool_decide; [|done]. destruct (decide (dev_no = k)) as [->|Hne].
    - rewrite lookup_insert_eq. eauto.
    - by rewrite lookup_insert_ne. }
  split; [|split].
  - intros k Hk. by apply Hkeep, Hkeep1.
  - intros k d Hd. destruct (Hnew k d Hd) as [Hd1|(Hk & Hno & n' & Hn' & ->)].
    + rewrite Hp1 in Hd1.
      destruct (_dev_no (FCPParse.parse (FCPParse.slice5 info n))) as [dev_no|] eqn:Hno;
        [|by left].
      case_bool_decide as Hset; [|by left].
      destruct (decide (dev_no = k)) as [->|Hne].
      * rewrite lookup_insert_eq in Hd1. injection Hd1 as <-. right.
        split; [done|]. split; [done|]. exists n. split; [left|done].
      * rewrite lookup_insert_ne in Hd1 by done. by left.
    + right. split; [done|]. split; [done|]. exists n'. split; [by right|done].
  - intros n' k [->|Hn']%elem_of_cons Hno Hk; [|by eapply Hall].
    apply Hkeep. rewrite Hp1, Hno, bool_decide_eq_true_2 by done.
    rewrite lookup_insert_eq. eauto.
Qed.

Lemma elem_of_complete_set (m : PyDict.dict (gset string)) k :
  k ∈ (⋃ (PyDict.items m).*2 : gset string) <-> exists p S, (p, S) ∈ m /\ k ∈ S.
Proof.
  unfold PyDict.items. rewrite elem_of_union_list. split.
  - intros (S & HS & Hk). apply list_elem_of_fmap in HS as ([p S'] & -> & Hin). eauto.
  - intros (p & S & Hin & Hk). exists S. split; [|done].
    apply list_elem_of_fmap. by exists (p, S).
Qed.

End PoolFacts.

(** X7. When [_init_fcp_pool] returns, the store is as it was and the
    path mapping is the expansion of the list.  The pool has only grown:
    no device is removed from it, also not one that has left the
    inventory or the configuration; a descriptor that is new in the pool
    stands under its own device number, which is on a path of the
    mapping; and every block of five lines of the inventory (the free
    devices before the active ones) whose device number is on a path of
    the mapping has its device in the pool. *)
Theorem init_fcp_pool_only_adds (W : world) (fcp_list assigner_id : string)
    (s s' : state)
    (Hreturned : _init_fcp_pool W fcp_list assigner_id s = (Ret tt, s')) :
  db s' = db s
  /\ _expand_fcp_list fcp_list = Ret (PathMapping (_fcp_path_mapping s'))
  /\ (forall k, is_Some (_fcp_pool s !! k) -> is_Some (_fcp_pool s' !! k))
  /\ (forall k d, _fcp_pool s' !! k = Some d ->
        _fcp_pool s !! k = Some d
        \/ (_dev_no d = Some k
            /\ exists p S, (p, S) ∈ _fcp_path_mapping s' /\ k ∈ S))
  /\ exists free active,
       fcp_info_by_status W (trace s) assigner_id "free" = Ret free
       /\ fcp_info_by_status W
            (Asked (get_fcp_info_by_status assigner_id "free") :: trace s)
            assigner_id "active" = Ret active
       /\ forall n k p S,
            (n < length (free ++ active) / 5)%nat ->
            _dev_no (FCPParse.parse (FCPParse.slice5 (free ++ active) n)) = Some k ->
            (p, S) ∈ _fcp_path_mapping s' -> k ∈ S ->
            is_Some (_fcp_pool s' !! k).
Proof.
  unfold _init_fcp_pool in Hreturned. rewrite Run.bind_run in Hreturned.
  unfold lift at 1 in Hreturned.
  destruct (_expand_fcp_list fcp_list) as [[|m]|e]; try discriminate.
  rewrite Run.bind_run in Hreturned. unfold modify at 1 in Hreturned.
  cbv beta iota in Hreturned. rewrite Run.bind_run in Hreturned.
  assert (Hinfo : forall s1 info,
            _get_all_fcp_info W assigner_id (set_mapping m s) = (Ret info, s1) ->
            db s1 = db s /\ _fcp_pool s1 = _fcp_pool s /\ _fcp_path_mapping s1 = m
            /\ exists free active,
                 fcp_info_by_status W (trace s) assigner_id "free" = Ret free
                 /\ fcp_info_by_status W
                      (Asked (get_fcp_info_by_status assigner_id "free") :: trace s)
                      assigner_id "active" = Ret active
                 /\ info = (free ++ active)%list).
  { intros s1 info. unfold _get_all_fcp_info, _list_fcp_details, ask_fcp_info.
    Run.mred. cbn [trace set_mapping log].
    destruct (fcp_info_by_status W (trace s) assigner_id "free") as [free|];
      [|discriminate].
    destruct (fcp_info_by_status W _ assigner_id "active") as [active|];
      [|discriminate].
    intros [= <- <-]. repeat split. by exists free, active. }
  destruct (_get_all_fcp_info W assigner_id (set_mapping m s)) as [[info|e] s1];
    [|discriminate].
  destruct (Hinfo s1 info eq_refl) as (Hdb1 & Hp1 & Hm1 & free & active & Hf & Ha & ->).
  destruct (PoolFacts.init_loop_run (⋃ (PyDict.items m).*2) (free ++ active)
              (seq 0 (length (free ++ active) / 5)) s1)
    as (s2 & E2 & Hdb2 & Hm2 & _ & Hkeep2 & Hnew2 & Hall2).
  rewrite E2 in Hreturned. injection Hreturned as <-.
  split; [congruence|]. split; [by rewrite Hm2, Hm1|].
  split; [intros k; rewrite <- Hp1; apply Hkeep2|]. split.
  - intros k d Hd. destruct (Hnew2 k d Hd) as [Hold|(Hk' & Hno & _)].
    + left. by rewrite <- Hp1.
    + right. split; [done|]. rewrite Hm2, Hm1.
      by apply PoolFacts.elem_of_complete_set.
  - exists free, active. split; [done|]. split; [done|].
    intros n k p S Hn Hno Hin Hk. eapply Hall2; [|exact Hno|].
    + apply elem_of_seq. lia.
    + apply PoolFacts.elem_of_complete_set. rewrite Hm2, Hm1 in Hin. eauto.
Qed.

Lemma init_fcp_pool_only_adds_witness :
  db Example.unsynced = db Example.reserved_idle
  /\ _expand_fcp_list "1a00-1a01;1b00"
     = Ret (PathMapping (_fcp_path_mapping Example.unsynced)).
Proof.
  destruct (init_fcp_pool_only_adds Example.installation "1a00-1a01;1b00" "VM1"
              Example.reserved_idle Example.unsynced) as (Hdb & Hmap & _).
  - vm_compute. reflexivity.
  - by split.
Defined.

(** X8. With a list of devices in the configuration that is not empty
    and does not pass the grammar check, [_attach] raises the
    configuration error of the expansion for every request, a root volume
    included, before anything else is done: the store, the pool and the
    journal of calls are as they were. *)
Theorem attach_with_malformed_configuration (W : world) (fcp_list : list string)
    (assigner_id : string) (v : volume) (path_count : nat) (is_root_volume : bool)
    (s : state)
    (Hconfigured : CONF_volume_fcp_list W <> "")
    (Hmalformed : grammar_ok (normalize (CONF_volume_fcp_list W)) = false) :
  _attach W fcp_list assigner_id v path_count is_root_volume s
  = (Raise (invalid_address (normalize (CONF_volume_fcp_list W))), s).
Proof.
  unfold _attach, attach_register, init_fcp, _init_fcp_pool.
  destruct (String.eqb_spec (CONF_volume_fcp_list W) "") as [|_]; [done|].
  rewrite (ExpandFacts.expand_nonempty _ Hconfigured), Hmalformed. reflexivity.
Qed.

Lemma attach_with_malformed_configuration_witness :
  _attach Cases.misconfigured ["1a00"] "VM1" Example.some_volume 1 true
    Example.reserved_idle
  = (Raise (invalid_address "1a00-"), Example.reserved_idle).
Proof.
  apply (attach_with_malformed_configuration Cases.misconfigured).
  - discriminate.
  - vm_compute. reflexivity.
Defined.

(** * The records that the synchronisation deletes, keeps and adds *)

Module SyncRecords.
Import Run Sync.

Lemma set_path_same r : Db.set_path (path r) r = r.
Proof. by destruct r. Qed.

(** One turn of the second loop, record by record. *)
Lemma sync_one_records p f s :
  exists s',
    _sync_one p f s = (Ret tt, s')
    /\ _fcp_pool s' = _fcp_pool s
    /\ (forall k r, db s !! k = Some r ->
          exists q, db s' !! k = Some (Db.set_path q r)
                    /\ (q = path r \/ (q = p /\ k = f)))
    /\ (forall k r', db s !! k = None -> db s' !! k = Some r' ->
          k = f /\ r' = mk_rec None 0 false p
          /\ in_pool s k = true
          /\ exists d, _fcp_pool s !! k = Some d /\ _dev_status d = Some "free").
Proof.
  unfold _sync_one, DbM.get_from_fcp, Db.get_from_fcp, _add_fcp, ignore_errors,
    try_except, pool_get, DbM.new, DbM.update_path_of_fcp, db_exec, Db.new,
    Db.update_path_of_fcp, Db.update, Db.with_rec. mred.
  assert (Hsame : forall k r, db s !! k = Some r ->
            exists q, db s !! k = Some (Db.set_path q r)
                      /\ (q = path r \/ (q = p /\ k = f))).
  { intros k r Hr. exists (path r). rewrite set_path_same. auto. }
  destruct (in_pool s f) eqn:Hin.
  2:{ exists s. repeat split; auto; congruence. }
  destruct (db s !! f) as [r|] eqn:Hr.
  - destruct (Nat.eqb_spec (path r) p) as [Hp|Hp]; cbn [negb].
    + exists s. repeat split; auto; congruence.
    + cbn [db log]. rewrite Hr. eexists. split; [reflexivity|]. cbn.
      split; [done|]. split.
      * intros k r0 Hr0. destruct (decide (k = f)) as [->|Hkf].
        -- rewrite Hr in Hr0. injection Hr0 as <-. exists p.
           rewrite lookup_insert_eq. auto.
        -- rewrite lookup_insert_ne by done. auto.
      * intros k r' Hk. destruct (decide (k = f)) as [->|Hkf]; [congruence|].
        rewrite lookup_insert_ne by done. congruence.
  - destruct (_fcp_pool s !! f) as [d|] eqn:Hd.
    + case_bool_decide as Hfree.
      * cbn [db log]. rewrite Hr. eexists. split; [reflexivity|]. cbn.
        split; [done|]. split.
        -- intros k r0 Hr0. destruct (decide (k = f)) as [->|Hkf]; [congruence|].
           rewrite lookup_insert_ne by done. auto.
        -- intros k r' Hk. destruct (decide (k = f)) as [->|Hkf].
           ++ rewrite lookup_insert_eq. intros [= <-]. eauto 10.
           ++ rewrite lookup_insert_ne by done. congruence.
      * exists s. repeat split; auto; congruence.
    + exists s. repeat split; auto; congruence.
Qed.

Lemma set_path_set_path q q' r : Db.set_path q (Db.set_path q' r) = Db.set_path q r.
Proof. reflexivity. Qed.

(** The second loop, record by record. *)
Lemma sync_loop_records (l : list (nat * string)) s :
  exists s',
    for_ l (fun '(path_no, fcp) => _sync_one path_no fcp) s = (Ret tt, s')
    /\ _fcp_pool s' = _fcp_pool s
    /\ (forall k r, db s !! k = Some r ->
          exists q, db s' !! k = Some (Db.set_path q r)
                    /\ (q = path r \/ (q, k) ∈ l))
    /\ (forall k r', db s !! k = None -> db s' !! k = Some r' ->
          (exists q, r' = mk_rec None 0 false q /\ (q, k) ∈ l)
          /\ in_pool s k = true
          /\ exists d, _fcp_pool s !! k = Some d /\ _dev_status d = Some "free").
Proof.
  revert s. induction l as [|[p f] l IH]; intros s.
  { exists s. split; [done|]. split; [done|]. split.
    - intros k r Hr. exists (path r). rewrite set_path_same. auto.
    - congruence. }
  destruct (sync_one_records p f s) as (s1 & E1 & Hp1 & Hsome1 & Hnone1).
  destruct (IH s1) as (s' & E' & Hp & Hsome & Hnone).
  exists s'. cbn [for_]. rewrite bind_run, E1. split; [exact E'|].
  split; [congruence|]. split.
  - intros k r Hr. destruct (Hsome1 k r Hr) as (q1 & Hr1 & Hq1).
    destruct (Hsome k _ Hr1) as (q & Hr' & Hq). exists q.
    rewrite set_path_set_path in Hr'. split; [done|].
    destruct Hq as [->|Hq]; [|right; by right].
    destruct Hq1 as [->|[-> ->]]; [by left|right; left].
  - intros k r' Hk Hr'. destruct (db s1 !! k) as [r1|] eqn:Hr1.
    + destruct (Hnone1 k r1 Hk Hr1) as (-> & -> & Hin & Hd).
      destruct (Hsome f _ Hr1) as (q & Hq' & Hq). rewrite Hr' in Hq'.
      injection Hq' as ->. split; [|by split].
      exists q. split; [done|]. destruct Hq as [->|Hq]; [left|by right].
    + destruct (Hnone k r' Hr1 Hr') as ((q & -> & Hq) & Hin & Hd).
      rewrite (in_pool_same _ _ _ Hp1) in Hin. rewrite Hp1 in Hd.
      split; [|by split]. exists q. split; [done|by right].
Qed.

(** The second loop leaves no free device of the pool on its turns
    without a record. *)
Lemma sync_loop_covers (l : list (nat * string)) s s' p f d :
  for_ l (fun '(path_no, fcp) => _sync_one path_no fcp) s = (Ret tt, s') ->
  (p, f) ∈ l -> in_pool s f = true -> _fcp_pool s !! f = Some d ->
  _dev_status d = Some "free" ->
  is_Some (db s' !! f).
Proof.
  revert s. induction l as [|[p0 f0] l IH]; intros s E Hin Hpool Hd Hfree.
  { by apply elem_of_nil in Hin. }
  destruct (sync_one_run p0 f0 s) as (s1 & E1 & Hp1 & _ & _ & Hset1 & _).
  cbn [for_] in E. rewrite bind_run, E1 in E.
  apply elem_of_cons in Hin as [[= -> ->]|Hin].
  - assert (H1 : is_Some (db s1 !! f0)).
    { unfold settled in Hset1.
      rewrite (in_pool_same _ _ _ Hp1), Hp1, Hd in Hset1. specialize (Hset1 Hpool).
      destruct (db s1 !! f0); [eauto|done]. }
    destruct H1 as [r1 Hr1].
    destruct (sync_loop_records l s1) as (s'' & E'' & _ & Hsome & _).
    rewrite E in E''. injection E'' as <-.
    destruct (Hsome _ _ Hr1) as (q & Hq & _). eauto.
  - apply (IH s1 E Hin).
    + by rewrite (in_pool_same _ _ _ Hp1).
    + by rewrite Hp1.
    + done.
Qed.

(** [_sync_db_fcp_list], record by record. *)
Lemma sync_records s :
  exists s',
    _sync_db_fcp_list s = (Ret tt, s')
    /\ (forall k r, db s !! k = Some r ->
          if unreserved_orphan s k then db s' !! k = None
          else exists q, db s' !! k = Some (Db.set_path q r)
                 /\ (q = path r \/ (q, k) ∈ sync_turns (_fcp_path_mapping s)))
    /\ (forall k r', db s !! k = None -> db s' !! k = Some r' ->
          (exists q, r' = mk_rec None 0 false q
                     /\ (q, k) ∈ sync_turns (_fcp_path_mapping s))
          /\ in_pool s k = true
          /\ exists d, _fcp_pool s !! k = Some d /\ _dev_status d = Some "free")
    /\ (forall p k d, (p, k) ∈ sync_turns (_fcp_path_mapping s) ->
          in_pool s k = true -> _fcp_pool s !! k = Some d ->
          _dev_status d = Some "free" -> is_Some (db s' !! k)).
Proof.
  destruct (orphan_loop (Db.get_all (db s)) s) as (sA & EA & HpA & HmA & HdbA & _).
  { apply NoDup_fst_map_to_list. }
  { intros k Hk. apply list_elem_of_fmap in Hk as ([k' r] & -> & Hin).
    apply elem_of_map_to_list in Hin. eauto. }
  destruct (sync_loop_records (sync_turns (_fcp_path_mapping sA)) sA)
    as (s' & E' & Hp & Hsome & Hnone).
  destruct (sync_loop (sync_turns (_fcp_path_mapping sA)) sA)
    as (s'' & E'' & _ & _ & Hout & _).
  rewrite E' in E''. injection E'' as <-.
  exists s'. split.
  { unfold _sync_db_fcp_list, DbM.get_all. rewrite bind_run. unfold gets at 1.
    cbv beta iota. rewrite bind_run, EA. cbv beta iota. rewrite bind_run.
    unfold gets at 1. cbv beta iota. rewrite sync_loop_turns. exact E'. }
  rewrite HmA in *.
  assert (Hkey : forall k r, db s !! k = Some r -> k ∈ (Db.get_all (db s)).*1).
  { intros k r Hr. apply list_elem_of_fmap. exists (k, r). split; [done|].
    by apply elem_of_map_to_list. }
  split.
  - intros k r Hr. destruct (unreserved_orphan s k) eqn:Huo.
    + assert (Hin : in_pool sA k = false).
      { rewrite (in_pool_same _ _ _ HpA). unfold unreserved_orphan in Huo.
        apply andb_true_iff in Huo as [Huo _]. by destruct (in_pool s k). }
      rewrite (Hout k Hin), HdbA, Huo.
      by rewrite bool_decide_eq_true_2 by (by eapply Hkey).
    + apply Hsome. rewrite HdbA, Huo. by rewrite andb_false_r.
  - split.
    + intros k r' Hk Hr'.
      assert (HkA : db sA !! k = None).
      { rewrite HdbA, Hk. by destruct (_ && _). }
      destruct (Hnone k r' HkA Hr') as (Hq & Hin & Hd).
      rewrite (in_pool_same _ _ _ HpA) in Hin. rewrite HpA in Hd. by split.
    + intros p k d Hin Hpool Hd Hfree.
      apply (sync_loop_covers _ sA s' p k d E' Hin).
      * by rewrite (in_pool_same _ _ _ HpA).
      * by rewrite HpA.
      * done.
Qed.

End SyncRecords.

(** X9. [_sync_db_fcp_list] returns, and of the records the store held
    it deletes exactly those of devices that are not in the pool and not
    reserved, whatever their connection count and their assigner.  Every
    other record is kept with its assigner, its connection count and its
    reserved flag; its path index is the one it had or the index of a
    path of the mapping that holds the device. *)
Theorem sync_deletes_unreserved_orphans_only (s : state) :
  exists s',
    _sync_db_fcp_list s = (Ret tt, s')
    /\ forall (fcp : string) (r : fcp_rec), db s !! fcp = Some r ->
         if unreserved_orphan s fcp then db s' !! fcp = None
         else exists r', db s' !! fcp = Some r'
                /\ assigner_id r' = assigner_id r
                /\ connections r' = connections r
                /\ reserved r' = reserved r
                /\ (path r' = path r
                    \/ exists S, (path r', S) ∈ _fcp_path_mapping s /\ fcp ∈ S).
Proof.
  destruct (SyncRecords.sync_records s) as (s' & E & Hold & _ & _).
  exists s'. split; [exact E|]. intros fcp r Hr. specialize (Hold fcp r Hr).
  destruct (unreserved_orphan s fcp); [exact Hold|].
  destruct Hold as (q & Hq & Hpath). exists (Db.set_path q r).
  split; [done|]. repeat split. simpl.
  destruct Hpath as [->|Hin]; [by left|]. right.
  by apply Sync.elem_of_sync_turns in Hin.
Qed.

(** X10. A record that [_sync_db_fcp_list] adds is a free one, without
    assigner, connection or reservation, at the index of a path of the
    mapping that holds the device, and the device is in the pool with
    the status [free]; and every device on a path of the mapping that
    is in the pool with the status [free] has a record after the run. *)
Theorem sync_adds_free_pool_devices_only (s : state) :
  exists s',
    _sync_db_fcp_list s = (Ret tt, s')
    /\ (forall (fcp : string) (r' : fcp_rec),
          db s !! fcp = None -> db s' !! fcp = Some r' ->
          assigner_id r' = None /\ connections r' = O /\ reserved r' = false
          /\ (exists S, (path r', S) ∈ _fcp_path_mapping s /\ fcp ∈ S)
          /\ exists d, _fcp_pool s !! fcp = Some d /\ _dev_status d = Some "free")
    /\ (forall (fcp : string) (p : nat) (S : gset string) (d : FCP),
          (p, S) ∈ _fcp_path_mapping s -> fcp ∈ S ->
          in_pool s fcp = true -> _fcp_pool s !! fcp = Some d ->
          _dev_status d = Some "free" ->
          is_Some (db s' !! fcp)).
Proof.
  destruct (SyncRecords.sync_records s) as (s' & E & _ & Hnew & Hall).
  exists s'. split; [exact E|]. split.
  - intros fcp r' Hk Hr'.
    destruct (Hnew fcp r' Hk Hr') as ((q & -> & Hq) & _ & Hd).
    repeat split; [|exact Hd]. simpl. by apply Sync.elem_of_sync_turns in Hq.
  - intros fcp p S d Hin Hf Hpool Hd Hfree.
    apply (Hall p fcp d); [|done|done|done].
    apply Sync.elem_of_sync_turns. eauto.
Qed.

(** * Allocation and the connector *)

Module Allocation.
Import Run.

(** A successful [assign] of the store. *)
Lemma assign_run fcp assigner upd s s' :
  DbM.assign fcp assigner upd s = (Ret tt, s') ->
  exists r, db s !! fcp = Some r
    /\ db s' = <[fcp := (if upd then Db.set_connections (S (connections r))
                         else id) (Db.set_assigner (Some assigner) r)]> (db s)
    /\ _fcp_pool s' = _fcp_pool s
    /\ _fcp_path_mapping s' = _fcp_path_mapping s.
Proof.
  unfold DbM.assign, db_exec, Db.assign, Db.update, Db.with_rec. cbn [db log].
  destruct (db s !! fcp) as [r|]; [|discriminate].
  intros [= <-]. exists r. split; [done|]. by destruct upd.
Qed.

(** The loop of [get_available_fcp] that assigns the devices of a fresh
    pair to the assigner. *)
Lemma assign_loop assigner l acc s res s' :
  for_fold l acc (fun available_list item =>
    DbM.assign item assigner false;; mret (available_list ++ [item])%list) s
  = (Ret res, s') ->
  res = (acc ++ l)%list
  /\ (forall k, k ∈ l ->
        exists r, db s' !! k = Some r /\ assigner_id r = Some assigner)
  /\ (forall k, k ∉ l -> db s' !! k = db s !! k)
  /\ (forall k r, db s !! k = Some r ->
        exists r', db s' !! k = Some r' /\ connections r' = connections r
                   /\ reserved r' = reserved r /\ path r' = path r)
  /\ (forall k, is_Some (db s' !! k) -> is_Some (db s !! k)).
Proof.
  revert acc s. induction l as [|x l IH]; intros acc s.
  { intros [= <- <-]. rewrite app_nil_r. split; [done|].
    split; [by intros k ?%elem_of_nil|]. split; [done|]. split; [eauto|done]. }
  cbn [for_fold]. rewrite !bind_run.
  destruct (DbM.assign x assigner false s) as [[[]|e] s1] eqn:E1; [|discriminate].
  mred. intros E. apply assign_run in E1 as (rx & Hx & Hdb1 & _).
  apply IH in E as (-> & Hin & Hout & Hkeep & Hdom).
  split; [by rewrite <- app_assoc|]. split; [|split; [|split]].
  - intros k [->|Hk]%elem_of_cons; [|by apply Hin].
    destruct (decide (x ∈ l)) as [Hxl|Hxl]; [by apply Hin|].
    rewrite (Hout x Hxl), Hdb1, lookup_insert_eq. eauto.
  - intros k [Hkx Hk]%not_elem_of_cons. rewrite (Hout k Hk), Hdb1.
    by rewrite lookup_insert_ne.
  - intros k r Hr. destruct (decide (k = x)) as [->|Hkx].
    + rewrite Hx in Hr. injection Hr as <-.
      destruct (Hkeep x (Db.set_assigner (Some assigner) rx)) as (r' & Hr' & H1 & H2 & H3).
      { rewrite Hdb1. apply lookup_insert_eq. }
      exists r'. by split.
    + apply Hkeep. rewrite Hdb1. by rewrite lookup_insert_ne.
  - intros k Hk. apply Hdom in Hk. rewrite Hdb1 in Hk.
    destruct (decide (k = x)) as [->|Hkx]; [eauto|]. by rewrite lookup_insert_ne in Hk.
Qed.

Lemma elem_of_allocated t assigner k :
  k ∈ (Db.get_allocated_fcps_from_assigner t assigner).*1
  <-> exists r, t !! k = Some r /\ assigner_id r = Some assigner.
Proof.
  unfold Db.get_allocated_fcps_from_assigner, Db.get_all, Db.owned_by.
  rewrite list_elem_of_fmap. split.
  - intros ([k' r] & -> & Hin). apply list_elem_of_In, filter_In in Hin as [Hin Ho].
    apply list_elem_of_In, elem_of_map_to_list in Hin. simpl in *.
    apply bool_decide_eq_true in Ho. eauto.
  - intros (r & Hr & Ha). exists (k, r). split; [done|].
    apply list_elem_of_In, filter_In. split.
    + by apply list_elem_of_In, elem_of_map_to_list.
    + simpl. by apply bool_decide_eq_true.
Qed.

End Allocation.

(** X11. When [get_available_fcp] returns a list that is not empty for a
    reservation, every record of the store keeps its connection count,
    its reserved flag and its path, every device of the list is assigned
    to the assigner in the store, and a second call in the state reached
    returns the same devices and changes nothing: an allocation is
    reused, not made again. *)
Theorem allocation_is_reused (W : world) (assigner : string) (s s1 : state)
    (l : list string)
    (Hallocated : get_available_fcp W assigner true s = (Ret l, s1))
    (Hsome : l <> []) :
  (forall f r, db s !! f = Some r ->
     exists r1, db s1 !! f = Some r1 /\ connections r1 = connections r
                /\ reserved r1 = reserved r /\ path r1 = path r)
  /\ (forall f, f ∈ l ->
        exists r1, db s1 !! f = Some r1 /\ assigner_id r1 = Some assigner)
  /\ exists l2, get_available_fcp W assigner true s1 = (Ret l2, s1)
       /\ forall f, f ∈ l2 <-> f ∈ l.
Proof.
  assert (Hreuse : forall s (x : string * fcp_rec) rest,
            Db.get_allocated_fcps_from_assigner (db s) assigner = x :: rest ->
            get_available_fcp W assigner true s = (Ret ((x :: rest).*1), s)).
  { intros s' x rest E. unfold get_available_fcp. cbn [negb]. Run.mred. by rewrite E. }
  unfold get_available_fcp in Hallocated. cbn [negb] in Hallocated.
  rewrite Run.bind_run in Hallocated. unfold gets at 1 in Hallocated.
  cbv beta iota in Hallocated.
  destruct (Db.get_allocated_fcps_from_assigner (db s) assigner) as [|x rest] eqn:Eown.
  - rewrite Run.bind_run in Hallocated. unfold gets at 1 in Hallocated.
    cbv beta iota in Hallocated.
    apply Allocation.assign_loop in Hallocated as (Hres & Hin & Hout & Hkeep & Hdom).
    rewrite app_nil_l in Hres. rewrite <- Hres in Hin, Hout.
    split; [exact Hkeep|]. split; [exact Hin|].
    assert (Hset : forall f,
              f ∈ (Db.get_allocated_fcps_from_assigner (db s1) assigner).*1 <-> f ∈ l).
    { intros f. rewrite Allocation.elem_of_allocated. split; [|apply Hin].
      intros (r & Hr & Ha). destruct (decide (f ∈ l)) as [|Hnl]; [done|].
      rewrite (Hout f Hnl) in Hr.
      assert (Hf : f ∈ (Db.get_allocated_fcps_from_assigner (db s) assigner).*1).
      { apply Allocation.elem_of_allocated. eauto. }
      rewrite Eown in Hf. by apply elem_of_nil in Hf. }
    destruct (Db.get_allocated_fcps_from_assigner (db s1) assigner) as [|y rest1] eqn:E1.
    + destruct l as [|f l]; [done|].
      assert (Hf : f ∈ ([] : list (string * fcp_rec)).*1) by (apply Hset; left).
      by apply elem_of_nil in Hf.
    + exists ((y :: rest1).*1). split; [by apply Hreuse|]. exact Hset.
  - rewrite Run.bind_run in Hallocated. unfold gets at 1 in Hallocated.
    cbv beta iota in Hallocated. Run.mred. injection Hallocated as <- <-.
    split; [eauto|]. split.
    + intros f Hf. apply Allocation.elem_of_allocated. by rewrite Eown.
    + exists ((x :: rest).*1). split; [by apply Hreuse|done].
Qed.

Lemma allocation_is_reused_witness :
  exists l2,
    get_available_fcp Example.installation "VM2" true
      (get_available_fcp Example.installation "VM2" true Example.pooled).2
    = (Ret l2, (get_available_fcp Example.installation "VM2" true Example.pooled).2).
Proof.
  destruct (allocation_is_reused Example.installation "VM2" Example.pooled
              (get_available_fcp Example.installation "VM2" true Example.pooled).2
              ["1a00"; "1b00"])
    as (_ & _ & l2 & Hagain & _).
  - vm_compute. reflexivity.
  - discriminate.
  - exists l2. exact Hagain.
Defined.

Module Connector.
Import Run.

(** One turn of the loop that collects the WWPNs adds at most one WWPN. *)
Lemma collect_wwpn_length W assigner vars fcp_no s vars' s' :
  collect_wwpn W assigner vars fcp_no s = (Ret vars', s') ->
  (length (vars_wwpns vars') <= S (length (vars_wwpns vars)))%nat.
Proof.
  unfold collect_wwpn. rewrite bind_run. unfold gets at 1. cbv beta iota.
  rewrite bind_run.
  match goal with |- context [match ?m s with _ => _ end] => destruct (m s) as [[r|e] s1] end;
    [|discriminate].
  rewrite bind_run.
  match goal with |- context [match ?m s1 with _ => _ end] =>
    destruct (m s1) as [[w|e] s2] eqn:Ew end; [|discriminate].
  rewrite bind_run. unfold get_physical_wwpn, gets at 1. cbv beta iota.
  mred. intros [= <- <-]. cbn [vars_wwpns].
  destruct r.1 as [x|]; [destruct (PyStr.truthy x)|]; revert Ew; mred;
    intros [= <- <-]; rewrite ?length_app; simpl; lia.
Qed.

Lemma collect_loop_length W assigner l vars s vars' s' :
  for_fold l vars (collect_wwpn W assigner) s = (Ret vars', s') ->
  (length (vars_wwpns vars') <= length l + length (vars_wwpns vars))%nat.
Proof.
  revert vars s. induction l as [|x l IH]; intros vars s.
  { intros [= <- <-]. simpl. lia. }
  cbn [for_fold]. rewrite bind_run.
  destruct (collect_wwpn W assigner vars x s) as [[v1|e] s1] eqn:E1; [|discriminate].
  intros E. apply IH in E. apply collect_wwpn_length in E1. simpl. lia.
Qed.

(** One turn of the last loop of [get_volume_connector], when it returns. *)
Lemma reserve_turn reserve fcp_no s s' :
  reserve_or_unreserve reserve fcp_no s = (Ret tt, s') ->
  exists r, db s !! fcp_no = Some r
    /\ db s' = (if reserve then <[fcp_no := Db.set_reserved true r]> (db s)
                else if (connections r =? 0)%nat
                     then <[fcp_no := Db.set_reserved false r]> (db s)
                     else db s).
Proof.
  unfold reserve_or_unreserve, get_fcp_usage, DbM.reserve, DbM.unreserve,
    DbM.get_usage_of_fcp, DbM.get_connections_from_fcp, db_exec, db_query,
    Db.reserve, Db.unreserve, Db.update, Db.get_usage_of_fcp,
    Db.get_connections_from_fcp, Db.with_rec.
  destruct reserve; mred; cbn [db log].
  - destruct (db s !! fcp_no) as [r|] eqn:Hr; [|discriminate].
    cbn [db set_db]. rewrite lookup_insert_eq. intros [= <-]. eauto.
  - destruct (db s !! fcp_no) as [r|] eqn:Hr; [|discriminate].
    destruct (connections r =? 0)%nat eqn:Hc; cbn [db log]; rewrite ?Hr.
    + cbn [db set_db]. rewrite lookup_insert_eq. intros [= <-].
      exists r. by rewrite Hc.
    + intros [= <-]. exists r. by rewrite Hc.
Qed.

(** The last loop of [get_volume_connector], when it returns. *)
Lemma reserve_loop reserve l s s' :
  for_ l (reserve_or_unreserve reserve) s = (Ret tt, s') ->
  (forall k r, db s !! k = Some r ->
     exists r', db s' !! k = Some r'
       /\ assigner_id r' = assigner_id r /\ connections r' = connections r
       /\ path r' = path r
       /\ reserved r' = (if bool_decide (k ∈ l)
                         then (if reserve then true
                               else if (connections r =? 0)%nat then false
                                    else reserved r)
                         else reserved r))
  /\ (forall k, k ∈ l -> is_Some (db s !! k)).
Proof.
  revert s. induction l as [|x l IH]; intros s.
  { intros [= <-]. split; [|by intros k ?%elem_of_nil]. intros k r Hr.
    exists r. rewrite bool_decide_eq_false_2 by (by intros ?%elem_of_nil). done. }
  cbn [for_]. rewrite bind_run.
  destruct (reserve_or_unreserve reserve x s) as [[[]|e] s1] eqn:E1; [|discriminate].
  intros E. apply reserve_turn in E1 as (rx & Hx & Hdb1).
  apply IH in E as [Hkeep Hin].
  assert (Hdom1 : forall k, is_Some (db s1 !! k) -> is_Some (db s !! k)).
  { intros k. rewrite Hdb1. destruct (decide (k = x)) as [->|Hne]; [eauto|].
    destruct reserve; [|destruct (_ =? _)%nat]; by rewrite ?lookup_insert_ne. }
  split.
  2:{ intros k [->|Hk]%elem_of_cons; [eauto|]. by apply Hdom1, Hin. }
  intros k r Hr. destruct (decide (k = x)) as [->|Hne].
  - rewrite Hx in Hr. injection Hr as <-.
    rewrite (bool_decide_eq_true_2 (x ∈ x :: l)) by left.
    destruct reserve.
    + destruct (Hkeep x (Db.set_reserved true rx)) as (r' & Hr' & ? & ? & ? & Hres).
      { rewrite Hdb1. apply lookup_insert_eq. }
      exists r'. split; [done|]. repeat split; try done.
      rewrite Hres. simpl. by destruct (bool_decide _).
    + destruct (connections rx =? 0)%nat eqn:Hc.
      * destruct (Hkeep x (Db.set_reserved false rx)) as (r' & Hr' & ? & ? & ? & Hres).
        { rewrite Hdb1. apply lookup_insert_eq. }
        exists r'. split; [done|]. repeat split; try done.
        rewrite Hres. simpl. rewrite Hc. by destruct (bool_decide _).
      * destruct (Hkeep x rx) as (r' & Hr' & ? & ? & ? & Hres).
        { by rewrite Hdb1. }
        exists r'. split; [done|]. repeat split; try done.
        rewrite Hres, Hc. by destruct (bool_decide _).
  - destruct (Hkeep k r) as (r' & Hr' & ? & ? & ? & Hres).
    { rewrite Hdb1. destruct reserve; [|destruct (_ =? _)%nat];
        by rewrite ?lookup_insert_ne. }
    exists r'. split; [done|]. repeat split; try done. rewrite Hres.
    destruct (decide (k ∈ l)).
    + by rewrite !bool_decide_eq_true_2 by (done || by right).
    + rewrite !bool_decide_eq_false_2; [done| |done].
      intros [?|?]%elem_of_cons; done.
Qed.

End Connector.

(** X12. When [get_volume_connector] returns, the connector is the
    empty one, or it names at least one device, at least one WWPN and a
    host, it has no more WWPNs than devices, and every device it names
    has a record in the store: a reserved one after a call that
    reserves, and one that is not reserved unless it has connections
    after a call that releases. *)
Theorem connector_reservations (W : world) (assigner_id : string) (reserve : bool)
    (s s' : state) (c : connector)
    (Hreturned : get_volume_connector W assigner_id reserve s = (Ret c, s')) :
  c = empty_connector
  \/ (zvm_fcp c <> [] /\ wwpns c <> [] /\ host c <> ""
      /\ (length (wwpns c) <= length (zvm_fcp c))%nat
      /\ forall fcp, fcp ∈ zvm_fcp c ->
           exists r, db s' !! fcp = Some r
             /\ if reserve then reserved r = true
                else connections r = O -> reserved r = false).
Proof.
  unfold get_volume_connector in Hreturned. rewrite Run.bind_run in Hreturned.
  unfold ask_lpar_name at 1 in Hreturned. cbv beta iota in Hreturned.
  destruct (String.eqb_spec (lpar_name W (trace s)) "") as [|Hhost].
  { revert Hreturned. Run.mred. discriminate. }
  rewrite Run.bind_run in Hreturned.
  destruct (init_fcp W assigner_id _) as [[[]|e] s1]; [|discriminate].
  rewrite Run.bind_run in Hreturned.
  destruct (get_available_fcp W assigner_id reserve s1) as [[fcp_list|e] s2];
    [|discriminate].
  destruct fcp_list as [|f0 fl].
  { revert Hreturned. Run.mred. intros [= <- _]. by left. }
  rewrite Run.bind_run in Hreturned.
  destruct (for_fold (f0 :: fl) _ _ s2) as [[vars|e] s3] eqn:Ecollect; [|discriminate].
  pose proof (Connector.collect_loop_length _ _ _ _ _ _ _ Ecollect) as Hlen.
  destruct (vars_wwpns vars) as [|w ws] eqn:Hw.
  { revert Hreturned. Run.mred. intros [= <- _]. by left. }
  rewrite Run.bind_run in Hreturned.
  destruct (for_ (f0 :: fl) _ s3) as [[[]|e] s4] eqn:Eres; [|discriminate].
  revert Hreturned. Run.mred. intros [= <- <-]. right. cbn.
  split; [done|]. split; [done|]. split; [done|].
  split; [simpl in Hlen; lia|].
  apply Connector.reserve_loop in Eres as [Hkeep Hin].
  intros fcp Hf. destruct (Hin fcp Hf) as [r Hr].
  destruct (Hkeep fcp r Hr) as (r' & Hr' & _ & Hc & _ & Hres).
  exists r'. split; [done|]. rewrite bool_decide_eq_true_2 in Hres by done.
  destruct reserve; [done|]. intros H0. rewrite Hc in H0. rewrite Hres.
  by rewrite H0.
Qed.

Lemma connector_reservations_witness :
  exists r,
    db (get_volume_connector Example.installation "VM1" true Example.reserved_idle).2
      !! "1a00" = Some r
    /\ reserved r = true.
Proof.
  destruct (connector_reservations Example.installation "VM1" true
              Example.reserved_idle
              (get_volume_connector Example.installation "VM1" true
                 Example.reserved_idle).2
              (match (get_volume_connector Example.installation "VM1" true
                        Example.reserved_idle).1 with
               | Ret c => c
               | Raise _ => empty_connector
               end))
    as [Hc|(_ & _ & _ & _ & Hres)].
  - vm_compute. reflexivity.
  - vm_compute in Hc. discriminate.
  - apply Hres. vm_compute. left.
Defined.

(** * Attaching a volume *)

Module AttachFacts.
Import Run AttachRollback.

Lemma attach_handler_raises W fcp_list assigner err s :
  exists e s', attach_handler W fcp_list assigner err s = (Raise e, s').
Proof.
  unfold attach_handler. rewrite bind_run. unfold LOG_error, emit, modify.
  cbv beta iota. rewrite bind_run.
  destruct (_rollback_dedicated_fcp _ _ _ _ _) as [[[]|e] s1]; eauto.
Qed.

(** What the registration of a request does to the store. *)
Lemma register_usage W fcp_list assigner s0 status s1 :
  attach_register W fcp_list assigner s0 = (Ret status, s1) ->
  forall f, f ∈ fcp_list ->
    exists r1, db s1 !! f = Some r1
      /\ (forall r0, db s0 !! f = Some r0 ->
            connections r1 = (connections r0 + occ f fcp_list)%nat
            /\ reserved r1 = reserved r0)
      /\ (db s0 !! f = None ->
            connections r1 = occ f fcp_list /\ reserved r1 = false).
Proof.
  unfold attach_register. rewrite bind_run.
  destruct (init_fcp W assigner s0) as [[[]|e] sA] eqn:Einit; [|discriminate].
  intros Hreg. apply init_fcp_usage in Einit as [HsomeA HnoneA].
  apply add_loop in Hreg as (HinA & HaddA & _).
  intros f Hf. destruct (HinA f Hf) as [rA HrA].
  destruct (HaddA f rA HrA) as (r1 & Hr1 & Hc1 & Hres1).
  exists r1. split; [done|]. split.
  - intros r0 Hr0. destruct (HsomeA f r0 rA Hr0 HrA) as [<- <-]. by split.
  - intros Hr0. destruct (HnoneA f rA Hr0 HrA) as [Hc Hr]. rewrite Hc1, Hres1, Hc, Hr.
    by split.
Qed.

End AttachFacts.

(** X13. When [_attach] returns, it returns an empty list for a root
    volume and nothing for a data volume, and every device of the request
    has a record in the store whose connection count is the count before
    the call plus the number of times the request names the device, with
    the reserved flag it had; a device without a record before the call
    is left with that number as its count, and not reserved. *)
Theorem attach_success_accounting (W : world) (fcp_list : list string)
    (assigner : string) (v : volume) (path_count : nat) (is_root_volume : bool)
    (s0 s3 : state) (result : option (list string))
    (Hreturned : _attach W fcp_list assigner v path_count is_root_volume s0
                 = (Ret result, s3)) :
  result = (if is_root_volume then Some [] else None)
  /\ forall f, f ∈ fcp_list ->
       exists r3, db s3 !! f = Some r3
         /\ (forall r0, db s0 !! f = Some r0 ->
               connections r3 = (connections r0 + occ f fcp_list)%nat
               /\ reserved r3 = reserved r0)
         /\ (db s0 !! f = None ->
               connections r3 = occ f fcp_list /\ reserved r3 = false).
Proof.
  unfold _attach in Hreturned. rewrite Run.bind_run in Hreturned.
  destruct (attach_register W fcp_list assigner s0) as [[status|e] s1] eqn:Ereg;
    [|discriminate].
  pose proof (AttachFacts.register_usage _ _ _ _ _ _ Ereg) as Husage.
  destruct is_root_volume.
  { revert Hreturned. Run.mred. by intros [= <- <-]. }
  rewrite Run.bind_run in Hreturned. unfold try_except in Hreturned.
  pose proof (Keeps.keeps_attach_body W status fcp_list assigner v s1) as (Hk & _ & _).
  destruct (attach_dedicate_and_configure W status fcp_list assigner v s1)
    as [[[]|err] s2].
  - revert Hreturned. Run.mred. intros [= <- <-]. split; [done|].
    simpl in Hk. by rewrite Hk.
  - destruct (is_SDKBaseException err); [|discriminate].
    destruct (AttachFacts.attach_handler_raises W fcp_list assigner err s2)
      as (e & s' & E). by rewrite E in Hreturned.
Qed.

Lemma attach_success_accounting_witness :
  exists r3,
    db (_attach Cases.all_well ["1a00"] "VM1" Example.some_volume 1 false
          Example.reserved_idle).2 !! "1a00" = Some r3
    /\ connections r3 = 1%nat.
Proof.
  destruct (attach_success_accounting Cases.all_well ["1a00"] "VM1"
              Example.some_volume 1 false Example.reserved_idle
              (_attach Cases.all_well ["1a00"] "VM1" Example.some_volume 1 false
                 Example.reserved_idle).2 None) as (_ & Hacc).
  - vm_compute. reflexivity.
  - destruct (Hacc "1a00") as (r3 & Hr3 & Hsome & _); [left|].
    exists r3. split; [exact Hr3|].
    destruct (Hsome (mk_rec (Some "VM1") 0 true 0)) as [Hc _]; [reflexivity|].
    exact Hc.
Defined.

Module Dedicate.
Import Run AttachRollback Usage.

(** The loop of [_attach] that registers the usage: the status noted for
    a device says whether the count it is left with is 1. *)
Lemma register_status assigner l (status0 status : gmap string bool) s s' :
  for_fold l status0 (fun fcp_status fcp =>
    new ← add_fcp_for_assigner fcp assigner;
    mret (<[fcp := new]> fcp_status)) s = (Ret status, s') ->
  (forall f, f ∉ l -> status !! f = status0 !! f)
  /\ (forall f, f ∈ l ->
        exists r', db s' !! f = Some r'
                   /\ status !! f = Some (connections r' =? 1)%nat).
Proof.
  revert status0 s. induction l as [|x l IH]; intros status0 s.
  { intros [= <- <-]. split; [done|]. by intros f ?%elem_of_nil. }
  cbn [for_fold]. rewrite !bind_run.
  destruct (add_fcp_for_assigner x assigner s) as [[new|e] s1] eqn:E1; [|discriminate].
  mred. intros E. pose proof E as Hloop.
  apply IH in E as [Hframe Hin]. apply add_loop in Hloop as (_ & Hadd & _).
  assert (Hnew : exists r1, db s1 !! x = Some r1
                   /\ new = (connections r1 =? 1)%nat).
  { revert E1. unfold add_fcp_for_assigner, DbM.get_connections_from_fcp, DbM.assign,
      DbM.increase_usage_by_assigner, db_exec, Db.get_connections_from_fcp,
      Db.assign, Db.increase_usage_by_assigner, Db.update, Db.with_rec. mred.
    destruct (db s !! x) as [r|] eqn:Hr; [|discriminate].
    destruct (connections r) as [|n] eqn:Hc; cbn [Nat.eqb db log]; rewrite Hr.
    - intros [= <- <-]. cbn [db set_db]. rewrite lookup_insert_eq.
      eexists. split; [done|]. simpl. by rewrite Hc.
    - destruct (Db.owned_by assigner r); [|discriminate].
      intros [= <- <-]. cbn [db set_db]. rewrite lookup_insert_eq.
      eexists. split; [done|]. simpl. rewrite Hc. by destruct n. }
  destruct Hnew as (r1 & Hr1 & ->).
  split.
  - intros f [Hfx Hf]%not_elem_of_cons. rewrite (Hframe f Hf).
    by rewrite lookup_insert_ne.
  - intros f Hf. destruct (decide (f ∈ l)) as [Hfl|Hfl]; [by apply Hin|].
    assert (f = x) as -> by (by apply elem_of_cons in Hf as [?|?]).
    destruct (Hadd x r1 Hr1) as (r' & Hr' & Hc' & _).
    exists r'. split; [done|]. rewrite (Hframe x Hfl), lookup_insert_eq.
    by rewrite Hc', (occ_not_in _ _ Hfl), Nat.add_0_r.
Qed.

Lemma body_dedicates W status fcp_list assigner v :
  let P := fun e => forall a f, e = Smt (dedicate_device a f) ->
             a = assigner /\ f ∈ fcp_list /\ status !! f = Some true in
  emits_only P (attach_dedicate_and_configure W status fcp_list assigner v).
Proof.
  intros P. unfold attach_dedicate_and_configure, _dedicate_fcp, _add_disks.
  apply emits_bind.
  - apply emits_for. intros x Hx. destruct (status !! x) as [[]|] eqn:Ex.
    + apply emits_smt. intros a f [= <- <-]. done.
    + apply emits_ret.
    + apply emits_raise.
  - intros _. apply emits_smt. intros a f [=].
Qed.

End Dedicate.

(** X14. After the registration of a request ([init_fcp] and the loop
    over [add_fcp_for_assigner]) the status noted for each device of the
    request says whether the store now counts exactly one connection for
    it.  The rest of [_attach] dedicates a device to the guest only if
    it is a device of the request with exactly one connection: a device
    that was in use before, or that the request names twice, is not
    dedicated. *)
Theorem attach_dedicates_single_first_use (W : world) (fcp_list : list string)
    (assigner : string) (v : volume) (s0 s1 : state) (status : gmap string bool)
    (Hregistered : attach_register W fcp_list assigner s0 = (Ret status, s1)) :
  (forall f, f ∈ fcp_list ->
     exists r1, db s1 !! f = Some r1
                /\ status !! f = Some (connections r1 =? 1)%nat)
  /\ forall a f,
       Smt (dedicate_device a f)
         ∈ trace (attach_dedicate_and_configure W status fcp_list assigner v s1).2 ->
       Smt (dedicate_device a f) ∈ trace s1
       \/ (a = assigner /\ f ∈ fcp_list
           /\ exists r1, db s1 !! f = Some r1 /\ connections r1 = 1%nat).
Proof.
  unfold attach_register in Hregistered. rewrite Run.bind_run in Hregistered.
  destruct (init_fcp W assigner s0) as [[[]|e] sA]; [|discriminate].
  apply Dedicate.register_status in Hregistered as [_ Hstatus].
  split; [exact Hstatus|]. intros a f.
  destruct (Dedicate.body_dedicates W status fcp_list assigner v s1)
    as (new & -> & Hnew).
  intros [Hin|Hin]%elem_of_app; [|by left]. right.
  rewrite Forall_forall in Hnew. destruct (Hnew _ Hin a f eq_refl) as (-> & Hf & Hs).
  split; [done|]. split; [done|]. destruct (Hstatus f Hf) as (r1 & Hr1 & Hs1).
  exists r1. split; [done|]. rewrite Hs in Hs1. injection Hs1 as Hs1.
  symmetry in Hs1. by apply Nat.eqb_eq in Hs1.
Qed.

Lemma attach_dedicates_single_first_use_witness :
  exists r1,
    db (attach_register Example.installation ["1a00"] "VM1" Example.reserved_idle).2
      !! "1a00" = Some r1
    /\ connections r1 = 1%nat.
Proof.
  destruct (attach_dedicates_single_first_use Example.installation ["1a00"] "VM1"
              Example.some_volume Example.reserved_idle
              (attach_register Example.installation ["1a00"] "VM1"
                 Example.reserved_idle).2
              {[ "1a00" := true ]}) as (Hstatus & _).
  - vm_compute. reflexivity.
  - destruct (Hstatus "1a00") as (r1 & Hr1 & Hs); [left|].
    exists r1. split; [exact Hr1|].
    rewrite lookup_singleton_eq in Hs. injection Hs as Hs. symmetry in Hs.
    by apply Nat.eqb_eq in Hs.
Defined.

(** X15. When the registration of a request for a data volume succeeds
    and the dedication or the configuration raises an exception that is
    not one of the SDK, [_attach] raises that exception without any
    rollback: the store is as the registration left it, with the
    connection counts of the request's devices still increased. *)
Theorem attach_foreign_exception_no_rollback (W : world) (fcp_list : list string)
    (assigner : string) (v : volume) (path_count : nat) (s0 s1 s2 : state)
    (status : gmap string bool) (err : exn)
    (Hregistered : attach_register W fcp_list assigner s0 = (Ret status, s1))
    (Hfails : attach_dedicate_and_configure W status fcp_list assigner v s1
              = (Raise err, s2))
    (Hforeign : is_SDKBaseException err = false) :
  _attach W fcp_list assigner v path_count false s0 = (Raise err, s2)
  /\ db s2 = db s1
  /\ forall f r0, f ∈ fcp_list -> db s0 !! f = Some r0 ->
       exists r2, db s2 !! f = Some r2
         /\ connections r2 = (connections r0 + occ f fcp_list)%nat.
Proof.
  pose proof (Keeps.keeps_attach_body W status fcp_list assigner v s1) as (Hk & _ & _).
  rewrite Hfails in Hk. simpl in Hk.
  split; [|split; [exact Hk|]].
  - unfold _attach. rewrite (Run.bind_ret _ _ _ _ _ Hregistered). cbv beta iota.
    rewrite Run.bind_run. unfold try_except. by rewrite Hfails, Hforeign.
  - intros f r0 Hf Hr0.
    destruct (AttachFacts.register_usage _ _ _ _ _ _ Hregistered f Hf)
      as (r1 & Hr1 & Hsome & _).
    exists r1. rewrite Hk. split; [done|]. by apply Hsome.
Qed.

Lemma attach_foreign_exception_no_rollback_witness :
  (_attach Cases.disk_full ["1a00"] "VM1" Example.some_volume 1 false
     Example.reserved_idle).1 = Raise Cases.os_error.
Proof.
  destruct (attach_foreign_exception_no_rollback Cases.disk_full ["1a00"] "VM1"
              Example.some_volume 1 Example.reserved_idle
              (attach_register Cases.disk_full ["1a00"] "VM1"
                 Example.reserved_idle).2
              (attach_dedicate_and_configure Cases.disk_full {[ "1a00" := true ]}
                 ["1a00"] "VM1" Example.some_volume
                 (attach_register Cases.disk_full ["1a00"] "VM1"
                    Example.reserved_idle).2).2
              {[ "1a00" := true ]} Cases.os_error) as (Hraise & _).
  - vm_compute. reflexivity.
  - vm_compute. reflexivity.
  - reflexivity.
  - by rewrite Hraise.
Defined.

Module WrapperFacts.
Import Run RootVolume.

Lemma attach_root_asks_no_existence W fcp_list assigner_id v path_count :
  emits_only no_existence_check (_attach W fcp_list assigner_id v path_count true).
Proof.
  unfold _attach, attach_register, init_fcp, _init_fcp_pool, _get_all_fcp_info,
    _list_fcp_details, _init_fcp_pool_step, _sync_db_fcp_list, _report_orphan_fcp,
    _sync_one, _add_fcp, add_fcp_for_assigner, DbM.get_all, DbM.is_reserved,
    DbM.delete, DbM.get_from_fcp, DbM.new, DbM.update_path_of_fcp,
    DbM.get_connections_from_fcp, DbM.assign, DbM.increase_usage_by_assigner.
  emits.
Qed.

End WrapperFacts.

(** X16. For a data volume whose guest does not exist, [attach] logs
    the error and raises [SDKObjectNotExistError] right after the
    question, before the pool or the store is touched.  For a root
    volume [attach] never asks whether the guest exists. *)
Theorem attach_missing_guest (W : world) (ci : connection_info) (s : state)
    (Hdata : ci_is_root_volume ci = false)
    (Hmissing : userid_exist W (trace s) (PyStr.upper (ci_assigner_id ci)) = false) :
  let assigner_id := PyStr.upper (ci_assigner_id ci) in
  attach W ci s
  = (Raise (new_exn SDKObjectNotExistError ("Guest '" ++ assigner_id ++ "'")),
     log (LogError ("User directory '" ++ assigner_id ++ "' does not exist."))
       (log (Asked (check_userid_exist assigner_id)) s))
  /\ forall ci', ci_is_root_volume ci' = true ->
       emits_only no_existence_check (attach W ci').
Proof.
  split.
  - unfold attach. rewrite Hdata. rewrite Run.bind_run. unfold ask_userid_exist at 1.
    cbv beta iota. fold assigner_id. rewrite Hmissing. reflexivity.
  - intros ci' Hroot. unfold attach, attach_checked. rewrite Hroot.
    apply Run.emits_bind; [apply WrapperFacts.attach_root_asks_no_existence|].
    intros _. apply Run.emits_ret.
Qed.

Lemma attach_missing_guest_witness :
  (attach Cases.no_guest Cases.request Example.reserved_idle).1
  = Raise (new_exn SDKObjectNotExistError "Guest 'VM1'").
Proof.
  destruct (attach_missing_guest Cases.no_guest Cases.request Example.reserved_idle)
    as [Hraise _].
  - reflexivity.
  - vm_compute. reflexivity.
  - cbv zeta in Hraise. rewrite Hraise. vm_compute. reflexivity.
Defined.

Module CaseFacts.
Lemma lower_lower (l : list string) :
  PyStr.lower <$> (PyStr.lower <$> l) = PyStr.lower <$> l.
Proof.
  rewrite <- list_fmap_compose. apply list_fmap_ext. intros _ x _. simpl.
  apply StrFacts.lower_idem.
Qed.
End CaseFacts.

(** X17. [attach] and [detach] do not depend on the case of the
    identifiers of a request: with the device numbers and the WWPNs in
    lower case, the assigner in upper case and the multipath flag in
    lower case, the request is treated exactly as the original one. *)
Theorem attach_detach_case_insensitive (W : world) (ci : connection_info) :
  attach W (case_folded ci) = attach W ci
  /\ detach W (case_folded ci) = detach W ci.
Proof.
  unfold attach, detach, attach_checked, volume_of, multipath_flag, case_folded.
  cbn [ci_zvm_fcp ci_target_wwpn ci_target_lun ci_assigner_id ci_multipath
       ci_os_version ci_mount_point ci_is_root_volume ci_update_connections_only].
  rewrite !CaseFacts.lower_lower, StrFacts.upper_idem, StrFacts.lower_idem.
  rewrite length_fmap. split; reflexivity.
Qed.

(** * Detaching a volume *)

Module DetachFacts.
Import Run Usage.

(** The count kept for the deconfiguration is that of the last device. *)
Lemma detach_loop_last assigner_id l vars0 s0 vars s1 f :
  for_fold l vars0 (detach_decrease_one assigner_id) s0 = (Ret vars, s1) ->
  last l = Some f ->
  last_connections vars = Some (conn (db s1) f).
Proof.
  revert vars0 s0. induction l as [|x l IH]; intros vars0 s0; [done|].
  destruct (detach_decrease_one_spec assigner_id vars0 x s0)
    as (v1 & s' & E1 & _ & _ & _ & _ & _ & _ & Hl1).
  cbn [for_fold]. rewrite (bind_ret _ _ _ _ _ E1).
  destruct l as [|y l].
  - intros [= <- <-] [= <-]. exact Hl1.
  - intros E Hlast. eapply IH; [exact E|]. exact Hlast.
Qed.

(** What follows the first loop of [_detach] deconfigures the guest with
    the count kept in [last_connections] only. *)
Lemma detach_rest_deconfigures W vars fcp_list assigner_id v :
  let P := fun e => forall l a v' n, e = Smt (config_detach l a v' n) ->
             l = fcp_list /\ a = assigner_id /\ v' = v
             /\ last_connections vars = Some n in
  emits_only P
    (exist ← ask_userid_exist W assigner_id;
     if negb exist then mret tt
     else
       try_except
         (detach_remove_and_undedicate W vars fcp_list assigner_id v)
         (fun e => is_SDKBaseException e || is_SDKSMTRequestFailed e)
         (detach_handler W vars fcp_list assigner_id v)).
Proof.
  intros P.
  assert (Hother : forall e, (forall l a v' n, e <> Smt (config_detach l a v' n)) -> P e).
  { intros e He l a v' n ->. by destruct (He l a v' n). }
  apply emits_bind; [apply emits_ask_userid_exist, Hother; done|].
  intros exist. destruct (negb exist); [apply emits_ret|].
  apply emits_try_except.
  - unfold detach_remove_and_undedicate. apply emits_bind.
    + destruct (last_connections vars) as [n|]; [|apply emits_raise].
      apply emits_smt. intros l a v' n' [= <- <- <- <-]. done.
    + intros _. apply emits_for. intros x Hx.
      destruct (_ =? _)%nat; [|apply emits_ret].
      apply emits_smt, Hother. done.
  - intros err. unfold detach_handler, detach_rollback_usage, increase_fcp_usage,
      get_fcp_usage, LOG_error, _add_disks, DbM.get_connections_from_fcp,
      DbM.assign, DbM.increase_usage, DbM.get_usage_of_fcp.
    repeat (cbv beta zeta; emits_step); apply Hother; done.
Qed.

End DetachFacts.

(** X18. [_detach] with an empty list of devices: for a root volume or
    an update of the connections only it returns at once and changes
    nothing; otherwise it asks whether the guest exists, returns if it
    does not, and if it does, fails with [UnboundLocalError], because
    the connection count handed to the deconfiguration is assigned in
    the loop over the devices only. *)
Theorem detach_empty_request (W : world) (assigner_id : string) (v : volume)
    (is_root_volume update_connections_only : bool) (s : state) :
  _detach W [] assigner_id v is_root_volume update_connections_only s
  = if is_root_volume || update_connections_only then (Ret tt, s)
    else if userid_exist W (trace s) assigner_id
         then (Raise UnboundLocalError, log (Asked (check_userid_exist assigner_id)) s)
         else (Ret tt, log (Asked (check_userid_exist assigner_id)) s).
Proof.
  unfold _detach, detach_decrease. cbn [for_fold]. Run.mred.
  destruct (is_root_volume || update_connections_only); [reflexivity|].
  unfold ask_userid_exist. Run.mred.
  destruct (userid_exist W (trace s) assigner_id); reflexivity.
Qed.

(** X19. Every deconfiguration of the guest that [_detach] asks for is
    for the whole list of devices of the request, and the connection
    count it hands over is that of the LAST device of the list after the
    counts were decreased, not one count per device. *)
Theorem detach_deconfigures_with_last_count (W : world) (fcp_list : list string)
    (assigner_id : string) (v : volume)
    (is_root_volume update_connections_only : bool) (s0 : state)
    (last_fcp : string) (Hlast : last fcp_list = Some last_fcp) :
  forall (l : list string) (a : string) (v' : volume) (n : nat),
    Smt (config_detach l a v' n)
      ∈ trace (_detach W fcp_list assigner_id v is_root_volume
                 update_connections_only s0).2 ->
    Smt (config_detach l a v' n) ∈ trace s0
    \/ (l = fcp_list /\ a = assigner_id /\ v' = v
        /\ n = conn (db (detach_decrease fcp_list assigner_id s0).2) last_fcp).
Proof.
  intros l a v' n.
  destruct (Usage.detach_loop_spec assigner_id fcp_list (mk_detach_vars ∅ ∅ None) s0)
    as (vars & s1 & E & (new & Ht & Hnew) & _).
  pose proof (DetachFacts.detach_loop_last _ _ _ _ _ _ _ E Hlast) as Hl.
  fold (detach_decrease fcp_list assigner_id) in E.
  unfold _detach. rewrite (Run.bind_ret _ _ _ _ _ E), E. cbn [snd].
  assert (Hpre : Smt (config_detach l a v' n) ∈ trace s1 ->
                 Smt (config_detach l a v' n) ∈ trace s0).
  { rewrite Ht. intros [Hin|Hin]%elem_of_app; [|done].
    rewrite Forall_forall in Hnew. destruct (Hnew _ Hin) as (? & ? & _). done. }
  destruct (is_root_volume || update_connections_only); [by intros H; left; apply Hpre|].
  destruct (DetachFacts.detach_rest_deconfigures W vars fcp_list assigner_id v s1)
    as (new' & Ht' & Hnew').
  rewrite Ht'. intros [Hin|Hin]%elem_of_app; [|by left; apply Hpre].
  right. rewrite Forall_forall in Hnew'.
  destruct (Hnew' _ Hin l a v' n eq_refl) as (-> & -> & -> & Hn).
  rewrite Hl in Hn. by injection Hn as <-.
Qed.

Lemma detach_deconfigures_with_last_count_witness :
  Smt (config_detach ["1a00"] "VM1" Example.some_volume 0)
    ∈ trace (_detach Cases.all_well ["1a00"] "VM1" Example.some_volume false false
               Example.connected).2
  /\ conn (db (detach_decrease ["1a00"] "VM1" Example.connected).2) "1a00" = 0%nat.
Proof.
  assert (Hin : Smt (config_detach ["1a00"] "VM1" Example.some_volume 0)
                  ∈ trace (_detach Cases.all_well ["1a00"] "VM1" Example.some_volume
                             false false Example.connected).2).
  { vm_compute. apply list_elem_of_In. vm_compute. tauto. }
  split; [exact Hin|].
  destruct (detach_deconfigures_with_last_count Cases.all_well ["1a00"] "VM1"
              Example.some_volume false false Example.connected "1a00" eq_refl
              _ _ _ _ Hin) as [Hold|(_ & _ & _ & Hn)].
  - by apply elem_of_nil in Hold.
  - by symmetry.
Defined.

(** X20. For a root volume, for an update of the connections only, and
    when the guest does not exist, [_detach] returns after the
    bookkeeping: each record of the store has its connection count
    lowered once for each time the request names the device (not below
    zero), no record appears or disappears, and no request is sent to
    the hypervisor or to the guest. *)
Theorem detach_bookkeeping_only (W : world) (fcp_list : list string)
    (assigner_id : string) (v : volume)
    (is_root_volume update_connections_only : bool) (s0 : state)
    (Hskipped : is_root_volume || update_connections_only = true
                \/ userid_exist W (trace (detach_decrease fcp_list assigner_id s0).2)
                     assigner_id = false) :
  exists s1,
    _detach W fcp_list assigner_id v is_root_volume update_connections_only s0
    = (Ret tt, s1)
    /\ (forall f, db s1 !! f = lowered (occ f fcp_list) <$> db s0 !! f)
    /\ (forall c, Smt c ∈ trace s1 -> Smt c ∈ trace s0).
Proof.
  destruct (Usage.detach_loop_spec assigner_id fcp_list (mk_detach_vars ∅ ∅ None) s0)
    as (vars & s1 & E & (new & Ht & Hnew) & _ & _ & Hdb & _).
  fold (detach_decrease fcp_list assigner_id) in E. rewrite E in Hskipped.
  cbn [snd] in Hskipped.
  assert (Hpre : forall c, Smt c ∈ trace s1 -> Smt c ∈ trace s0).
  { intros c. rewrite Ht. intros [Hin|Hin]%elem_of_app; [|done].
    rewrite Forall_forall in Hnew. destruct (Hnew _ Hin) as (? & ? & _). done. }
  unfold _detach. rewrite (Run.bind_ret _ _ _ _ _ E).
  destruct (is_root_volume || update_connections_only) eqn:Hflags.
  { exists s1. by split. }
  destruct Hskipped as [|Hmissing]; [done|].
  exists (log (Asked (check_userid_exist assigner_id)) s1). split.
  { unfold ask_userid_exist. Run.mred. by rewrite Hmissing. }
  split; [exact Hdb|]. intros c. cbn [trace log].
  intros [?|Hin]%elem_of_cons; [done|]. by apply Hpre.
Qed.

Lemma detach_bookkeeping_only_witness :
  exists s1,
    _detach Cases.all_well ["1a00"] "VM1" Example.some_volume true false
      Example.connected = (Ret tt, s1)
    /\ db s1 !! "1a00" = Some (mk_rec (Some "VM1") 0 true 0).
Proof.
  destruct (detach_bookkeeping_only Cases.all_well ["1a00"] "VM1" Example.some_volume
              true false Example.connected) as (s1 & Hrun & Hdb & _).
  - left. reflexivity.
  - exists s1. split; [exact Hrun|]. rewrite Hdb. vm_compute. reflexivity.
Defined.

(** X21. When the guest exists and the deconfiguration or the removal of
    the devices raises an exception that is neither of the SDK nor a
    failed request, [_detach] for a data volume raises that exception
    without rollback: the connection counts stay lowered. *)
Theorem detach_foreign_exception_no_rollback (W : world) (fcp_list : list string)
    (assigner : string) (v : volume) (s0 s1 s2 : state) (vars : detach_vars)
    (err : exn)
    (Hdecreased : detach_decrease fcp_list assigner s0 = (Ret vars, s1))
    (Hguest : userid_exist W (trace s1) assigner = true)
    (Hfails : detach_remove_and_undedicate W vars fcp_list assigner v
                (log (Asked (check_userid_exist assigner)) s1) = (Raise err, s2))
    (Hforeign : is_SDKBaseException err || is_SDKSMTRequestFailed err = false) :
  _detach W fcp_list assigner v false false s0 = (Raise err, s2)
  /\ forall f, db s2 !! f = lowered (occ f fcp_list) <$> db s0 !! f.
Proof.
  destruct (Usage.detach_loop_spec assigner fcp_list (mk_detach_vars ∅ ∅ None) s0)
    as (vars' & s1' & E & _ & _ & _ & Hdb & _).
  fold (detach_decrease fcp_list assigner) in E. rewrite Hdecreased in E.
  injection E as <- <-.
  destruct (Keeps.keeps_detach_body W vars fcp_list assigner v
              (log (Asked (check_userid_exist assigner)) s1)) as (Hk & _ & _).
  rewrite Hfails in Hk. simpl in Hk. split.
  - unfold _detach. rewrite (Run.bind_ret _ _ _ _ _ Hdecreased). cbn [orb].
    rewrite Run.bind_run. unfold ask_userid_exist at 1. cbv beta iota.
    rewrite Hguest. cbn [negb]. unfold try_except. by rewrite Hfails, Hforeign.
  - intros f. by rewrite Hk.
Qed.

Lemma detach_foreign_exception_no_rollback_witness :
  (_detach Cases.disk_full ["1a00"] "VM1" Example.some_volume false false
     Example.connected).1 = Raise Cases.os_error.
Proof.
  destruct (detach_foreign_exception_no_rollback Cases.disk_full ["1a00"] "VM1"
              Example.some_volume Example.connected
              (detach_decrease ["1a00"] "VM1" Example.connected).2
              (detach_remove_and_undedicate Cases.disk_full
                 (match (detach_decrease ["1a00"] "VM1" Example.connected).1 with
                  | Ret vars => vars
                  | Raise _ => mk_detach_vars ∅ ∅ None
                  end)
                 ["1a00"] "VM1" Example.some_volume
                 (log (Asked (check_userid_exist "VM1"))
                    (detach_decrease ["1a00"] "VM1" Example.connected).2)).2
              (match (detach_decrease ["1a00"] "VM1" Example.connected).1 with
               | Ret vars => vars
               | Raise _ => mk_detach_vars ∅ ∅ None
               end)
              Cases.os_error) as (Hraise & _).
  - vm_compute. reflexivity.
  - vm_compute. reflexivity.
  - vm_compute. reflexivity.
  - reflexivity.
  - by rewrite Hraise.
Defined.

(** * Queries on the usage of the devices *)

(** X22. [check_fcp_exist_in_db] compares the device number it is
    given with the keys of the store put in lower case: it returns true
    exactly when some key of the store is the number once lowered;
    otherwise it returns false, or, with [raise_exec], logs the error
    and raises [SDKObjectNotExistError], and the store is never changed.
    A number that is not in lower case is never found, also not when
    the store has a record for it. *)
Theorem check_fcp_exist_in_db_result (fcp : string) (raise_exec : bool) (s : state) :
  ((exists k, is_Some (db s !! k) /\ PyStr.lower k = fcp) ->
     check_fcp_exist_in_db fcp raise_exec s = (Ret true, s))
  /\ (~ (exists k, is_Some (db s !! k) /\ PyStr.lower k = fcp) ->
        check_fcp_exist_in_db fcp raise_exec s
        = if raise_exec
          then (Raise (new_exn SDKObjectNotExistError ("FCP '" ++ fcp ++ "'")),
                log (LogError ("fcp " ++ fcp ++ " not exist in db!")) s)
          else (Ret false, s))
  /\ (PyStr.lower fcp <> fcp ->
        ~ (exists k, is_Some (db s !! k) /\ PyStr.lower k = fcp)).
Proof.
  assert (Hin : fcp ∈ (fun item : string * fcp_rec => PyStr.lower item.1)
                        <$> Db.get_all (db s)
                <-> exists k, is_Some (db s !! k) /\ PyStr.lower k = fcp).
  { rewrite list_elem_of_fmap. unfold Db.get_all. split.
    - intros ([k r] & -> & Hkr%elem_of_map_to_list). exists k. simpl. eauto.
    - intros (k & [r Hr] & <-). exists (k, r). split; [done|].
      by apply elem_of_map_to_list. }
  unfold check_fcp_exist_in_db, DbM.get_all. Run.mred. split; [|split].
  - intros H. by rewrite bool_decide_eq_true_2 by (by apply Hin).
  - intros H. rewrite bool_decide_eq_false_2 by (by rewrite Hin).
    by destruct raise_exec.
  - intros Hcase (k & _ & <-). apply Hcase. apply StrFacts.lower_idem.
Qed.

Module Grouping.

Lemma by_id_fold (ret : list row) (acc : gmap string row) f :
  foldl (fun fcp_id_mapping (item : row) => <[item.1 := item]> fcp_id_mapping) acc ret !! f
  = match last (filter (fun item : row => item.1 = f) ret) with
    | Some item => Some item
    | None => acc !! f
    end.
Proof.
  revert acc. induction ret as [|item ret IH]; intros acc; [done|].
  cbn [foldl]. rewrite IH, filter_cons. destruct (decide (item.1 = f)) as [<-|Hne].
  - destruct (filter _ ret) as [|x l] eqn:E.
    + simpl. apply lookup_insert_eq.
    + rewrite last_cons_cons. destruct (last (x :: l)) eqn:El; [done|].
      by apply last_None in El.
  - destruct (last _); [done|]. by rewrite lookup_insert_ne.
Qed.

Lemma by_path_fold (ret : list row) (acc : gmap nat (list row)) p :
  foldl (fun path_fcp_mapping (item : row) =>
           let path_id := path item.2 in
           let path_fcp_mapping :=
             match path_fcp_mapping !! path_id with
             | Some (_ :: _) => path_fcp_mapping
             | _ => <[path_id := []]> path_fcp_mapping
             end in
           <[path_id := (default [] (path_fcp_mapping !! path_id) ++ [item])%list]>
             path_fcp_mapping) acc ret !! p
  = match filter (fun item : row => path item.2 = p) ret with
    | [] => acc !! p
    | rows => Some (default [] (acc !! p) ++ rows)%list
    end.
Proof.
  revert acc. induction ret as [|item ret IH]; intros acc; [done|].
  cbn [foldl]. rewrite IH, filter_cons. cbv zeta.
  destruct (decide (path item.2 = p)) as [<-|Hne].
  - assert (Hnew : (let m := match acc !! path item.2 with
                              | Some (_ :: _) => acc
                              | _ => <[path item.2 := []]> acc
                              end in
                    <[path item.2 := (default [] (m !! path item.2) ++ [item])%list]> m)
                   !! path item.2
                   = Some (default [] (acc !! path item.2) ++ [item])%list).
    { cbv zeta. rewrite lookup_insert_eq. f_equal.
      destruct (acc !! path item.2) as [[|x l]|] eqn:E; rewrite ?lookup_insert_eq, ?E; done. }
    cbv zeta in Hnew. rewrite Hnew. simpl.
    destruct (filter _ ret) as [|x l]; [done|]. by rewrite <- app_assoc.
  - assert (Hold : (let m := match acc !! path item.2 with
                              | Some (_ :: _) => acc
                              | _ => <[path item.2 := []]> acc
                              end in
                    <[path item.2 := (default [] (m !! path item.2) ++ [item])%list]> m)
                   !! p = acc !! p).
    { cbv zeta. rewrite lookup_insert_ne by done.
      destruct (acc !! path item.2) as [[|x l]|]; rewrite ?lookup_insert_ne; done. }
    cbv zeta in Hold. by rewrite Hold.
Qed.

Lemma filter_unique (ret : list row) :
  NoDup ret.*1 -> forall item, item ∈ ret ->
  filter (fun i : row => i.1 = item.1) ret = [item].
Proof.
  induction ret as [|x ret IH]; intros Hnd item Hin; [by apply elem_of_nil in Hin|].
  rewrite fmap_cons in Hnd. apply NoDup_cons in Hnd as [Hx Hnd].
  apply elem_of_cons in Hin as [->|Hin].
  - rewrite filter_cons_True by done. f_equal.
    destruct (filter _ ret) as [|y l] eqn:E; [done|].
    assert (Hy : y ∈ filter (fun i : row => i.1 = x.1) ret) by (rewrite E; left).
    apply list_elem_of_filter in Hy as [Hy1 Hy2]. destruct Hx.
    rewrite <- Hy1. apply list_elem_of_fmap. by exists y.
  - rewrite filter_cons_False; [by apply IH|].
    intros Heq. destruct Hx. rewrite Heq. apply list_elem_of_fmap. by exists item.
Qed.

End Grouping.

(** X23. [get_all_fcp_usage_grouped_by_path] passes on an error of the
    query of the store; otherwise it returns, without changing the
    state, a mapping that gives for each path index the rows of the
    answer with that path, in the order of the answer, and that has no
    entry for a path without rows. *)
Theorem fcp_usage_grouped_by_path
    (get_all_fcps_of_assigner : gmap string fcp_rec -> option string -> outcome (list row))
    (assigner_id : option string) (s : state) :
  match get_all_fcps_of_assigner (db s) assigner_id with
  | Ret ret =>
      exists m, get_all_fcp_usage_grouped_by_path get_all_fcps_of_assigner assigner_id s
                = (Ret m, s)
        /\ forall p : nat,
             m !! p = match filter (fun item : row => path item.2 = p) ret with
                      | [] => None
                      | rows => Some rows
                      end
  | Raise e =>
      get_all_fcp_usage_grouped_by_path get_all_fcps_of_assigner assigner_id s
      = (Raise e, s)
  end.
Proof.
  unfold get_all_fcp_usage_grouped_by_path, db_query.
  cbv beta iota delta [mbind M_bind mret M_ret].
  destruct (get_all_fcps_of_assigner (db s) assigner_id) as [ret|e]; [|done].
  eexists. split; [reflexivity|]. intros p. rewrite Grouping.by_path_fold.
  rewrite lookup_empty. by destruct (filter _ ret).
Qed.

(** X24. [get_all_fcp_usage] passes on an error of the query of the
    store; otherwise it returns, without changing the state, a mapping
    that gives for each device number the last row of the answer with
    that number; when no number occurs twice in the answer, the mapping
    holds exactly the rows of the answer, each under its number. *)
Theorem fcp_usage_by_id
    (get_all_fcps_of_assigner : gmap string fcp_rec -> option string -> outcome (list row))
    (assigner_id : option string) (s : state) :
  match get_all_fcps_of_assigner (db s) assigner_id with
  | Ret ret =>
      exists m, get_all_fcp_usage get_all_fcps_of_assigner assigner_id s = (Ret m, s)
        /\ (forall f, m !! f = last (filter (fun item : row => item.1 = f) ret))
        /\ (NoDup ret.*1 -> forall item, m !! item.1 = Some item <-> item ∈ ret)
  | Raise e =>
      get_all_fcp_usage get_all_fcps_of_assigner assigner_id s = (Raise e, s)
  end.
Proof.
  unfold get_all_fcp_usage, db_query.
  cbv beta iota zeta delta [mbind M_bind mret M_ret].
  destruct (get_all_fcps_of_assigner (db s) assigner_id) as [ret|e]; [|done].
  eexists. split; [reflexivity|].
  assert (Hlook : forall f,
    foldl (fun fcp_id_mapping (item : row) => <[item.1 := item]> fcp_id_mapping)
          (∅ : gmap string row) ret !! f
    = last (filter (fun item : row => item.1 = f) ret)).
  { intros f. rewrite Grouping.by_id_fold, lookup_empty. by destruct (last _). }
  split; [exact Hlook|]. intros Hnd item. rewrite Hlook. clear Hlook.
  split.
  - intros Hl%last_Some_elem_of. by apply list_elem_of_filter in Hl as [_ Hl].
  - intros Hin. by rewrite (Grouping.filter_unique _ Hnd _ Hin).
Qed.

(** * The configuration of a volume on the guest *)

Module ConfiguratorFacts.
Import Configurator PyStr.

(** Unfolds the operations of a computation applied to the calls made. *)
Ltac cred :=
  cbv beta iota zeta delta
    [mbind C_bind mret C_ret ask fail log_error lift_result try_finally fst snd].

Lemma take_digits_app ds post :
  (forall c, contains c ds = true -> is_digit c = true) ->
  take_digits post = "" -> take_digits (ds ++ post) = ds.
Proof.
  intros Hds Hpost. induction ds as [|c ds IH]; [done|].
  rewrite Grammar.app_cons. simpl. rewrite (Hds c) by (simpl; by rewrite Ascii.eqb_refl).
  rewrite IH; [done|]. intros d Hd. apply Hds. simpl. by rewrite Hd, orb_true_r.
Qed.

Lemma status_here_found ds post :
  ds <> "" -> (forall c, contains c ds = true -> is_digit c = true) ->
  take_digits post = "" ->
  status_here ("status=" ++ ds ++ post) = Some ds.
Proof.
  intros Hne Hds Hpost. unfold status_here. rewrite !Grammar.app_cons, Grammar.app_nil_l.
  cbn [starts_with Ascii.eqb]. simpl. rewrite (take_digits_app _ _ Hds Hpost).
  by destruct ds.
Qed.

(** An occurrence of ["status="] that starts before another one lies
    before it. *)
Lemma starts_with_status_app u w :
  u <> "" -> starts_with "status=" (u ++ "status=" ++ w) = true ->
  starts_with "status=" u = true.
Proof.
  intros Hu. rewrite !Grammar.app_cons, Grammar.app_nil_l.
  destruct u as [|c1 [|c2 [|c3 [|c4 [|c5 [|c6 [|c7 u]]]]]]]; [done|..];
    rewrite ?Grammar.app_cons, ?Grammar.app_nil_l; simpl; rewrite ?andb_false_r; try done.
Qed.

Lemma search_status_skip pre w :
  has_substring "status=" pre = false ->
  search_status (pre ++ "status=" ++ w) = search_status ("status=" ++ w).
Proof.
  induction pre as [|c pre IH]; [done|].
  cbn [has_substring]. intros [Hhere Hrest]%orb_false_iff.
  rewrite Grammar.app_cons. cbn [search_status]. rewrite <- Grammar.app_cons.
  assert (Hno : status_here (String c pre ++ "status=" ++ w) = None).
  { unfold status_here.
    destruct (starts_with "status=" (String c pre ++ "status=" ++ w)) eqn:E; [|done].
    apply starts_with_status_app in E; [|done]. congruence. }
  rewrite Hno, Grammar.app_cons. by apply IH.
Qed.

Lemma search_status_none line :
  has_substring "status=" line = false -> search_status line = None.
Proof.
  induction line as [|c line IH].
  - intros _. reflexivity.
  - cbn [has_substring]. intros [Hhere Hrest]%orb_false_iff.
    cbn [search_status]. unfold status_here. rewrite Hhere. by apply IH.
Qed.

Lemma exit_code_skip before rest :
  Forall (fun l => has_substring "Main PID" l = false) before ->
  exit_code_of (before ++ rest) = exit_code_of rest.
Proof.
  induction 1 as [|l before Hl _ IH]; [done|]. simpl. by rewrite Hl.
Qed.

End ConfiguratorFacts.

(** X25. The exit code that [_get_status_code_from_systemctl] reads
    from the output of [systemctl status] is 0 when no line holds
    ["Main PID"].  Otherwise only the first such line counts: when the
    first ["status="] of that line is followed by digits, the code is the
    number they make; and when that line has no ["status="] at all, the
    function fails on the missing match instead of returning a code. *)
Theorem exit_code_of_first_main_pid_line (before after : list string)
    (line : string)
    (Hbefore : Forall (fun l => Configurator.has_substring "Main PID" l = false) before)
    (Hline : Configurator.has_substring "Main PID" line = true) :
  (forall response,
      Forall (fun l => Configurator.has_substring "Main PID" l = false) response ->
      Configurator.exit_code_of response = Configurator.Ok 0)
  /\ (forall pre ds post,
        line = pre ++ "status=" ++ ds ++ post ->
        Configurator.has_substring "status=" pre = false ->
        ds <> "" ->
        (forall c, PyStr.contains c ds = true -> Configurator.is_digit c = true) ->
        Configurator.take_digits post = "" ->
        Configurator.exit_code_of (before ++ line :: after)
        = Configurator.Ok (Configurator.int10 ds))
  /\ (Configurator.has_substring "status=" line = false ->
      Configurator.exit_code_of (before ++ line :: after)
      = Configurator.Err Configurator.NoneType_has_no_group).
Proof.
  split; [|split].
  - intros response H. rewrite <- (app_nil_r response).
    by rewrite ConfiguratorFacts.exit_code_skip.
  - intros pre ds post -> Hpre Hne Hds Hpost.
    rewrite ConfiguratorFacts.exit_code_skip by done.
    cbn [Configurator.exit_code_of]. rewrite Hline.
    rewrite ConfiguratorFacts.search_status_skip by done.
    assert (E : Configurator.search_status ("status=" ++ ds ++ post) = Some ds).
    { pose proof (ConfiguratorFacts.status_here_found ds post Hne Hds Hpost) as Hh.
      rewrite Grammar.app_cons in *.
      cbn [Configurator.search_status]. by rewrite Hh. }
    by rewrite E.
  - intros Hno. rewrite ConfiguratorFacts.exit_code_skip by done.
    cbn [Configurator.exit_code_of]. rewrite Hline.
    by rewrite ConfiguratorFacts.search_status_none.
Qed.

Lemma exit_code_of_first_main_pid_line_witness :
  Configurator.exit_code_of
    ["zvmguestconfigure.service - Activation engine";
     "   Main PID: 28406 (code=exited, status=3/FAILURE)";
     "   Main PID: 1 (code=exited, status=77/FAILURE)"]
  = Configurator.Ok 3.
Proof.
  apply (proj1 (proj2 (exit_code_of_first_main_pid_line
           ["zvmguestconfigure.service - Activation engine"]
           ["   Main PID: 1 (code=exited, status=77/FAILURE)"]
           "   Main PID: 28406 (code=exited, status=3/FAILURE)"
           ltac:(repeat constructor) eq_refl))
         "   Main PID: 28406 (code=exited, " "3" "/FAILURE)").
  - reflexivity.
  - reflexivity.
  - discriminate.
  - intros c Hc. simpl in Hc. rewrite orb_false_r in Hc.
    apply Ascii.eqb_eq in Hc as ->. reflexivity.
  - reflexivity.
Defined.

Module ConfigFacts.
Import Configurator ConfiguratorFacts.

(** A script that was punched: every step answered, and the folder of
    the file was removed. *)
Lemma punch_script_ok G a file cmds t t1 :
  punch_script G a file cmds t = (Ok tt, t1) ->
  exists folder,
    t1 = rmtree folder :: punch_file a (path_join folder file) "X"
         :: write_file (path_join folder file) cmds :: get_guest_temp_path a :: t.
Proof.
  unfold punch_script, _create_file. cred.
  destruct (guest_temp_path G t a) as [folder|e]; [|discriminate].
  destruct (written G _ _ cmds) as [[]|e]; [|discriminate].
  destruct (punched G _ a _ "X") as [[]|e];
    destruct (removed G _ folder) as [[]|e']; try discriminate.
  intros [= <-]. eauto.
Qed.

(** The calls of [punch_script]: a punch is followed by the removal of
    the folder, whatever the two answer. *)
Lemma punch_script_calls G a file cmds t :
  exists new,
    (punch_script G a file cmds t).2 = (new ++ t)%list
    /\ forall a' f c, punch_file a' f c ∈ new ->
         exists folder new',
           new = rmtree folder :: punch_file a' f c :: new'
           /\ guest_temp_path G t a = Ok folder
           /\ f = path_join folder file.
Proof.
  unfold punch_script, _create_file. cred.
  destruct (guest_temp_path G t a) as [folder|e] eqn:Ef.
  2:{ exists [get_guest_temp_path a]. split; [done|]. intros a' f c Hin.
      apply list_elem_of_singleton in Hin. discriminate. }
  destruct (written G _ _ cmds) as [[]|e].
  2:{ exists [write_file (path_join folder file) cmds; get_guest_temp_path a].
      split; [done|]. intros a' f c Hin.
      repeat (apply elem_of_cons in Hin as [Hin|Hin]; [discriminate|]).
      by apply elem_of_nil in Hin. }
  exists [rmtree folder; punch_file a (path_join folder file) "X";
          write_file (path_join folder file) cmds; get_guest_temp_path a].
  split.
  { destruct (punched G _ a _ "X") as [[]|e];
      destruct (removed G _ folder) as [[]|e']; reflexivity. }
  intros a' f c Hin.
  apply elem_of_cons in Hin as [Hin|Hin]; [discriminate|].
  apply elem_of_cons in Hin as [Hin|Hin].
  - injection Hin as -> -> ->. eauto.
  - repeat (apply elem_of_cons in Hin as [Hin|Hin]; [discriminate|]).
    by apply elem_of_nil in Hin.
Qed.

(** A guest that is asked to run the script and returns: it is down, or
    the run ended with the return code 0. *)
Lemma activate_ok G a rs errmsg t t' :
  activate G a rs errmsg t = (Ok tt, t') ->
  (exists format_message err response,
      executed G t a "pwd" = Err (SMTRequestFailed format_message (err :: response))
      /\ has_substring "UNAUTHORIZED_ERROR" format_message = false
      /\ t' = execute_cmd a "pwd" :: t)
  \/ (exists active_cmds response,
        executed G t a "pwd" = Ok tt
        /\ executed_direct G (create_active_net_interf_cmd :: execute_cmd a "pwd" :: t)
             a active_cmds = Ok (0%Z, response)
        /\ t' = execute_cmd_direct a active_cmds :: create_active_net_interf_cmd
                :: execute_cmd a "pwd" :: t).
Proof.
  unfold activate, check_IUCV_is_ready, _get_status_code_from_systemctl. cred.
  destruct (executed G t a "pwd") as [[]|[fm response|rs' u m|e]]; try discriminate.
  - destruct (active_cmd G _) as [cmds|e]; [|discriminate].
    destruct (executed_direct G _ a cmds) as [[rc resp]|e] eqn:Ed; [|discriminate].
    destruct (Z.eqb_spec rc 0) as [->|Hrc]; cbn [negb].
    + intros [= <-]. right. eauto.
    + destruct (executed_direct G _ a "systemctl status zvmguestconfigure.service")
        as [[rc2 resp2]|e]; [|discriminate].
      destruct (exit_code_of resp2); discriminate.
  - destruct (has_substring "UNAUTHORIZED_ERROR" fm) eqn:Hu;
      destruct response as [|err response]; try discriminate.
    intros [= <-]. left. eauto 10.
Qed.

(** A guest that runs the script with another return code than 0. *)
Lemma activate_failed G a rs errmsg t active_cmds rc response rc' status exit_code :
  executed G t a "pwd" = Ok tt ->
  active_cmd G (execute_cmd a "pwd" :: t) = Ok active_cmds ->
  executed_direct G (create_active_net_interf_cmd :: execute_cmd a "pwd" :: t)
    a active_cmds = Ok (rc, response) ->
  rc <> 0%Z ->
  executed_direct G (execute_cmd_direct a active_cmds :: create_active_net_interf_cmd
                     :: execute_cmd a "pwd" :: t)
    a "systemctl status zvmguestconfigure.service" = Ok (rc', status) ->
  exit_code_of status = Ok exit_code ->
  activate G a rs errmsg t
  = (Err (VolumeOperationError rs a (errmsg exit_code)),
     logged_error (errmsg exit_code)
     :: execute_cmd_direct a "systemctl status zvmguestconfigure.service"
     :: execute_cmd_direct a active_cmds :: create_active_net_interf_cmd
     :: execute_cmd a "pwd" :: t).
Proof.
  intros Hpwd Hcmd Hrun Hrc Hstatus Hcode.
  unfold activate, check_IUCV_is_ready, _get_status_code_from_systemctl. cred.
  rewrite Hpwd, Hcmd, Hrun. destruct (Z.eqb_spec rc 0) as [|_]; [done|]. cbn [negb].
  rewrite Hstatus. cbn [snd]. by rewrite Hcode.
Qed.

(** The calls of a script that is asked for and punched. *)
Lemma script_calls G assigner_id (c0 : call) (answer : list call -> result string)
    file t :
  (forall a f c, c0 <> punch_file a f c) ->
  exists new,
    ((ask c0 answer ≫= punch_script G assigner_id file) t).2 = (new ++ t)%list
    /\ forall a f c, punch_file a f c ∈ new ->
         exists folder new',
           new = rmtree folder :: punch_file a f c :: new'
           /\ f = path_join folder file.
Proof.
  intros Hc0. cbv beta iota delta [mbind C_bind ask].
  destruct (answer t) as [cmds|e].
  - destruct (punch_script_calls G assigner_id file cmds (c0 :: t))
      as (new & Hnew & Hpunch).
    exists (new ++ [c0])%list. rewrite <- app_assoc. split; [exact Hnew|].
    intros a f c [Hin|Hin]%elem_of_app.
    + destruct (Hpunch a f c Hin) as (folder & new' & -> & _ & ->).
      exists folder, (new' ++ [c0])%list. by split.
    + apply list_elem_of_singleton in Hin. by destruct (Hc0 a f c).
  - exists [c0]. split; [done|]. intros a f c Hin.
    apply list_elem_of_singleton in Hin. by destruct (Hc0 a f c).
Qed.

End ConfigFacts.

(** X26. In [configure_volume_attach] and [configure_volume_detach]
    every punch of the script to the guest is followed at once by the
    removal of the temporary folder of the script, whether the punch and
    the removal succeed or fail; the file punched is [atvol.sh], or
    [devol.sh], in that folder. *)
Theorem script_folder_always_removed (G : Configurator.guest) (fcp_list : list string)
    (assigner_id : string) (target_wwpns : list string) (target_lun : string)
    (multipath : bool) (os_version mount_point : string) (connections : nat)
    (t : list Configurator.call) :
  let attach_run :=
    Configurator.configure_volume_attach G fcp_list assigner_id target_wwpns
      target_lun multipath os_version mount_point t in
  let detach_run :=
    Configurator.configure_volume_detach G fcp_list assigner_id target_wwpns
      target_lun multipath os_version mount_point connections t in
  (exists new, attach_run.2 = (new ++ t)%list
     /\ forall a f c, Configurator.punch_file a f c ∈ new ->
          exists folder new',
            new = Configurator.rmtree folder :: Configurator.punch_file a f c :: new'
            /\ f = Configurator.path_join folder "atvol.sh")
  /\ (exists new, detach_run.2 = (new ++ t)%list
        /\ forall a f c, Configurator.punch_file a f c ∈ new ->
             exists folder new',
               new = Configurator.rmtree folder :: Configurator.punch_file a f c :: new'
               /\ f = Configurator.path_join folder "devol.sh").
Proof.
  split; apply ConfigFacts.script_calls; done.
Qed.

(** X27. When [config_attach] returns, every step up to the punch of
    the script was answered and the folder of the script was removed, in
    this order: distribution, commands, temporary path, file, punch,
    removal, and then the guest was asked for [pwd]; and either the
    guest did not answer, with an error that is not one of
    authorisation, and nothing was run on it, or the run of the script
    ended with the return code 0. *)
Theorem config_attach_success (G : Configurator.guest) (fcp_list : list string)
    (assigner_id : string) (target_wwpns : list string) (target_lun : string)
    (multipath : bool) (os_version mount_point : string)
    (t t' : list Configurator.call)
    (Hreturned : Configurator.config_attach G fcp_list assigner_id target_wwpns
                   target_lun multipath os_version mount_point t
                 = (Configurator.Ok tt, t')) :
  exists config_cmds folder,
    let config_file := Configurator.path_join folder "atvol.sh" in
    let t1 :=
      Configurator.rmtree folder
      :: Configurator.punch_file assigner_id config_file "X"
      :: Configurator.write_file config_file config_cmds
      :: Configurator.get_guest_temp_path assigner_id
      :: Configurator.get_volume_attach_configuration_cmds
           (Configurator.join " " fcp_list) (Configurator.join " " target_wwpns)
           target_lun multipath mount_point
      :: Configurator.get_linux_dist os_version :: t in
    (exists format_message err response,
        Configurator.executed G t1 assigner_id "pwd"
        = Configurator.Err
            (Configurator.SMTRequestFailed format_message (err :: response))
        /\ Configurator.has_substring "UNAUTHORIZED_ERROR" format_message = false
        /\ t' = Configurator.execute_cmd assigner_id "pwd" :: t1)
    \/ (exists active_cmds response,
          Configurator.executed G t1 assigner_id "pwd" = Configurator.Ok tt
          /\ Configurator.executed_direct G
               (Configurator.create_active_net_interf_cmd
                :: Configurator.execute_cmd assigner_id "pwd" :: t1)
               assigner_id active_cmds
             = Configurator.Ok (0%Z, response)
          /\ t' = Configurator.execute_cmd_direct assigner_id active_cmds
                  :: Configurator.create_active_net_interf_cmd
                  :: Configurator.execute_cmd assigner_id "pwd" :: t1).
Proof.
  unfold Configurator.config_attach, Configurator.configure_volume_attach in Hreturned.
  revert Hreturned.
  cbv beta iota zeta delta [mbind Configurator.C_bind Configurator.ask].
  destruct (Configurator.linux_dist G t os_version) as [[]|e]; [|discriminate].
  destruct (Configurator.attach_cmds G _ _ _ target_lun multipath mount_point)
    as [cmds|e]; [|discriminate].
  destruct (Configurator.punch_script G assigner_id "atvol.sh" cmds _)
    as [[[]|e] t1] eqn:Epunch; [|discriminate].
  apply ConfigFacts.punch_script_ok in Epunch as [folder ->].
  intros Hact%ConfigFacts.activate_ok. exists cmds, folder. exact Hact.
Qed.

Lemma config_attach_success_witness :
  exists folder,
    In (Configurator.rmtree folder)
       (Configurator.config_attach Cases.guest_down ["1a00"] "VM1"
          ["5005076802100c1b"] "0000000000000000" false "rhel7" "/dev/sdz" []).2.
Proof.
  destruct (config_attach_success Cases.guest_down ["1a00"] "VM1"
              ["5005076802100c1b"] "0000000000000000" false "rhel7" "/dev/sdz" []
              (Configurator.config_attach Cases.guest_down ["1a00"] "VM1"
                 ["5005076802100c1b"] "0000000000000000" false "rhel7" "/dev/sdz"
                 []).2)
    as (cmds & folder & [(fm & err & resp & _ & _ & Ht')|(ac & resp & _ & _ & Ht')]).
  - vm_compute. reflexivity.
  - exists folder. rewrite Ht'. simpl. tauto.
  - exists folder. rewrite Ht'. simpl. tauto.
Defined.

(** X28. When the script is punched and the guest answers, a run of the
    script with a return code other than 0 makes [config_attach] and
    [config_detach] ask for the status of the service, log the error
    and raise [SDKVolumeOperationError], with the reason 8 for an attach
    and 9 for a detach.  The exit code read from the status chooses the
    text: for the code 1 that the volume did not show up, or that the
    device is in use, and for any other code, 0 included, that the
    reason is unknown. *)
Theorem config_script_failure (G : Configurator.guest) (fcp_list : list string)
    (assigner_id : string) (target_wwpns : list string) (target_lun : string)
    (multipath : bool) (os_version mount_point : string) (connections : nat)
    (t t1 : list Configurator.call) (active_cmds : string) (rc rc' : Z)
    (response status : list string) (exit_code : N)
    (Hpwd : Configurator.executed G t1 assigner_id "pwd" = Configurator.Ok tt)
    (Hcmds : Configurator.active_cmd G (Configurator.execute_cmd assigner_id "pwd" :: t1)
             = Configurator.Ok active_cmds)
    (Hrun : Configurator.executed_direct G
              (Configurator.create_active_net_interf_cmd
               :: Configurator.execute_cmd assigner_id "pwd" :: t1)
              assigner_id active_cmds = Configurator.Ok (rc, response))
    (Hrc : rc <> 0%Z)
    (Hstatus : Configurator.executed_direct G
                 (Configurator.execute_cmd_direct assigner_id active_cmds
                  :: Configurator.create_active_net_interf_cmd
                  :: Configurator.execute_cmd assigner_id "pwd" :: t1)
                 assigner_id "systemctl status zvmguestconfigure.service"
               = Configurator.Ok (rc', status))
    (Hcode : Configurator.exit_code_of status = Configurator.Ok exit_code) :
  let t2 :=
    Configurator.execute_cmd_direct assigner_id
      "systemctl status zvmguestconfigure.service"
    :: Configurator.execute_cmd_direct assigner_id active_cmds
    :: Configurator.create_active_net_interf_cmd
    :: Configurator.execute_cmd assigner_id "pwd" :: t1 in
  (Configurator.configure_volume_attach G fcp_list assigner_id target_wwpns
     target_lun multipath os_version mount_point
     (Configurator.get_linux_dist os_version :: t) = (Configurator.Ok tt, t1) ->
   Configurator.linux_dist G t os_version = Configurator.Ok tt ->
   let msg :=
     if exit_code =? 1
     then Configurator.attach_volume_did_not_show_up target_wwpns target_lun assigner_id
     else Configurator.attach_unknown_reason assigner_id target_wwpns target_lun
            exit_code in
   Configurator.config_attach G fcp_list assigner_id target_wwpns target_lun
     multipath os_version mount_point t
   = (Configurator.Err (Configurator.VolumeOperationError 8 assigner_id msg),
      Configurator.logged_error msg :: t2))
  /\ (Configurator.configure_volume_detach G fcp_list assigner_id target_wwpns
        target_lun multipath os_version mount_point connections
        (Configurator.get_linux_dist os_version :: t) = (Configurator.Ok tt, t1) ->
      Configurator.linux_dist G t os_version = Configurator.Ok tt ->
      let msg :=
        if exit_code =? 1
        then Configurator.detach_device_in_use fcp_list assigner_id
        else Configurator.detach_unknown_reason fcp_list assigner_id exit_code in
      Configurator.config_detach G fcp_list assigner_id target_wwpns target_lun
        multipath os_version mount_point connections t
      = (Configurator.Err (Configurator.VolumeOperationError 9 assigner_id msg),
         Configurator.logged_error msg :: t2)).
Proof.
  split.
  - intros Hconf Hdist msg. unfold Configurator.config_attach.
    cbv beta iota zeta delta [mbind Configurator.C_bind Configurator.ask].
    rewrite Hdist, Hconf.
    by rewrite (ConfigFacts.activate_failed G assigner_id 8 _ t1 active_cmds rc
                  response rc' status exit_code).
  - intros Hconf Hdist msg. unfold Configurator.config_detach.
    cbv beta iota zeta delta [mbind Configurator.C_bind Configurator.ask].
    rewrite Hdist, Hconf.
    by rewrite (ConfigFacts.activate_failed G assigner_id 9 _ t1 active_cmds rc
                  response rc' status exit_code).
Qed.

Lemma config_script_failure_witness :
  (Configurator.config_attach Cases.script_fails ["1a00"] "VM1"
     ["5005076802100c1b"] "0000000000000000" false "rhel7" "/dev/sdz" []).1
  = Configurator.Err
      (Configurator.VolumeOperationError 8 "VM1"
         (Configurator.attach_volume_did_not_show_up ["5005076802100c1b"]
            "0000000000000000" "VM1")).
Proof.
  destruct (config_script_failure Cases.script_fails ["1a00"] "VM1"
              ["5005076802100c1b"] "0000000000000000" false "rhel7" "/dev/sdz" 0 []
              (Configurator.configure_volume_attach Cases.script_fails ["1a00"] "VM1"
                 ["5005076802100c1b"] "0000000000000000" false "rhel7" "/dev/sdz"
                 [Configurator.get_linux_dist "rhel7"]).2
              "systemctl restart zvmguestconfigure" 1 3 []
              ["   Main PID: 28406 (code=exited, status=1/FAILURE)"] 1)
    as [Hattach _].
  - reflexivity.
  - reflexivity.
  - reflexivity.
  - discriminate.
  - reflexivity.
  - reflexivity.
  - rewrite Hattach; [reflexivity|vm_compute; reflexivity|reflexivity].
Defined.
